(** * UP (Unified Properties) parsers of uplang/js, embedded in Rocq

    The repository ships three line-driven parsers for the same format:

    - [Parser1]: class [Parser] of [src/up.ts] (index-passing, no directives);
    - [Parser2]: the later revision of class [Parser] (adds [!use] / [!lint],
      [!quoted], line-oriented [key: value] headers and inline blocks);
    - [UpParser]: class [UpParser] (cursor held in the instance, tables).

    Each is translated function by function.  JavaScript strings are
    sequences of UTF-16 code units; they are modelled by [string], one
    [ascii] per code unit, which covers every input whose code units are
    below 256 (the format's own syntax is ASCII).

    The parsers recurse once per block or list nested in the input.  The
    functions [parse] describe them on a call stack that never overflows;
    for class [Parser] of [src/up.ts] the bound of the stack is modelled as
    well ([Parser1.parseWithin]), and [Parser1.parse] gives the result of
    every run that stays within it. *)

From Stdlib Require Import String Ascii List ZArith Lia Bool Arith DecimalString.
Import ListNotations.
Open Scope string_scope.

(** ** The JavaScript string primitives the parsers call *)

Module JS.

(** [\s] and [String.prototype.trim] use the same set: WhiteSpace and
    LineTerminator.  Below 256 these are TAB, LF, VT, FF, CR, SP, NBSP. *)
Definition isSpace (c : ascii) : bool :=
  existsb (Ascii.eqb c) ["009"; "010"; "011"; "012"; "013"; " "; "160"]%char.

(** The regular-expression atom [.] (without the [s] flag) matches every code
    unit except the line terminators; below 256 these are LF and CR. *)
Definition isLineTerminator (c : ascii) : bool :=
  existsb (Ascii.eqb c) ["010"; "013"]%char.

Definition isDigit (c : ascii) : bool :=
  existsb (Ascii.eqb c) ["0"; "1"; "2"; "3"; "4"; "5"; "6"; "7"; "8"; "9"]%char.

Fixpoint takeWhile (p : ascii -> bool) (s : string) : string :=
  match s with
  | "" => ""
  | String c r => if p c then String c (takeWhile p r) else ""
  end.

Fixpoint dropWhile (p : ascii -> bool) (s : string) : string :=
  match s with
  | "" => ""
  | String c r => if p c then dropWhile p r else s
  end.

Fixpoint existsChar (p : ascii -> bool) (s : string) : bool :=
  match s with
  | "" => false
  | String c r => p c || existsChar p r
  end.

Definition isEmpty (s : string) : bool :=
  match s with "" => true | _ => false end.

Definition trimStart (s : string) : string := dropWhile isSpace s.

Fixpoint trimEnd (s : string) : string :=
  match s with
  | "" => ""
  | String c r =>
      let r' := trimEnd r in
      if isSpace c && isEmpty r' then "" else String c r'
  end.

(** [s.trim()] *)
Definition trim (s : string) : string := trimEnd (trimStart s).

(** [s.startsWith(p)] *)
Fixpoint startsWith (s p : string) {struct p} : bool :=
  match p with
  | "" => true
  | String b p' =>
      match s with
      | "" => false
      | String a s' => Ascii.eqb a b && startsWith s' p'
      end
  end.

(** [s.endsWith(p)] *)
Definition endsWith (s p : string) : bool :=
  (String.length p <=? String.length s)%nat
  && (substring (String.length s - String.length p) (String.length p) s =? p).

(** Relative index of [slice]: a negative index counts from the end, and
    every index is clamped to [0 .. len]. *)
Definition relIndex (len : nat) (k : Z) : nat :=
  if (k <? 0)%Z then Z.to_nat (Z.max (Z.of_nat len + k) 0)
  else Nat.min (Z.to_nat k) len.

(** [s.slice(b, e)] *)
Definition slice (s : string) (b e : Z) : string :=
  let from := relIndex (String.length s) b in
  let to := relIndex (String.length s) e in
  substring from (to - from) s.

(** [s.slice(b)] *)
Definition sliceFrom (s : string) (b : Z) : string :=
  slice s b (Z.of_nat (String.length s)).

(** [s.substring(b, e)]: negative arguments count as 0, arguments are
    clamped to the length and swapped when [b > e]. *)
Definition substringJS (s : string) (b e : Z) : string :=
  let clamp k := Nat.min (Z.to_nat (Z.max k 0)) (String.length s) in
  let lo := Nat.min (clamp b) (clamp e) in
  let hi := Nat.max (clamp b) (clamp e) in
  substring lo (hi - lo) s.

(** [s.substring(b)] *)
Definition substringFrom (s : string) (b : Z) : string :=
  substringJS s b (Z.of_nat (String.length s)).

(** Index of the first code unit satisfying [p], or [-1]. *)
Fixpoint findIndex (p : ascii -> bool) (s : string) : Z :=
  match s with
  | "" => (-1)%Z
  | String a r =>
      if p a then 0%Z
      else let k := findIndex p r in if (k <? 0)%Z then (-1)%Z else (k + 1)%Z
  end.

(** [s.indexOf(c)] for a one-character needle *)
Definition indexOf (s : string) (c : ascii) : Z := findIndex (Ascii.eqb c) s.

(** [s.lastIndexOf(c)] for a one-character needle *)
Fixpoint lastIndexOf (s : string) (c : ascii) : Z :=
  match s with
  | "" => (-1)%Z
  | String a r =>
      let k := lastIndexOf r c in
      if (0 <=? k)%Z then (k + 1)%Z
      else if Ascii.eqb a c then 0%Z else (-1)%Z
  end.

(** [s.includes(sub)] *)
Fixpoint includes (s sub : string) : bool :=
  startsWith s sub
  || match s with
     | "" => false
     | String _ r => includes r sub
     end.

(** [s.split(c)] for a one-character separator; the result is never empty
    ([''.split(c)] is [['']]). *)
Fixpoint split (c : ascii) (s : string) : list string :=
  match s with
  | "" => [""]
  | String a r =>
      if Ascii.eqb a c then "" :: split c r
      else match split c r with
           | h :: t => String a h :: t
           | [] => [String a ""]
           end
  end.

(** [l.join(sep)] *)
Definition join (sep : string) (l : list string) : string := String.concat sep l.

(** [s.split(/\r?\n/)]: a CR directly before a LF belongs to the separator. *)
Fixpoint splitLines (s : string) : list string :=
  match s with
  | "" => [""]
  | String a r =>
      if Ascii.eqb a "010" then "" :: splitLines r
      else match r with
           | String b r' =>
               if Ascii.eqb a "013" && Ascii.eqb b "010" then "" :: splitLines r'
               else match splitLines r with
                    | h :: t => String a h :: t
                    | [] => [String a ""]
                    end
           | "" => [String a ""]
           end
  end.

Definition digitVal (c : ascii) : Z := Z.of_nat (nat_of_ascii c) - 48.

Fixpoint digitsVal (acc : Z) (s : string) : Z :=
  match s with
  | "" => acc
  | String c r => digitsVal (10 * acc + digitVal c) r
  end.

(** [parseInt(s, 10)]: leading white space is skipped, one sign is accepted,
    then the longest run of decimal digits is read; [None] stands for NaN.
    The value is only compared with string lengths and passed to [slice], so
    the exact integer behaves as the (possibly rounded) JavaScript number. *)
Definition parseInt (s : string) : option Z :=
  let s1 := trimStart s in
  let '(neg, s2) :=
    match s1 with
    | String "-" r => (true, r)
    | String "+" r => (false, r)
    | _ => (false, s1)
    end in
  let ds := takeWhile isDigit s2 in
  if isEmpty ds then None
  else Some (if neg then (- digitsVal 0 ds)%Z else digitsVal 0 ds).

(** The line feed, the carriage return and the double quote as strings. *)
Definition LF : string := String "010" "".
Definition CR : string := String "013" "".
Definition DQ : string := String "034" "".

(** Decimal rendering of a number inside a template literal. *)
Definition showNat (n : nat) : string := NilEmpty.string_of_uint (Nat.to_uint n).

End JS.

Import JS.

Arguments isSpace : simpl never.
Arguments isLineTerminator : simpl never.
Arguments isDigit : simpl never.
Arguments startsWith : simpl never.

(** ** Values, blocks and nodes *)

(** [Value] of the TypeScript sources: a string, a [Block] (a plain object),
    a [List] (an array), a [Table] or a [UseDirective].  A block is held as
    the list of its own properties in the order they were created, which is
    the order in which JavaScript enumerates them except that keys that are
    array indices come first.  The table object of [UpParser] is built field
    by field, so each field may be missing. *)
#[warnings="-register-all"]
Inductive Value : Type :=
| Scalar (text : string)
| Block (entries : list (string * Value))
| List (items : list Value)
| Table (columns : option (list string)) (rows : option (list (list string)))
| UseDirective (namespaces : list string).

Definition Entries : Type := list (string * Value).

(** In-place update of an existing own property, creation of a new one at
    the end otherwise. *)
Fixpoint defineOwn (k : string) (v : Value) (o : Entries) : Entries :=
  match o with
  | [] => [(k, v)]
  | (k', v') :: r => if k' =? k then (k', v) :: r else (k', v') :: defineOwn k v r
  end.

(** [o[k] = v] on an object created by the literal [{}].  Its prototype chain
    ends in [Object.prototype], whose accessor property [__proto__] receives
    an assignment to that key: the setter changes the prototype (or ignores a
    string) and no own property is created.  Every other key either updates
    the existing own property or creates one. *)
Definition objSet (o : Entries) (k : string) (v : Value) : Entries :=
  if k =? "__proto__" then o else defineOwn k v o.

(** Own-property lookup. *)
Fixpoint objGet (o : Entries) (k : string) : option Value :=
  match o with
  | [] => None
  | (k', v) :: r => if k' =? k then Some v else objGet r k
  end.

Definition ownKeys (o : Entries) : list string := map fst o.

(** A key is an array index when it is the decimal numeral, without sign or
    leading zero, of an integer from 0 to 4294967294. *)
Definition arrayIndex (k : string) : option Z :=
  if isEmpty k || existsChar (fun c => negb (isDigit c)) k then None
  else if (2 <=? String.length k)%nat && startsWith k "0" then None
  else if (digitsVal 0 k <=? 4294967294)%Z then Some (digitsVal 0 k)
  else None.

Fixpoint insertIndex (n : Z) (k : string) (l : list (Z * string)) : list (Z * string) :=
  match l with
  | [] => [(n, k)]
  | (m, k') :: r => if (n <=? m)%Z then (n, k) :: l else (m, k') :: insertIndex n k r
  end.

Fixpoint indexKeys (keys : list string) : list (Z * string) :=
  match keys with
  | [] => []
  | k :: r =>
      match arrayIndex k with
      | Some n => insertIndex n k (indexKeys r)
      | None => indexKeys r
      end
  end.

(** [Object.keys(o)]: the array indices in ascending order, then the other
    keys in the order of their creation. *)
Definition enumerate (o : Entries) : list string :=
  (map snd (indexKeys (ownKeys o))
   ++ filter (fun k => match arrayIndex k with Some _ => false | None => true end)
        (ownKeys o))%list.

(** A parse either returns, throws a [ParseError] with a message, or (in the
    model only) exhausts the recursion budget. *)
Inductive result (A : Type) : Type :=
| Ok (a : A)
| Throw (msg : string)
| OutOfFuel.

Arguments Ok {A} a.
Arguments Throw {A} msg.
Arguments OutOfFuel {A}.

Definition bind {A B : Type} (r : result A) (k : A -> result B) : result B :=
  match r with
  | Ok a => k a
  | Throw m => Throw m
  | OutOfFuel => OutOfFuel
  end.

Notation "'let*' x ':=' r 'in' k" := (bind r (fun x => k))
  (at level 10, x pattern, r at level 100, k at level 200).

(** [try { body } catch (error) { throw new ParseError(`line ${n}: ${error.message}`) }] *)
Definition wrapLine {A : Type} (n : nat) (r : result A) : result A :=
  match r with
  | Throw m => Throw ("line " ++ showNat n ++ ": " ++ m)
  | _ => r
  end.

(** ** [Parser1]: class [Parser] of src/up.ts *)

Module Parser1.

Record Node : Type := mkNode {
  key : string;
  typeAnnotation : option string;
  value : Value
}.

(** [Document]: the array of top-level nodes. *)
Definition Document : Type := list Node.

(** [line.match(re)] for the header pattern (anchored at both ends: one or
    more non-space code units as group 1, any white space, any run of [.] as
    group 2).  The key is the leading run of non-space code units, which must
    not be empty; the white space after it is skipped and the rest must reach
    the end of the line without a line terminator, since [.] matches none
    and the end anchor only holds at the very end.  Shorter choices for the
    first two parts leave the same terminator to the last one, so the match
    fails exactly when a terminator occurs in the rest. *)
Definition matchHeader (line : string) : option (string * string) :=
  let k := takeWhile (fun c => negb (isSpace c)) line in
  let rest := dropWhile isSpace (dropWhile (fun c => negb (isSpace c)) line) in
  if isEmpty k || existsChar isLineTerminator rest then None
  else Some (k, rest).

Definition splitKeyValue (line : string) : string * string :=
  match matchHeader line with
  | None => (trim line, "")
  | Some (k, v) => (k, v)
  end.

Definition parseKeyAndType (keyPart : string) : string * option string :=
  let idx := indexOf keyPart "!" in
  if (idx =? -1)%Z then (keyPart, None)
  else (slice keyPart 0 idx, Some (sliceFrom keyPart (idx + 1))).

Definition parseInlineList (s : string) : Value :=
  let content := slice (trim s) 1 (-1) in
  if isEmpty (trim content) then List []
  else List (map (fun item => Scalar (trim item)) (split "," content)).

Definition dedent (text : string) (amount : Z) : string :=
  join LF
    (map (fun line => if (amount <=? Z.of_nat (String.length line))%Z
                      then sliceFrom line amount else line)
         (split "010" text)).

(** The [while] loop of [parseMultiline]; [rest] is [lines] from index [i] on. *)
Fixpoint multilineLoop (rest : list string) (i : nat) (content : list string)
  : list string * nat :=
  match rest with
  | [] => (content, i)
  | line :: rest' =>
      if isEmpty line then (content, i)
      else if trim line =? "```" then (content, i + 1)
      else multilineLoop rest' (i + 1) (content ++ [line])%list
  end.

Definition parseMultiline (lines : list string) (startIndex : nat)
    (typeAnnotation : option string) : Value * nat :=
  let '(content, i) := multilineLoop (skipn startIndex lines) startIndex [] in
  let text := join LF content in
  let text :=
    match typeAnnotation with
    | Some t =>
        if isEmpty t then text
        else match parseInt t with
             | Some dedentAmount => dedent text dedentAmount
             | None => text
             end
    | None => text
    end in
  (Scalar text, i).

Section Dispatch.

Variable lines : list string.
(** The recursive calls [this.#parseBlock(lines, j)] and
    [this.#parseList(lines, j)]. *)
Variables parseBlock_rec parseList_rec : nat -> result (Value * nat).

Definition parseValue (startIndex : nat) (valPart : string)
    (typeAnnotation : option string) : result (Value * nat) :=
  if startsWith valPart "```" then
    Ok (parseMultiline lines (startIndex + 1) typeAnnotation)
  else if valPart =? "{" then parseBlock_rec (startIndex + 1)
  else if valPart =? "[" then parseList_rec (startIndex + 1)
  else if startsWith valPart "[" && endsWith valPart "]" then
    Ok (parseInlineList valPart, startIndex + 1)
  else Ok (Scalar valPart, startIndex + 1).

Definition parseLine (startIndex : nat) : result (Node * nat) :=
  let line := nth startIndex lines "" in
  let '(keyPart, valPart) := splitKeyValue line in
  let '(key, typeAnnotation) := parseKeyAndType keyPart in
  let* (value, nextIndex) := parseValue startIndex valPart typeAnnotation in
  Ok (mkNode key typeAnnotation value, nextIndex).

End Dispatch.

(** The [while] loops of [parseBlock] and [parseList].  Every iteration and
    every nested call spends one unit of [fuel]. *)
Fixpoint blockLoop (fuel : nat) (lines : list string) (i : nat) (block : Entries)
  {struct fuel} : result (Value * nat) :=
  match fuel with
  | O => OutOfFuel
  | S f =>
      if (i <? List.length lines)%nat then
        let line := nth i lines "" in
        if isEmpty line then Ok (Block block, i)
        else
          let trimmed := trim line in
          if trimmed =? "}" then Ok (Block block, i + 1)
          else if isEmpty trimmed || startsWith trimmed "#" then
            blockLoop f lines (i + 1) block
          else
            let* (node, nextIndex) :=
              parseLine lines (fun j => blockLoop f lines j [])
                              (fun j => listLoop f lines j []) i in
            blockLoop f lines nextIndex (objSet block (key node) (value node))
      else Ok (Block block, i)
  end
with listLoop (fuel : nat) (lines : list string) (i : nat) (list : list Value)
  {struct fuel} : result (Value * nat) :=
  match fuel with
  | O => OutOfFuel
  | S f =>
      if (i <? List.length lines)%nat then
        let line := nth i lines "" in
        if isEmpty line then Ok (List list, i)
        else
          let trimmed := trim line in
          if trimmed =? "]" then Ok (List list, i + 1)
          else if isEmpty trimmed || startsWith trimmed "#" then
            listLoop f lines (i + 1) list
          else if startsWith trimmed "[" && endsWith trimmed "]" then
            listLoop f lines (i + 1) (list ++ [parseInlineList trimmed])%list
          else if trimmed =? "{" then
            let* (value, nextIndex) := blockLoop f lines (i + 1) [] in
            listLoop f lines nextIndex (list ++ [value])%list
          else listLoop f lines (i + 1) (list ++ [Scalar trimmed])%list
      else Ok (List list, i)
  end.

Definition parseBlock (fuel : nat) (lines : list string) (startIndex : nat)
  : result (Value * nat) := blockLoop fuel lines startIndex [].

Definition parseList (fuel : nat) (lines : list string) (startIndex : nat)
  : result (Value * nat) := listLoop fuel lines startIndex [].

(** [this.#parseLine(lines, i)] with a budget that covers every line. *)
Definition parseLineAt (lines : list string) (i : nat) : result (Node * nat) :=
  let fuel := S (List.length lines) in
  parseLine lines (parseBlock fuel lines) (parseList fuel lines) i.

(** One iteration of the [while] loop of [parseDocument], entered with
    [i < lines.length]. *)
Definition docStep (lines : list string) (i : nat) (nodes : list Node)
  : result (nat * list Node) :=
  let line := nth i lines "" in
  if isEmpty line then Ok (i + 1, nodes)
  else
    let trimmed := trim line in
    if isEmpty trimmed || startsWith trimmed "#" then Ok (i + 1, nodes)
    else
      let* (node, nextIndex) := wrapLine (i + 1) (parseLineAt lines i) in
      Ok (nextIndex, (nodes ++ [node])%list).

Fixpoint docLoop (fuel : nat) (lines : list string) (i : nat) (nodes : list Node)
  : result Document :=
  if (i <? List.length lines)%nat then
    match fuel with
    | O => OutOfFuel
    | S f =>
        let* (i', nodes') := docStep lines i nodes in
        docLoop f lines i' nodes'
    end
  else Ok nodes.

Definition parseDocument (input : string) : result Document :=
  let lines := split "010" input in
  docLoop (List.length lines) lines 0 [].

Definition parse (input : string) : result Document := parseDocument input.

(** *** The call stack

    [#parseBlock] and [#parseList] are called from [#parseValue], which
    [#parseLine] calls, which the loops of [#parseBlock] and [parseDocument]
    call: every block or list nested in the input is a nested activation of
    these methods.  JavaScript leaves the depth of the call stack to the
    engine; a call that exceeds it throws a [RangeError], which no method
    catches but [parseDocument], whose [catch] turns it into a [ParseError]
    that carries the line number.  The functions above are the parser on a
    stack that never overflows.  The functions below are the same with this
    one check added where [#parseBlock] and [#parseList] are called:
    [capacity] is the number of nested activations of the two that the stack
    still holds. *)

(** The message of the engine's [RangeError] (that of V8, on which the
    tests of the repository run). *)
Definition stackOverflowMessage : string := "Maximum call stack size exceeded".

Fixpoint blockLoopWithin (fuel capacity : nat) (lines : list string) (i : nat)
    (block : Entries) {struct fuel} : result (Value * nat) :=
  match fuel with
  | O => OutOfFuel
  | S f =>
      if (i <? List.length lines)%nat then
        let line := nth i lines "" in
        if isEmpty line then Ok (Block block, i)
        else
          let trimmed := trim line in
          if trimmed =? "}" then Ok (Block block, i + 1)
          else if isEmpty trimmed || startsWith trimmed "#" then
            blockLoopWithin f capacity lines (i + 1) block
          else
            let* (node, nextIndex) :=
              parseLine lines
                (fun j => match capacity with
                          | O => Throw stackOverflowMessage
                          | S c => blockLoopWithin f c lines j []
                          end)
                (fun j => match capacity with
                          | O => Throw stackOverflowMessage
                          | S c => listLoopWithin f c lines j []
                          end) i in
            blockLoopWithin f capacity lines nextIndex
              (objSet block (key node) (value node))
      else Ok (Block block, i)
  end
with listLoopWithin (fuel capacity : nat) (lines : list string) (i : nat)
    (list : list Value) {struct fuel} : result (Value * nat) :=
  match fuel with
  | O => OutOfFuel
  | S f =>
      if (i <? List.length lines)%nat then
        let line := nth i lines "" in
        if isEmpty line then Ok (List list, i)
        else
          let trimmed := trim line in
          if trimmed =? "]" then Ok (List list, i + 1)
          else if isEmpty trimmed || startsWith trimmed "#" then
            listLoopWithin f capacity lines (i + 1) list
          else if startsWith trimmed "[" && endsWith trimmed "]" then
            listLoopWithin f capacity lines (i + 1)
              (list ++ [parseInlineList trimmed])%list
          else if trimmed =? "{" then
            let* (value, nextIndex) :=
              match capacity with
              | O => Throw stackOverflowMessage
              | S c => blockLoopWithin f c lines (i + 1) []
              end in
            listLoopWithin f capacity lines nextIndex (list ++ [value])%list
          else listLoopWithin f capacity lines (i + 1) (list ++ [Scalar trimmed])%list
      else Ok (List list, i)
  end.

(** [this.#parseBlock(lines, startIndex)] and [this.#parseList(lines,
    startIndex)] called on a stack that holds [capacity] more activations. *)
Definition parseBlockWithin (fuel capacity : nat) (lines : list string)
    (startIndex : nat) : result (Value * nat) :=
  match capacity with
  | O => Throw stackOverflowMessage
  | S c => blockLoopWithin fuel c lines startIndex []
  end.

Definition parseListWithin (fuel capacity : nat) (lines : list string)
    (startIndex : nat) : result (Value * nat) :=
  match capacity with
  | O => Throw stackOverflowMessage
  | S c => listLoopWithin fuel c lines startIndex []
  end.

Definition parseLineWithin (capacity : nat) (lines : list string) (i : nat)
  : result (Node * nat) :=
  let fuel := S (List.length lines) in
  parseLine lines (parseBlockWithin fuel capacity lines)
                  (parseListWithin fuel capacity lines) i.

Definition docStepWithin (capacity : nat) (lines : list string) (i : nat)
    (nodes : list Node) : result (nat * list Node) :=
  let line := nth i lines "" in
  if isEmpty line then Ok (i + 1, nodes)
  else
    let trimmed := trim line in
    if isEmpty trimmed || startsWith trimmed "#" then Ok (i + 1, nodes)
    else
      let* (node, nextIndex) :=
        wrapLine (i + 1) (parseLineWithin capacity lines i) in
      Ok (nextIndex, (nodes ++ [node])%list).

Fixpoint docLoopWithin (fuel capacity : nat) (lines : list string) (i : nat)
    (nodes : list Node) : result Document :=
  if (i <? List.length lines)%nat then
    match fuel with
    | O => OutOfFuel
    | S f =>
        let* (i', nodes') := docStepWithin capacity lines i nodes in
        docLoopWithin f capacity lines i' nodes'
    end
  else Ok nodes.

(** [parse(input)] on a call stack that holds [capacity] nested activations
    of [#parseBlock] and [#parseList]. *)
Definition parseWithin (capacity : nat) (input : string) : result Document :=
  let lines := split "010" input in
  docLoopWithin (List.length lines) capacity lines 0 [].

End Parser1.

(** [Document.isEmpty()] of src/up.ts. *)
Definition documentIsEmpty {A : Type} (nodes : list A) : bool :=
  (List.length nodes =? 0)%nat.

(** ** [Parser2]: the revision of class [Parser] with directives *)

Module Parser2.

(** The [Node] and [Document] declarations are those of src/up.ts. *)
Definition Node : Type := Parser1.Node.
Definition Document : Type := list Node.
Definition mkNode := Parser1.mkNode.
Definition key := Parser1.key.
Definition typeAnnotation := Parser1.typeAnnotation.
Definition value := Parser1.value.

Definition useMessage : string :=
  "!use directive requires a list: !use [namespace1, namespace2]".

Definition lintMessage : string :=
  "!lint directive requires a block: !lint { ... }".

Definition stripSurroundingQuotes (s : string) : string :=
  if (2 <=? String.length s)%nat && startsWith s DQ && endsWith s DQ
  then slice s 1 (-1) else s.

(** Group 1 and group 2 of the header pattern, as in src/up.ts. *)
Definition matchHeader := Parser1.matchHeader.

(** The record [{ keyPart, valPart, lineOriented }]. *)
Record KeyValue : Type := mkKeyValue {
  keyPart : string;
  valPart : string;
  lineOriented : bool
}.

Definition splitKeyValue (line : string) : KeyValue :=
  match matchHeader line with
  | None => mkKeyValue (trim line) "" false
  | Some (keyPart, valPart) =>
      if endsWith keyPart ":" && negb (includes keyPart "://") then
        let keyPart := slice keyPart 0 (-1) in
        let valPart := trim valPart in
        let commentIdx := indexOf valPart "#" in
        let valPart :=
          if (0 <=? commentIdx)%Z then trim (slice valPart 0 commentIdx)
          else valPart in
        mkKeyValue keyPart (stripSurroundingQuotes valPart) true
      else mkKeyValue keyPart (stripSurroundingQuotes valPart) false
  end.

Definition parseKeyAndType := Parser1.parseKeyAndType.
Definition parseInlineList := Parser1.parseInlineList.
Definition dedent := Parser1.dedent.
Definition parseMultiline := Parser1.parseMultiline.

(** The [for] loop of [parseInlineBlock] over the comma-separated parts. *)
Fixpoint inlineBlockLoop (parts : list string) (block : Entries) : Entries :=
  match parts with
  | [] => block
  | part :: parts' =>
      let trimmed := trim part in
      if isEmpty trimmed then inlineBlockLoop parts' block
      else
        let kv := splitKeyValue trimmed in
        let '(key, _) := parseKeyAndType (keyPart kv) in
        inlineBlockLoop parts' (objSet block key (Scalar (valPart kv)))
  end.

Definition parseInlineBlock (s : string) : Value :=
  let content := trim (slice (trim s) 1 (-1)) in
  if isEmpty content then Block []
  else Block (inlineBlockLoop (split "," content) []).

(** [parseInlineList(content).map(String)]: the items are strings already;
    any other value would be rendered by its [toString]. *)
Fixpoint toStringJS (v : Value) : string :=
  match v with
  | Scalar s => s
  | List items => join "," (map toStringJS items)
  | _ => "[object Object]"
  end.

Definition parseUseDirective (line : string) : result Node :=
  let content := trim (sliceFrom (trim line) 4) in
  if startsWith content "[" then
    let namespaces :=
      match parseInlineList content with
      | List items => map toStringJS items
      | _ => []
      end in
    Ok (mkNode "_use" (Some "directive") (UseDirective namespaces))
  else Throw useMessage.

Section Dispatch.

Variable lines : list string.
Variables parseBlock_rec parseList_rec : nat -> result (Value * nat).

Definition parseValue (startIndex : nat) (valPart : string)
    (typeAnnotation : option string) : result (Value * nat) :=
  if startsWith valPart "```" then
    Ok (parseMultiline lines (startIndex + 1) typeAnnotation)
  else if valPart =? "{" then parseBlock_rec (startIndex + 1)
  else if valPart =? "[" then parseList_rec (startIndex + 1)
  else if startsWith valPart "[" && endsWith valPart "]" then
    Ok (parseInlineList valPart, startIndex + 1)
  else if startsWith valPart "{" && includes valPart "}" then
    Ok (parseInlineBlock valPart, startIndex + 1)
  else Ok (Scalar valPart, startIndex + 1).

Definition parseLine (startIndex : nat) : result (Node * nat) :=
  let line := nth startIndex lines "" in
  let kv := splitKeyValue line in
  let '(key, typeAnnotation) := parseKeyAndType (keyPart kv) in
  if match typeAnnotation with Some t => t =? "quoted" | None => false end then
    let quotedVal := valPart kv in
    let quotedVal :=
      if negb (startsWith quotedVal DQ) || negb (endsWith quotedVal DQ)
      then DQ ++ quotedVal ++ DQ else quotedVal in
    Ok (mkNode key (Some "string") (Scalar quotedVal), startIndex + 1)
  else
    let* (value, nextIndex) := parseValue startIndex (valPart kv) typeAnnotation in
    Ok (mkNode key typeAnnotation value, nextIndex).

End Dispatch.

Fixpoint blockLoop (fuel : nat) (lines : list string) (i : nat) (block : Entries)
  {struct fuel} : result (Value * nat) :=
  match fuel with
  | O => OutOfFuel
  | S f =>
      if (i <? List.length lines)%nat then
        let line := nth i lines "" in
        if isEmpty line then Ok (Block block, i)
        else
          let trimmed := trim line in
          if trimmed =? "}" then Ok (Block block, i + 1)
          else if isEmpty trimmed || startsWith trimmed "#" then
            blockLoop f lines (i + 1) block
          else
            let* (node, nextIndex) :=
              parseLine lines (fun j => blockLoop f lines j [])
                              (fun j => listLoop f lines j []) i in
            blockLoop f lines nextIndex (objSet block (key node) (value node))
      else Ok (Block block, i)
  end
with listLoop (fuel : nat) (lines : list string) (i : nat) (list : list Value)
  {struct fuel} : result (Value * nat) :=
  match fuel with
  | O => OutOfFuel
  | S f =>
      if (i <? List.length lines)%nat then
        let line := nth i lines "" in
        if isEmpty line then Ok (List list, i)
        else
          let trimmed := trim line in
          if trimmed =? "]" then Ok (List list, i + 1)
          else if isEmpty trimmed || startsWith trimmed "#" then
            listLoop f lines (i + 1) list
          else if startsWith trimmed "[" && endsWith trimmed "]" then
            listLoop f lines (i + 1) (list ++ [parseInlineList trimmed])%list
          else if trimmed =? "{" then
            let* (value, nextIndex) := blockLoop f lines (i + 1) [] in
            listLoop f lines nextIndex (list ++ [value])%list
          else listLoop f lines (i + 1) (list ++ [Scalar trimmed])%list
      else Ok (List list, i)
  end.

Definition parseBlock (fuel : nat) (lines : list string) (startIndex : nat)
  : result (Value * nat) := blockLoop fuel lines startIndex [].

Definition parseList (fuel : nat) (lines : list string) (startIndex : nat)
  : result (Value * nat) := listLoop fuel lines startIndex [].

Definition parseLineAt (lines : list string) (i : nat) : result (Node * nat) :=
  let fuel := S (List.length lines) in
  parseLine lines (parseBlock fuel lines) (parseList fuel lines) i.

Definition parseLintDirective (lines : list string) (startIndex : nat)
  : result (Node * nat) :=
  let content := trim (sliceFrom (trim (nth startIndex lines "")) 5) in
  if content =? "{" then
    let* (value, nextIndex) :=
      parseBlock (S (List.length lines)) lines (startIndex + 1) in
    Ok (mkNode "_lint" (Some "directive") value, nextIndex)
  else Throw lintMessage.

(** One iteration of the [while] loop of [parseDocument], entered with
    [i < lines.length].  Only the generic line parser runs inside [try]. *)
Definition docStep (lines : list string) (i : nat) (nodes : list Node)
  : result (nat * list Node) :=
  let line := nth i lines "" in
  if isEmpty line then Ok (i + 1, nodes)
  else
    let trimmed := trim line in
    if isEmpty trimmed || startsWith trimmed "#" then Ok (i + 1, nodes)
    else if startsWith trimmed "!use" then
      let* node := parseUseDirective trimmed in
      Ok (i + 1, (nodes ++ [node])%list)
    else if startsWith trimmed "!lint" then
      let* (node, nextIndex) := parseLintDirective lines i in
      Ok (nextIndex, (nodes ++ [node])%list)
    else
      let* (node, nextIndex) := wrapLine (i + 1) (parseLineAt lines i) in
      Ok (nextIndex, (nodes ++ [node])%list).

Fixpoint docLoop (fuel : nat) (lines : list string) (i : nat) (nodes : list Node)
  : result Document :=
  if (i <? List.length lines)%nat then
    match fuel with
    | O => OutOfFuel
    | S f =>
        let* (i', nodes') := docStep lines i nodes in
        docLoop f lines i' nodes'
    end
  else Ok nodes.

Definition parseDocument (input : string) : result Document :=
  let lines := split "010" input in
  docLoop (List.length lines) lines 0 [].

Definition parse (input : string) : result Document := parseDocument input.

End Parser2.

(** ** [UpParser]: the parser that keeps its cursor in the instance *)

Module UpParser.

Record UpNode : Type := mkUpNode {
  key : string;
  type : string;
  value : Value
}.

(** A method reads the fixed [#lines] and updates the cursor [#lineNum]:
    a state monad over the cursor, with the results of [result]. *)
Definition M (A : Type) : Type := nat -> result (A * nat).

Definition ret {A : Type} (a : A) : M A := fun lineNum => Ok (a, lineNum).

Definition mbind {A B : Type} (m : M A) (k : A -> M B) : M B :=
  fun lineNum =>
    match m lineNum with
    | Ok (a, lineNum') => k a lineNum'
    | Throw msg => Throw msg
    | OutOfFuel => OutOfFuel
    end.

(** [this.#lineNum++] *)
Definition advance : M unit := fun lineNum => Ok (tt, lineNum + 1).

Definition getLineNum : M nat := fun lineNum => Ok (lineNum, lineNum).

Definition outOfFuel {A : Type} : M A := fun _ => OutOfFuel.

Notation "x <- m ;; k" := (mbind m (fun x => k))
  (at level 61, m at next level, right associativity).
Notation "m ;;; k" := (mbind m (fun _ => k))
  (at level 61, right associativity).

(** [re.test(s)] for the pattern of one or more decimal digits, anchored at
    both ends. *)
Definition allDigits (s : string) : bool :=
  negb (isEmpty s) && negb (existsChar (fun c => negb (isDigit c)) s).

Definition dedent (text : string) (count : Z) : string :=
  join LF
    (map (fun line => if (count <=? Z.of_nat (String.length line))%Z
                      then substringFrom line count else line)
         (split "010" text)).

(** [parseInlineList] returns the items as strings. *)
Definition parseInlineList (line : string) : list string :=
  let content := trim (substringJS line 1 (lastIndexOf line "]")) in
  if content =? "" then []
  else map trim (split "," content).

Definition scalars (items : list string) : Value := List (map Scalar items).

Section Cursor.

Variable lines : list string.

(** The [while] loop of [parseMultiline]; it advances one line per turn, so
    it is written over the lines that remain. *)
Fixpoint multilineLoop (rest : list string) (content : list string)
  : M (list string) :=
  match rest with
  | [] => ret content
  | line :: rest' =>
      if trim line =? "```" then advance ;;; ret content
      else advance ;;; multilineLoop rest' (content ++ [line])%list
  end.

Definition parseMultiline (firstLine : string) (typeAnnotation : string)
  : M Value :=
  lineNum <- getLineNum ;;
  content <- multilineLoop (skipn lineNum lines) [] ;;
  let text := join LF content in
  if negb (isEmpty typeAnnotation) && allDigits typeAnnotation then
    match parseInt typeAnnotation with
    | Some dedentCount => ret (Scalar (dedent text dedentCount))
    | None => ret (Scalar text)
    end
  else ret (Scalar text).

(** The loop of [parseBlockOfLists].  A line that is neither blank, a
    comment, the closing brace nor a bracketed row leaves the cursor where it
    is: the loop then never ends, and the budget runs out. *)
Fixpoint blockOfListsLoop (fuel : nat) (rows : list (list string))
  : M (list (list string)) :=
  match fuel with
  | O => outOfFuel
  | S f =>
      lineNum <- getLineNum ;;
      if (lineNum <? List.length lines)%nat then
        let trimmed := trim (nth lineNum lines "") in
        if trimmed =? "}" then advance ;;; ret rows
        else if (trimmed =? "") || startsWith trimmed "#" then
          advance ;;; blockOfListsLoop f rows
        else if startsWith trimmed "[" then
          advance ;;; blockOfListsLoop f (rows ++ [parseInlineList trimmed])%list
        else blockOfListsLoop f rows
      else ret rows
  end.

Definition parseBlockOfLists (fuel : nat) : M (list (list string)) :=
  blockOfListsLoop fuel [].

(** The loop of [parseTable], over the two optional fields of the table. *)
Fixpoint tableLoop (fuel : nat) (columns : option (list string))
    (rows : option (list (list string))) : M Value :=
  match fuel with
  | O => outOfFuel
  | S f =>
      lineNum <- getLineNum ;;
      if (lineNum <? List.length lines)%nat then
        let trimmed := trim (nth lineNum lines "") in
        if trimmed =? "}" then advance ;;; ret (Table columns rows)
        else if (trimmed =? "") || startsWith trimmed "#" then
          advance ;;; tableLoop f columns rows
        else if startsWith trimmed "columns" then
          let listPart := trim (substringFrom trimmed 7) in
          advance ;;; tableLoop f (Some (parseInlineList listPart)) rows
        else if startsWith trimmed "rows" then
          advance ;;;
          (rows' <- parseBlockOfLists f ;;
           tableLoop f columns (Some rows'))
        else tableLoop f columns rows
      else ret (Table columns rows)
  end.

Definition parseTable (fuel : nat) : M Value := tableLoop fuel None None.

(** [for (const node of nodes) block[node.key] = node.value] *)
Definition blockOfNodes (nodes : list UpNode) : Value :=
  Block (fold_left (fun block node => objSet block (key node) (value node)) nodes []).

Section Dispatch.

(** The recursive calls [this.#parseBlock()] and [this.#parseList()], and the
    budget left for a table. *)
Variables parseBlock_rec parseList_rec : M Value.
Variable fuel : nat.

Definition parseValue (valuePart : string) (type : string) : M Value :=
  if startsWith valuePart "```" then parseMultiline valuePart type
  else if valuePart =? "{" then parseBlock_rec
  else if valuePart =? "[" then parseList_rec
  else if (type =? "table") && startsWith valuePart "{" then parseTable fuel
  else ret (Scalar valuePart).

Definition parseLine (line : string) : M UpNode :=
  let trimmed := trim line in
  let firstSpace := findIndex isSpace trimmed in
  let '(keyPart, valuePart) :=
    if (firstSpace =? -1)%Z then (trimmed, "")
    else (substringJS trimmed 0 firstSpace, trim (substringFrom trimmed firstSpace)) in
  let bangIndex := indexOf keyPart "!" in
  let '(key, type) :=
    if negb (bangIndex =? -1)%Z
    then (substringJS keyPart 0 bangIndex, substringFrom keyPart (bangIndex + 1))
    else (keyPart, "") in
  advance ;;;
  (value <- parseValue valuePart type ;;
   ret (mkUpNode key type value)).

End Dispatch.

(** The loops of [parseNodes] and [parseList]; [parseBlock] is
    [parseNodes('}')] followed by the assignments into a fresh object. *)
Fixpoint nodesLoop (fuel : nat) (endDelimiter : option string)
    (nodes : list UpNode) {struct fuel} : M (list UpNode) :=
  match fuel with
  | O => outOfFuel
  | S f =>
      lineNum <- getLineNum ;;
      if (lineNum <? List.length lines)%nat then
        let line := nth lineNum lines "" in
        let trimmed := trim line in
        if match endDelimiter with
           | Some d => negb (isEmpty d) && (trimmed =? d)
           | None => false
           end
        then advance ;;; ret nodes
        else if (trimmed =? "") || startsWith trimmed "#" then
          advance ;;; nodesLoop f endDelimiter nodes
        else
          node <- parseLine
                    (ns <- nodesLoop f (Some "}") [] ;; ret (blockOfNodes ns))
                    (listLoop f []) f line ;;
          nodesLoop f endDelimiter (nodes ++ [node])%list
      else ret nodes
  end
with listLoop (fuel : nat) (list : list Value) {struct fuel} : M Value :=
  match fuel with
  | O => outOfFuel
  | S f =>
      lineNum <- getLineNum ;;
      if (lineNum <? List.length lines)%nat then
        let trimmed := trim (nth lineNum lines "") in
        if trimmed =? "]" then advance ;;; ret (List list)
        else if (trimmed =? "") || startsWith trimmed "#" then
          advance ;;; listLoop f list
        else if trimmed =? "{" then
          advance ;;;
          (ns <- nodesLoop f (Some "}") [] ;;
           listLoop f (list ++ [blockOfNodes ns])%list)
        else if startsWith trimmed "[" then
          let inlineList := parseInlineList trimmed in
          advance ;;; listLoop f (list ++ [scalars inlineList])%list
        else advance ;;; listLoop f (list ++ [Scalar trimmed])%list
      else ret (List list)
  end.

Definition parseNodes (fuel : nat) (endDelimiter : option string)
  : M (list UpNode) := nodesLoop fuel endDelimiter [].

Definition parseBlock (fuel : nat) : M Value :=
  nodes <- parseNodes fuel (Some "}") ;; ret (blockOfNodes nodes).

Definition parseList (fuel : nat) : M Value := listLoop fuel [].

End Cursor.

(** [parse]: the lines are split at LF with an optional CR before it, the
    cursor starts at 0, and the nodes of [parseNodes()] are returned. *)
Definition parse (input : string) : result (list UpNode) :=
  let lines := splitLines input in
  match parseNodes lines (S (List.length lines)) None 0 with
  | Ok (nodes, _) => Ok nodes
  | Throw msg => Throw msg
  | OutOfFuel => OutOfFuel
  end.

End UpParser.

(** * Vocabulary of the statements *)

(** What a call of a loop must deliver for the caller to go on: a value and
    an index within [lo .. len]. *)
Definition delivers {A : Type} (r : result (A * nat)) (lo len : nat) : Prop :=
  exists a n, r = Ok (a, n) /\ lo <= n <= len.

(** [content] of [parseUseDirective]: the text after the first four
    characters of the trimmed line, trimmed. *)
Definition useArgument (line : string) : string :=
  trim (sliceFrom (trim line) 4).

Definition isUseLine (lines : list string) (i : nat) : Prop :=
  startsWith (trim (nth i lines "")) "!use" = true.

Definition badUseLine (lines : list string) (i : nat) : Prop :=
  isUseLine lines i /\ startsWith (useArgument (nth i lines "")) "[" = false.

(** The driver goes from one cursor position and node array to the next by
    successful iterations. *)
Inductive steps (lines : list string)
  : nat -> list Parser2.Node -> nat -> list Parser2.Node -> Prop :=
| steps_refl i nodes : steps lines i nodes i nodes
| steps_cons i nodes i' nodes' j nodesj :
    i < List.length lines ->
    Parser2.docStep lines i nodes = Ok (i', nodes') ->
    steps lines i' nodes' j nodesj ->
    steps lines i nodes j nodesj.

(** Line [i] is a top-level line: the driver's loop is entered with the
    cursor on it. *)
Definition topLevel (lines : list string) (i : nat) : Prop :=
  i < List.length lines /\ exists nodes, steps lines 0 [] i nodes.


(** The remainder is wrapped in a pair of double quotes: it has one at each
    end, so at least two characters. *)
Definition wrappedInQuotes (s : string) : bool :=
  (2 <=? String.length s)%nat && startsWith s DQ && endsWith s DQ.

Definition commaFree (x : string) : Prop := existsChar (Ascii.eqb ",") x = false.

(** An item of an inline list as written on the line: no comma and no line
    terminator in it. *)
Definition listItem (x : string) : Prop :=
  commaFree x /\ existsChar isLineTerminator x = false.

(** A key token for a plain header: not empty, free of white space, not a
    comment, and without type annotation. *)
Definition plainKey (key : string) : Prop :=
  isEmpty key = false
  /\ existsChar isSpace key = false
  /\ startsWith key "#" = false
  /\ existsChar (Ascii.eqb "!") key = false.

Definition noLineTerminator (s : string) : Prop :=
  existsChar isLineTerminator s = false.

Definition notFence (line : string) : Prop := (trim line =? "```") = false.

(** ** Vocabulary of the further properties *)

(** A key token as the header pattern reads it: not empty, free of white
    space, and not the start of a comment. *)
Definition keyToken (t : string) : bool :=
  negb (isEmpty t) && negb (existsChar isSpace t) && negb (startsWith t "#").

Definition headNonSpace (v : string) : bool :=
  match v with
  | "" => false
  | String c _ => negb (isSpace c)
  end.

(** A value remainder that [Parser1.parseValue] takes as a scalar: it starts
    with a visible character, has no line terminator, and is none of the
    structural openers. *)
Definition scalarText (v : string) : bool :=
  headNonSpace v
  && negb (existsChar isLineTerminator v)
  && negb (startsWith v "```")
  && negb (v =? "{")
  && negb (v =? "[")
  && negb (startsWith v "[" && endsWith v "]").

(** The node of a header with key token [tok] and value [value]. *)
Definition nodeOf (tok : string) (value : Value) : Parser1.Node :=
  let '(key, ty) := Parser1.parseKeyAndType tok in Parser1.mkNode key ty value.

(** A line of a block body: an entry written at the start of the line (key
    token, space, scalar text), an indented line, or a line the block loop
    passes over (white space only, or a comment). *)
Inductive BlockLine : Type :=
| Entry (tok v : string)
| Indented (text : string)
| Ignored (text : string).

Definition renderBlockLine (l : BlockLine) : string :=
  match l with
  | Entry tok v => tok ++ String " " v
  | Indented text => text
  | Ignored text => text
  end.

(** A line that starts with white space and holds more than white space and
    a comment; [mark] is the closing mark of the enclosing loop. *)
Definition indentedText (mark : string) (text : string) : bool :=
  match text with
  | "" => false
  | String c _ => isSpace c
  end
  && negb (isEmpty (trim text) || startsWith (trim text) "#")
  && negb (trim text =? mark).

(** A line that is not empty and trims to nothing or to a comment. *)
Definition passedOver (text : string) : bool :=
  negb (isEmpty text) && (isEmpty (trim text) || startsWith (trim text) "#").

Definition blockLineOk (l : BlockLine) : bool :=
  match l with
  | Entry tok v => keyToken tok && scalarText v
  | Indented text => indentedText "}" text
  | Ignored text => passedOver text
  end.

(** The assignment a body line makes.  The header pattern needs a visible
    first character: an indented line is taken whole, trimmed, as the key
    token, and its value is the empty scalar. *)
Definition assignLine (block : Entries) (l : BlockLine) : Entries :=
  match l with
  | Entry tok v => objSet block (fst (Parser1.parseKeyAndType tok)) (Scalar v)
  | Indented text =>
      objSet block (fst (Parser1.parseKeyAndType (trim text))) (Scalar "")
  | Ignored _ => block
  end.

(** What may follow a body: nothing (the input ends), or a line that trims to
    the closing mark. *)
Definition closes (mark : string) (tail : list string) : Prop :=
  match tail with
  | [] => True
  | c :: _ => trim c = mark
  end.

Definition closerWidth (tail : list string) : nat :=
  match tail with [] => 0 | _ :: _ => 1 end.

Definition endOfInput (mark : string) (tail : list string) : Prop :=
  tail = [] \/ exists c, tail = [c] /\ trim c = mark.

(** A line of a list body: a scalar item, a bracketed row, or a line the
    list loop passes over. *)
Inductive ListLine : Type :=
| Item (text : string)
| Row (text : string)
| Skipped (text : string).

Definition renderListLine (l : ListLine) : string :=
  match l with
  | Item text => text
  | Row text => text
  | Skipped text => text
  end.

Definition listLineOk (l : ListLine) : bool :=
  match l with
  | Item text =>
      let t := trim text in
      negb (isEmpty t) && negb (startsWith t "#") && negb (t =? "]")
      && negb (startsWith t "[" && endsWith t "]") && negb (t =? "{")
  | Row text =>
      let t := trim text in startsWith t "[" && endsWith t "]"
  | Skipped text => passedOver text
  end.

(** The elements a list line contributes. *)
Definition listLineValues (l : ListLine) : list Value :=
  match l with
  | Item text => [Scalar (trim text)]
  | Row text => [Parser1.parseInlineList (trim text)]
  | Skipped _ => []
  end.

(** A line of a multiline body as [Parser1] keeps it: not empty and not the
    closing fence. *)
Definition textLine (line : string) : bool :=
  negb (isEmpty line) && negb (trim line =? "```").

(** A line the document driver passes over: it trims to nothing (an empty
    line does) or to a comment. *)
Definition topSkipped (line : string) : bool :=
  isEmpty (trim line) || startsWith (trim line) "#".

(** The key token selects the line-oriented form. *)
Definition lineOrientedToken (tok : string) : bool :=
  endsWith tok ":" && negb (includes tok "://").

(** A key token of [Parser2] in the traditional form: a key token that does
    not start with an exclamation mark (so the line is no directive) and
    does not select the line-oriented form. *)
Definition traditionalToken (tok : string) : bool :=
  keyToken tok && negb (startsWith tok "!") && negb (lineOrientedToken tok).

(** A value that [Parser2.parseValue] takes as a scalar. *)
Definition scalarValue (w : string) : bool :=
  negb (startsWith w "```")
  && negb (w =? "{")
  && negb (w =? "[")
  && negb (startsWith w "[" && endsWith w "]")
  && negb (startsWith w "{" && includes w "}").

Definition isQuotedType (ty : option string) : bool :=
  match ty with Some t => t =? "quoted" | None => false end.

Definition nodeOf2 (tok : string) (value : Value) : Parser2.Node :=
  let '(key, ty) := Parser2.parseKeyAndType tok in Parser2.mkNode key ty value.

(** A malformed [!lint] line. *)
Definition badLintLine (lines : list string) (i : nat) : Prop :=
  startsWith (trim (nth i lines "")) "!use" = false
  /\ startsWith (trim (nth i lines "")) "!lint" = true
  /\ (trim (sliceFrom (trim (nth i lines "")) 5) =? "{") = false.

(** The namespaces written between the brackets of a [!use] line. *)
Definition namespacesOf (content : string) : list string :=
  if isEmpty (trim content) then [] else map trim (split "," content).

(** The text without its first [n] characters. *)
Fixpoint dropChars (n : nat) (s : string) : string :=
  match n, s with
  | O, _ => s
  | S n', String _ r => dropChars n' r
  | S _, "" => ""
  end.

(** What dedenting by [amount] does to one line: a line at least [amount]
    long loses its first [amount] characters, whatever they are; a shorter
    line stays; for a negative [amount] only the last [-amount] characters
    stay. *)
Definition dedentLine (amount : Z) (line : string) : string :=
  if (amount <? 0)%Z
  then dropChars (String.length line - Z.to_nat (- amount)) line
  else if (Z.to_nat amount <=? String.length line)%nat
       then dropChars (Z.to_nat amount) line
       else line.

(** An item of an inline list as the parser returns it. *)
Definition trimmedItem (t : string) : Prop := trim t = t /\ commaFree t.

(** A key name: a key token without exclamation mark. *)
Definition plainName (name : string) : bool :=
  keyToken name && negb (existsChar (Ascii.eqb "!") name).

Definition allSpace (s : string) : bool :=
  negb (existsChar (fun c => negb (isSpace c)) s).

(** The key token of a name and an optional type annotation. *)
Definition upHeader (name : string) (ty : option string) : string :=
  match ty with
  | Some t => name ++ String "!" t
  | None => name
  end.

(** The [type] field of a node of [UpParser]: the empty string stands for no
    annotation. *)
Definition upType (ty : option string) : string :=
  match ty with Some t => t | None => "" end.

Definition typeText (ty : option string) : bool :=
  negb (existsChar isSpace (upType ty)).

(** A value part that [UpParser.parseValue] takes as a scalar under the
    type [ty]. *)
Definition upScalarValue (ty : string) (w : string) : bool :=
  negb (startsWith w "```")
  && negb (w =? "{")
  && negb (w =? "[")
  && negb ((ty =? "table") && startsWith w "{").

(** A line of a flat document of [UpParser]: an entry, written with any
    indentation and with any white space after the space that follows the
    key token, or a line that trims to nothing or to a comment. *)
Inductive UpLine : Type :=
| UpEntry (indent name : string) (ty : option string) (gap v : string)
| UpBlank (text : string).

Definition renderUpLine (l : UpLine) : string :=
  match l with
  | UpEntry indent name ty gap v =>
      indent ++ upHeader name ty ++ String " " (gap ++ v)
  | UpBlank text => text
  end.

Definition upLineOk (l : UpLine) : bool :=
  match l with
  | UpEntry indent name ty gap v =>
      allSpace indent && plainName name && typeText ty && allSpace gap
      && headNonSpace v && upScalarValue (upType ty) (trim v)
  | UpBlank text => (trim text =? "") || startsWith (trim text) "#"
  end.

Definition upLineNodes (l : UpLine) : list UpParser.UpNode :=
  match l with
  | UpEntry _ name ty _ v =>
      [UpParser.mkUpNode name (upType ty) (Scalar (trim v))]
  | UpBlank _ => []
  end.

(** The end delimiter of [parseNodes]: the closing brace inside a block,
    none at top level. *)
Definition delimiterOf (inBlock : bool) : option string :=
  if inBlock then Some "}" else None.

(** What may follow the lines of [parseNodes]: nothing, or, inside a block,
    a line that trims to the closing brace. *)
Definition upCloses (inBlock : bool) (tail : list string) : Prop :=
  match tail with
  | [] => True
  | c :: _ => inBlock = true /\ trim c = "}"
  end.

(** A line of a multiline body as [UpParser] keeps it: any line, empty or
    not, that does not trim to the closing fence. *)
Definition upTextLine (line : string) : bool := negb (trim line =? "```").

(** A line on which the loop of [parseTable] does not move: not the closing
    brace, not blank, not a comment, and neither a [columns] nor a [rows]
    line. *)
Definition stuckTableLine (line : string) : bool :=
  let t := trim line in
  negb (t =? "}") && negb ((t =? "") || startsWith t "#")
  && negb (startsWith t "columns") && negb (startsWith t "rows").

(** A line on which the loop of [parseBlockOfLists] does not move: not the
    closing brace, not blank, not a comment, and not a bracketed row. *)
Definition stuckRowLine (line : string) : bool :=
  let t := trim line in
  negb (t =? "}") && negb ((t =? "") || startsWith t "#")
  && negb (startsWith t "[").

(** A header remainder that sends a header of type [table] to
    [parseTable]: it starts with an opening brace and is more than it. *)
Definition tableOpener (v : string) : bool :=
  headNonSpace v && startsWith (trim v) "{" && negb (trim v =? "{").

(** A line that starts the rows of a table. *)
Definition rowsLine (line : string) : bool :=
  let t := trim line in
  negb (t =? "}") && negb ((t =? "") || startsWith t "#")
  && negb (startsWith t "columns") && startsWith t "rows".

(** A document written line by line: the first line, then each further
    line with the ending that precedes it ([true] for CR LF, [false] for
    LF). *)
Fixpoint renderLines (first : string) (rest : list (bool * string)) : string :=
  match rest with
  | [] => first
  | (crlf, line) :: rest' =>
      first ++ (if crlf then CR ++ LF else LF) ++ renderLines line rest'
  end.

Fixpoint mapLast (f : string -> string) (l : list string) : list string :=
  match l with
  | [] => []
  | [x] => [f x]
  | x :: r => x :: mapLast f r
  end.

(** A line of a flat document at top level, where the driver also passes
    over empty lines. *)
Definition topLineOk (l : BlockLine) : bool :=
  match l with
  | Entry tok v => keyToken tok && scalarText v
  | Indented text => indentedText "" text
  | Ignored text => topSkipped text
  end.

(** The node a top-level line gives. *)
Definition topLineNodes (l : BlockLine) : list Parser1.Node :=
  match l with
  | Entry tok v => [nodeOf tok (Scalar v)]
  | Indented text => [nodeOf (trim text) (Scalar "")]
  | Ignored _ => []
  end.

(** An entry of an inline block as written between two commas: white space,
    a key token, a space and the text of the value. *)
Record InlineEntry : Type := mkInlineEntry {
  lead : string;
  token : string;
  text : string
}.

Definition renderInlineEntry (e : InlineEntry) : string :=
  lead e ++ token e ++ String " " (text e).

Definition inlineEntryOk (e : InlineEntry) : bool :=
  allSpace (lead e)
  && keyToken (token e) && negb (lineOrientedToken (token e))
  && headNonSpace (text e)
  && negb (existsChar isLineTerminator (text e))
  && negb (existsChar (Ascii.eqb ",") (renderInlineEntry e)).

(** The assignment an entry of an inline block makes: the key of its token
    (the type annotation is dropped) gets the trimmed text, without one
    surrounding pair of double quotes, as a scalar. *)
Definition assignInline (block : Entries) (e : InlineEntry) : Entries :=
  objSet block (fst (Parser2.parseKeyAndType (token e)))
    (Scalar (Parser2.stripSurroundingQuotes (trim (text e)))).

(** The lines of a block body as [Parser2] reads them: an entry in the
    traditional form with a scalar value, an indented line, or a line that
    is passed over. *)
Definition blockLineOk2 (l : BlockLine) : bool :=
  match l with
  | Entry tok v =>
      keyToken tok && negb (lineOrientedToken tok)
      && negb (isQuotedType (snd (Parser2.parseKeyAndType tok)))
      && headNonSpace v && negb (existsChar isLineTerminator v)
      && scalarValue (Parser2.stripSurroundingQuotes v)
  | Indented text =>
      indentedText "}" text
      && negb (isQuotedType (snd (Parser2.parseKeyAndType (trim text))))
  | Ignored text => passedOver text
  end.

Definition assignLine2 (block : Entries) (l : BlockLine) : Entries :=
  match l with
  | Entry tok v =>
      objSet block (fst (Parser2.parseKeyAndType tok))
        (Scalar (Parser2.stripSurroundingQuotes v))
  | Indented text =>
      objSet block (fst (Parser2.parseKeyAndType (trim text))) (Scalar "")
  | Ignored _ => block
  end.

(** A well-formed [!lint] line. *)
Definition lintHeader (line : string) : bool :=
  startsWith (trim line) "!lint" && (trim (sliceFrom (trim line) 5) =? "{").

(** The lines of a list body as [UpParser] reads them: a row is any line
    whose trimmed text starts with an opening bracket. *)
Definition upListLineOk (l : ListLine) : bool :=
  match l with
  | Item text =>
      let t := trim text in
      negb (t =? "]") && negb ((t =? "") || startsWith t "#")
      && negb (t =? "{") && negb (startsWith t "[")
  | Row text => startsWith (trim text) "["
  | Skipped text => (trim text =? "") || startsWith (trim text) "#"
  end.

Definition upListLineValues (l : ListLine) : list Value :=
  match l with
  | Item text => [Scalar (trim text)]
  | Row text => [UpParser.scalars (UpParser.parseInlineList (trim text))]
  | Skipped _ => []
  end.

(** ** Vocabulary of the call stack and of the driver *)









(** * Properties *)

(** ** Prefixes *)

Lemma startsWith_cons (a b : ascii) (s p : string) :
  startsWith (String a s) (String b p) = Ascii.eqb a b && startsWith s p.
Proof. reflexivity. Qed.

Lemma startsWith_use_shape (t : string) :
  startsWith t "!use" = true ->
  isEmpty t = false /\ startsWith t "#" = false /\ startsWith t "!lint" = false.
Proof.
  destruct t as [|a t]; [discriminate|]. rewrite startsWith_cons.
  destruct (Ascii.eqb_spec a "!") as [->|]; [|discriminate].
  destruct t as [|b t]; [discriminate|]. rewrite startsWith_cons.
  destruct (Ascii.eqb_spec b "u") as [->|]; [|discriminate].
  intros _. repeat split.
Qed.

(** ** Trimming *)

Lemma trimEnd_idempotent (s : string) : trimEnd (trimEnd s) = trimEnd s.
Proof.
  induction s as [|c r IH]; simpl; [reflexivity|].
  destruct (isSpace c && isEmpty (trimEnd r)) eqn:E; simpl; [reflexivity|].
  rewrite IH, E. reflexivity.
Qed.

Lemma trimStart_fixed (s : string) :
  match s with "" => True | String c _ => isSpace c = false end ->
  trimStart s = s.
Proof.
  unfold trimStart. destruct s as [|c r]; simpl; [reflexivity | intros ->; reflexivity].
Qed.

Lemma trimStart_head (s : string) :
  match trimStart s with "" => True | String c _ => isSpace c = false end.
Proof.
  unfold trimStart. induction s as [|c r IH]; simpl; [exact I|].
  destruct (isSpace c) eqn:E; [exact IH | exact E].
Qed.

Lemma trimEnd_head (s : string) :
  match s with "" => True | String c _ => isSpace c = false end ->
  match trimEnd s with "" => True | String c _ => isSpace c = false end.
Proof.
  destruct s as [|c r]; simpl; [trivial|]. intros E. rewrite E. simpl. exact E.
Qed.

Lemma trim_idempotent (s : string) : trim (trim s) = trim s.
Proof.
  unfold trim.
  rewrite (trimStart_fixed (trimEnd (trimStart s))).
  - apply trimEnd_idempotent.
  - apply trimEnd_head, trimStart_head.
Qed.

Lemma trimStart_idempotent (s : string) : trimStart (trimStart s) = trimStart s.
Proof. apply trimStart_fixed, trimStart_head. Qed.

Lemma trim_empty_line (line : string) :
  isEmpty (trim line) = false -> isEmpty line = false.
Proof. destruct line; [discriminate | reflexivity]. Qed.

(** A string trims to nothing exactly when it has no character other than
    white space. *)
Lemma isEmpty_trimEnd (s : string) :
  isEmpty (trimEnd s) = negb (existsChar (fun c => negb (isSpace c)) s).
Proof.
  induction s as [|c s IH]; simpl; [reflexivity|].
  destruct (isSpace c) eqn:Hc; simpl; [|reflexivity].
  rewrite <- IH. destruct (isEmpty (trimEnd s)); reflexivity.
Qed.

Lemma isEmpty_trim (s : string) :
  isEmpty (trim s) = negb (existsChar (fun c => negb (isSpace c)) s).
Proof.
  unfold trim, trimStart. rewrite isEmpty_trimEnd. f_equal.
  induction s as [|c s IH]; simpl; [reflexivity|].
  destruct (isSpace c) eqn:Hc; simpl; rewrite ?Hc; [exact IH | reflexivity].
Qed.

(** ** Strings built by concatenation *)

Lemma length_app (a b : string) :
  String.length (a ++ b) = String.length a + String.length b.
Proof. induction a as [|c a IH]; simpl; [reflexivity | rewrite IH; reflexivity]. Qed.

Lemma append_snoc (u w : string) (a : ascii) :
  u ++ String a w = (u ++ String a "") ++ w.
Proof. induction u as [|c u IH]; simpl; [reflexivity | rewrite IH; reflexivity]. Qed.

Lemma append_assoc (a b c : string) : (a ++ b) ++ c = a ++ (b ++ c).
Proof. induction a as [|x a IH]; simpl; [reflexivity | rewrite IH; reflexivity]. Qed.

Lemma isEmpty_snoc (u : string) (a : ascii) : isEmpty (u ++ String a "") = false.
Proof. destruct u; reflexivity. Qed.

Lemma existsChar_app (p : ascii -> bool) (a b : string) :
  existsChar p (a ++ b) = existsChar p a || existsChar p b.
Proof.
  induction a as [|c a IH]; simpl; [reflexivity|].
  rewrite IH, orb_assoc. reflexivity.
Qed.

Lemma existsChar_weaken (p q : ascii -> bool) (s : string) :
  (forall c, p c = true -> q c = true) ->
  existsChar q s = false -> existsChar p s = false.
Proof.
  intros Hpq. induction s as [|c s IH]; simpl; [trivial|].
  intros H. apply orb_false_iff in H as [Hc H]. rewrite (IH H), orb_false_r.
  destruct (p c) eqn:E; [|reflexivity]. rewrite (Hpq c E) in Hc. discriminate.
Qed.

Lemma existsChar_dropWhile (p q : ascii -> bool) (s : string) :
  existsChar p s = false -> existsChar p (dropWhile q s) = false.
Proof.
  induction s as [|c s IH]; simpl; [trivial|].
  intros H. destruct (q c); [|exact H].
  apply orb_false_iff in H as [_ H]. exact (IH H).
Qed.

Lemma lineTerminator_isSpace (c : ascii) : isLineTerminator c = true -> isSpace c = true.
Proof.
  unfold isLineTerminator, isSpace. simpl.
  destruct (c =? "010")%char; [rewrite !orb_true_r; reflexivity|].
  destruct (c =? "013")%char; [rewrite !orb_true_r; reflexivity | discriminate].
Qed.

Lemma lineFeed_isLineTerminator (c : ascii) :
  ("010" =? c)%char = true -> isLineTerminator c = true.
Proof. intros H. apply Ascii.eqb_eq in H. subst. reflexivity. Qed.

Lemma lineTerminator_cases (a : ascii) :
  isLineTerminator a = false ->
  Ascii.eqb a "010" = false /\ Ascii.eqb a "013" = false.
Proof.
  unfold isLineTerminator. simpl. rewrite orb_false_r. apply orb_false_iff.
Qed.

Lemma takeWhile_nonspace_app (u w : string) (x : ascii) :
  existsChar isSpace u = false -> isSpace x = true ->
  takeWhile (fun c => negb (isSpace c)) (u ++ String x w) = u.
Proof.
  intros Hu Hx. induction u as [|c u IH]; simpl in *.
  - rewrite Hx. reflexivity.
  - apply orb_false_iff in Hu as [Hc Hu]. rewrite Hc. simpl. f_equal. exact (IH Hu).
Qed.

Lemma dropWhile_nonspace_app (u w : string) (x : ascii) :
  existsChar isSpace u = false -> isSpace x = true ->
  dropWhile (fun c => negb (isSpace c)) (u ++ String x w) = String x w.
Proof.
  intros Hu Hx. induction u as [|c u IH]; simpl in *.
  - rewrite Hx. reflexivity.
  - apply orb_false_iff in Hu as [Hc Hu]. rewrite Hc. simpl. exact (IH Hu).
Qed.

Lemma dropWhile_space_app (v w : string) (x : ascii) :
  isSpace x = false ->
  dropWhile isSpace (v ++ String x w) = dropWhile isSpace v ++ String x w.
Proof.
  intros Hx. induction v as [|c v IH]; simpl.
  - rewrite Hx. reflexivity.
  - destruct (isSpace c); [exact IH | reflexivity].
Qed.

Lemma trimEnd_app (u w : string) (x : ascii) :
  isSpace x = false ->
  trimEnd (u ++ String x w) = u ++ String x (trimEnd w).
Proof.
  intros Hx. induction u as [|c u IH]; simpl.
  - rewrite Hx. reflexivity.
  - rewrite IH. destruct u; simpl; rewrite andb_false_r; reflexivity.
Qed.

Lemma trim_between (a b : ascii) (u : string) :
  isSpace a = false -> isSpace b = false ->
  trim (String a (u ++ String b "")) = String a (u ++ String b "").
Proof.
  intros Ha Hb. unfold trim. rewrite trimStart_fixed by exact Ha.
  change (String a (u ++ String b "")) with (String a u ++ String b "").
  rewrite trimEnd_app by exact Hb. reflexivity.
Qed.

Lemma findIndex_none (p : ascii -> bool) (s : string) :
  existsChar p s = false -> findIndex p s = (-1)%Z.
Proof.
  induction s as [|c s IH]; simpl; [reflexivity|].
  intros H. apply orb_false_iff in H as [Hc H]. rewrite Hc, (IH H). reflexivity.
Qed.

Lemma findIndex_app (p : ascii -> bool) (u w : string) (x : ascii) :
  existsChar p u = false -> p x = true ->
  findIndex p (u ++ String x w) = Z.of_nat (String.length u).
Proof.
  intros Hu Hx. induction u as [|c u IH].
  - simpl. rewrite Hx. reflexivity.
  - simpl in Hu. apply orb_false_iff in Hu as [Hc Hu].
    change (findIndex p (String c u ++ String x w))
      with (if p c then 0%Z
            else let k := findIndex p (u ++ String x w) in
                 if (k <? 0)%Z then (-1)%Z else (k + 1)%Z).
    rewrite Hc, (IH Hu). cbv zeta.
    destruct (Z.ltb_spec (Z.of_nat (String.length u)) 0); [lia|].
    change (String.length (String c u)) with (S (String.length u)). lia.
Qed.

Lemma substring_prefix (u w : string) :
  substring 0 (String.length u) (u ++ w) = u.
Proof.
  induction u as [|c u IH]; simpl.
  - destruct w; reflexivity.
  - rewrite IH. reflexivity.
Qed.

Lemma substring_whole (p : string) : substring 0 (String.length p) p = p.
Proof. induction p as [|c p IH]; simpl; [reflexivity | rewrite IH; reflexivity]. Qed.

Lemma substring_suffix (u p : string) :
  substring (String.length u) (String.length p) (u ++ p) = p.
Proof. induction u as [|c u IH]; simpl; [apply substring_whole | exact IH]. Qed.

Lemma endsWith_app (u p : string) : endsWith (u ++ p) p = true.
Proof.
  unfold endsWith. rewrite length_app.
  replace (String.length u + String.length p - String.length p)
    with (String.length u) by lia.
  rewrite substring_suffix, String.eqb_refl.
  destruct (Nat.leb_spec (String.length p) (String.length u + String.length p));
    [reflexivity | lia].
Qed.

(** [slice(0, n)] of a string that starts with the [n] characters of [u]. *)
Lemma slice_prefix (u w : string) :
  slice (u ++ w) 0 (Z.of_nat (String.length u)) = u.
Proof.
  unfold slice, relIndex. simpl (0 <? 0)%Z. cbv iota.
  destruct (Z.ltb_spec (Z.of_nat (String.length u)) 0); [lia|].
  rewrite Nat2Z.id, length_app. simpl (Z.to_nat 0).
  rewrite Nat.min_0_l, Nat.min_l, Nat.sub_0_r by lia.
  apply substring_prefix.
Qed.

(** [slice(0, -1)] drops the last character. *)
Lemma slice_drop_last (u : string) (x : ascii) :
  slice (u ++ String x "") 0 (-1) = u.
Proof.
  unfold slice, relIndex. simpl (0 <? 0)%Z. simpl (-1 <? 0)%Z. cbv iota.
  rewrite length_app. simpl String.length. simpl (Z.to_nat 0).
  rewrite Nat.min_0_l, Nat.sub_0_r.
  replace (Z.to_nat (Z.max (Z.of_nat (String.length u + 1) + -1) 0))
    with (String.length u) by lia.
  apply substring_prefix.
Qed.

(** [slice(1, -1)] drops the first and the last character. *)
Lemma slice_strip_ends (u : string) (a b : ascii) :
  slice (String a (u ++ String b "")) 1 (-1) = u.
Proof.
  unfold slice, relIndex. simpl (1 <? 0)%Z. simpl (-1 <? 0)%Z. cbv iota.
  change (String.length (String a (u ++ String b "")))
    with (S (String.length (u ++ String b ""))).
  rewrite length_app. simpl String.length.
  replace (Z.to_nat (Z.max (Z.of_nat (S (String.length u + 1)) + -1) 0))
    with (S (String.length u)) by lia.
  replace (Nat.min (Z.to_nat 1) (S (String.length u + 1))) with 1 by lia.
  simpl substring. rewrite ?Nat.sub_0_r. apply substring_prefix.
Qed.

(** ** Splitting and joining *)

Lemma split_none (c : ascii) (s : string) :
  existsChar (Ascii.eqb c) s = false -> split c s = [s].
Proof.
  induction s as [|a r IH]; simpl; [reflexivity|].
  intros H. apply orb_false_iff in H as [Ha H].
  rewrite Ascii.eqb_sym, Ha, (IH H). reflexivity.
Qed.

Lemma split_app (c : ascii) (u w : string) :
  existsChar (Ascii.eqb c) u = false ->
  split c (u ++ String c w) = u :: split c w.
Proof.
  induction u as [|a u IH]; simpl.
  - intros _. rewrite Ascii.eqb_refl. reflexivity.
  - intros H. apply orb_false_iff in H as [Ha H].
    rewrite Ascii.eqb_sym, Ha, (IH H). reflexivity.
Qed.

Lemma join_cons (sep x y : string) (r : list string) :
  join sep (x :: y :: r) = x ++ sep ++ join sep (y :: r).
Proof. reflexivity. Qed.

Lemma split_join (c : ascii) (xs : list string) :
  Forall (fun x => existsChar (Ascii.eqb c) x = false) xs ->
  xs <> [] ->
  split c (join (String c "") xs) = xs.
Proof.
  induction 1 as [|x xs Hx Hxs IH]; intros Hne; [contradiction|].
  destruct xs as [|y r].
  - simpl. apply split_none. exact Hx.
  - rewrite join_cons. simpl append. rewrite split_app by exact Hx.
    f_equal. apply IH. discriminate.
Qed.

Lemma existsChar_join (p : ascii -> bool) (c : ascii) (xs : list string) :
  p c = false ->
  Forall (fun x => existsChar p x = false) xs ->
  existsChar p (join (String c "") xs) = false.
Proof.
  intros Hc. induction 1 as [|x xs Hx Hxs IH]; [reflexivity|].
  destruct xs as [|y r]; [exact Hx|].
  rewrite join_cons, !existsChar_app, Hx, IH. simpl. rewrite Hc. reflexivity.
Qed.

Lemma splitLines_none (s : string) :
  noLineTerminator s -> splitLines s = [s].
Proof.
  unfold noLineTerminator. induction s as [|a r IH]; [reflexivity|].
  simpl existsChar. intros H. apply orb_false_iff in H as [Ha Hr].
  destruct (lineTerminator_cases a Ha) as [Hlf Hcr].
  simpl. rewrite Hlf, Hcr, (IH Hr). simpl. destruct r; reflexivity.
Qed.

Lemma splitLines_cons (a : ascii) (r : string) :
  isLineTerminator a = false -> r <> "" ->
  splitLines (String a r) =
    match splitLines r with
    | h :: t => String a h :: t
    | [] => [String a ""]
    end.
Proof.
  intros Ha Hr. destruct (lineTerminator_cases a Ha) as [Hlf Hcr].
  simpl. rewrite Hlf, Hcr. destruct r; [contradiction | reflexivity].
Qed.

Lemma splitLines_app_lf (u w : string) :
  noLineTerminator u ->
  splitLines (u ++ String "010" w) = u :: splitLines w.
Proof.
  unfold noLineTerminator. induction u as [|a u IH]; [reflexivity|].
  simpl existsChar. intros H. apply orb_false_iff in H as [Ha Hu].
  change (String a u ++ String "010" w) with (String a (u ++ String "010" w)).
  rewrite splitLines_cons; [| exact Ha | destruct u; discriminate].
  rewrite (IH Hu). reflexivity.
Qed.

Lemma splitLines_app_crlf (u w : string) :
  noLineTerminator u ->
  splitLines (u ++ String "013" (String "010" w)) = u :: splitLines w.
Proof.
  unfold noLineTerminator. induction u as [|a u IH]; [reflexivity|].
  simpl existsChar. intros H. apply orb_false_iff in H as [Ha Hu].
  change (String a u ++ String "013" (String "010" w))
    with (String a (u ++ String "013" (String "010" w))).
  rewrite splitLines_cons; [| exact Ha | destruct u; discriminate].
  rewrite (IH Hu). reflexivity.
Qed.

Lemma splitLines_join_lf (ls : list string) :
  Forall noLineTerminator ls -> ls <> [] -> splitLines (join LF ls) = ls.
Proof.
  induction 1 as [|x ls Hx Hls IH]; intros Hne; [contradiction|].
  destruct ls as [|y r].
  - apply splitLines_none. exact Hx.
  - rewrite join_cons. change (x ++ LF ++ join LF (y :: r))
      with (x ++ String "010" (join LF (y :: r))).
    rewrite splitLines_app_lf by exact Hx. f_equal. apply IH. discriminate.
Qed.

Lemma splitLines_join_crlf (ls : list string) :
  Forall noLineTerminator ls -> ls <> [] -> splitLines (join (CR ++ LF) ls) = ls.
Proof.
  induction 1 as [|x ls Hx Hls IH]; intros Hne; [contradiction|].
  destruct ls as [|y r].
  - apply splitLines_none. exact Hx.
  - rewrite join_cons. change (x ++ (CR ++ LF) ++ join (CR ++ LF) (y :: r))
      with (x ++ String "013" (String "010" (join (CR ++ LF) (y :: r)))).
    rewrite splitLines_app_crlf by exact Hx. f_equal. apply IH. discriminate.
Qed.

(** ** The header pattern *)

(** The header pattern on a line made of a key token without white space, one
    space, and a rest that starts with a non-space character. *)
Lemma matchHeader_token (key rest : string) :
  existsChar isSpace key = false ->
  isEmpty key = false ->
  existsChar isLineTerminator (dropWhile isSpace rest) = false ->
  Parser1.matchHeader (key ++ String " " rest) = Some (key, dropWhile isSpace rest).
Proof.
  intros Hk Hne Hr. unfold Parser1.matchHeader.
  rewrite takeWhile_nonspace_app, dropWhile_nonspace_app by (exact Hk || reflexivity).
  change (dropWhile isSpace (String " " rest)) with (dropWhile isSpace rest).
  rewrite Hne, Hr. reflexivity.
Qed.

(** A line terminator left in the rest of the line (the CR of a CRLF ending
    after a value) makes the header pattern fail: the whole trimmed line is
    taken as the key, with an empty value. *)
Lemma p1_splitKeyValue_terminator (key rest : string) :
  existsChar isSpace key = false ->
  existsChar isLineTerminator (dropWhile isSpace rest) = true ->
  Parser1.splitKeyValue (key ++ String " " rest) = (trim (key ++ String " " rest), "").
Proof.
  intros Hk Hr. unfold Parser1.splitKeyValue, Parser1.matchHeader.
  rewrite takeWhile_nonspace_app, dropWhile_nonspace_app by (exact Hk || reflexivity).
  change (dropWhile isSpace (String " " rest)) with (dropWhile isSpace rest).
  rewrite Hr, orb_true_r. reflexivity.
Qed.

(** ** Assignments into a block object *)

Lemma defineOwn_keys_existing (k : string) (v : Value) (o : Entries) :
  In k (ownKeys o) -> ownKeys (defineOwn k v o) = ownKeys o.
Proof.
  induction o as [|[k' v'] o IH]; simpl; [tauto|].
  destruct (String.eqb_spec k' k) as [->|Hne]; simpl; [reflexivity|].
  intros [H|H]; [congruence | rewrite (IH H); reflexivity].
Qed.

Lemma defineOwn_keys_fresh (k : string) (v : Value) (o : Entries) :
  ~ In k (ownKeys o) -> defineOwn k v o = (o ++ [(k, v)])%list.
Proof.
  induction o as [|[k' v'] o IH]; simpl; [reflexivity|].
  intros H. destruct (String.eqb_spec k' k) as [->|Hne]; [tauto|].
  rewrite IH; [reflexivity | tauto].
Qed.

Lemma defineOwn_get (k : string) (v : Value) (o : Entries) :
  objGet (defineOwn k v o) k = Some v.
Proof.
  induction o as [|[k' v'] o IH]; simpl.
  - rewrite String.eqb_refl. reflexivity.
  - destruct (k' =? k) eqn:E; simpl; rewrite E; [reflexivity | exact IH].
Qed.

Lemma defineOwn_NoDup (k : string) (v : Value) (o : Entries) :
  NoDup (ownKeys o) -> NoDup (ownKeys (defineOwn k v o)).
Proof.
  intros H. destruct (in_dec string_dec k (ownKeys o)) as [Hin|Hout].
  - rewrite defineOwn_keys_existing; assumption.
  - rewrite defineOwn_keys_fresh by assumption.
    unfold ownKeys. rewrite map_app. simpl.
    apply NoDup_app; [exact H | repeat constructor; simpl; tauto |].
    intros x Hx [<-|[]]. exact (Hout Hx).
Qed.

(** For every key but [__proto__], assigning to a key the block already has
    keeps the keys and their order and replaces the value; assigning to a new
    key adds it at the end. *)
Lemma objSet_overwrites_in_place (o : Entries) (k : string) (v : Value) :
  k <> "__proto__" ->
  objGet (objSet o k v) k = Some v
  /\ (In k (ownKeys o) -> ownKeys (objSet o k v) = ownKeys o)
  /\ (~ In k (ownKeys o) -> objSet o k v = (o ++ [(k, v)])%list).
Proof.
  intros Hk. unfold objSet.
  destruct (String.eqb_spec k "__proto__") as [->|_]; [contradiction|].
  split; [apply defineOwn_get | split].
  - apply defineOwn_keys_existing.
  - apply defineOwn_keys_fresh.
Qed.

(** An assignment never moves an entry: the keys so far stay in front. *)
Lemma objSet_keys_extend (o : Entries) (k : string) (v : Value) :
  exists added, ownKeys (objSet o k v) = (ownKeys o ++ added)%list.
Proof.
  unfold objSet. destruct (k =? "__proto__").
  - exists []. rewrite app_nil_r. reflexivity.
  - destruct (in_dec string_dec k (ownKeys o)) as [Hin|Hout].
    + exists []. rewrite app_nil_r. apply defineOwn_keys_existing. exact Hin.
    + exists [k]. rewrite defineOwn_keys_fresh by exact Hout.
      unfold ownKeys. rewrite map_app. reflexivity.
Qed.

Lemma objSet_NoDup (o : Entries) (k : string) (v : Value) :
  NoDup (ownKeys o) -> NoDup (ownKeys (objSet o k v)).
Proof.
  unfold objSet. destruct (k =? "__proto__"); [trivial | apply defineOwn_NoDup].
Qed.

(** ** The loops consume lines: bounds on the returned index *)

Lemma multilineLoop_bounds (rest : list string) :
  forall i content content' n,
    Parser1.multilineLoop rest i content = (content', n) ->
    i <= n <= i + List.length rest.
Proof.
  induction rest as [|line rest IH]; intros i content content' n H; simpl in H.
  - inversion H; subst; simpl; lia.
  - destruct (isEmpty line).
    + inversion H; subst; simpl; lia.
    + destruct (trim line =? "```").
      * inversion H; subst; simpl; lia.
      * apply IH in H. simpl. lia.
Qed.

Lemma parseMultiline_bounds (lines : list string) (s : nat) (ty : option string) :
  s <= List.length lines ->
  exists v n, Parser1.parseMultiline lines s ty = (v, n) /\ s <= n <= List.length lines.
Proof.
  intros Hs. unfold Parser1.parseMultiline.
  destruct (Parser1.multilineLoop (skipn s lines) s []) as [content n] eqn:E.
  apply multilineLoop_bounds in E. rewrite length_skipn in E.
  eexists; exists n; split; [reflexivity | lia].
Qed.

Lemma delivers_weaken {A : Type} (r : result (A * nat)) (lo lo' len : nat) :
  delivers r lo len -> lo' <= lo -> delivers r lo' len.
Proof.
  intros (a & n & E & Hn) Hlo. exists a, n. split; [exact E | lia].
Qed.

Lemma delivers_bind {A B : Type} (r : result (A * nat))
    (k : A * nat -> result (B * nat)) (lo lo' len : nat) :
  delivers r lo len ->
  (forall a n, lo <= n <= len -> delivers (k (a, n)) lo' len) ->
  delivers (bind r k) lo' len.
Proof.
  intros (a & n & E & Hn) Hk. rewrite E. simpl. apply Hk. exact Hn.
Qed.

(** The loop returns at once with the cursor at [n]. *)
Ltac deliver_at n := eexists; exists n; split; [reflexivity | lia].

(** The loop goes on with a smaller budget: the induction hypothesis [IH]
    applies from a cursor that is not behind the present one. *)
Ltac deliver_by IH := eapply delivers_weaken; [apply IH; lia | lia].

Lemma p1_parseLine_delivers (lines : list string)
    (pb pl : nat -> result (Value * nat)) (i : nat) :
  i < List.length lines ->
  delivers (pb (i + 1)) (i + 1) (List.length lines) ->
  delivers (pl (i + 1)) (i + 1) (List.length lines) ->
  delivers (Parser1.parseLine lines pb pl i) (i + 1) (List.length lines).
Proof.
  intros Hi Hb Hl.
  unfold Parser1.parseLine.
  destruct (Parser1.splitKeyValue (nth i lines "")) as [keyPart valPart].
  destruct (Parser1.parseKeyAndType keyPart) as [k ty].
  apply (delivers_bind _ _ (i + 1)); [|intros v n Hn; deliver_at n].
  unfold Parser1.parseValue.
  destruct (startsWith valPart "```").
  { destruct (parseMultiline_bounds lines (i + 1) ty) as (v & n & E & Hn); [lia|].
    rewrite E. deliver_at n. }
  destruct (valPart =? "{"); [exact Hb|].
  destruct (valPart =? "["); [exact Hl|].
  destruct (startsWith valPart "[" && endsWith valPart "]"); deliver_at (i + 1).
Qed.

Lemma p1_loops_deliver (lines : list string) :
  forall fuel,
    (forall i block, i <= List.length lines -> List.length lines - i < fuel ->
       delivers (Parser1.blockLoop fuel lines i block) i (List.length lines))
    /\
    (forall i list, i <= List.length lines -> List.length lines - i < fuel ->
       delivers (Parser1.listLoop fuel lines i list) i (List.length lines)).
Proof.
  induction fuel as [|f [IHb IHl]]; split; intros i acc Hi Hf; try lia; simpl.
  - destruct (i <? List.length lines)%nat eqn:Elt; [|deliver_at i].
    apply Nat.ltb_lt in Elt.
    destruct (isEmpty (nth i lines "")); [deliver_at i|].
    destruct (trim (nth i lines "") =? "}"); [deliver_at (i + 1)|].
    destruct (isEmpty (trim (nth i lines "")) || startsWith (trim (nth i lines "")) "#");
      [deliver_by IHb|].
    eapply delivers_bind.
    + apply p1_parseLine_delivers; [exact Elt | apply IHb; lia | apply IHl; lia].
    + intros node n Hn. deliver_by IHb.
  - destruct (i <? List.length lines)%nat eqn:Elt; [|deliver_at i].
    apply Nat.ltb_lt in Elt.
    destruct (isEmpty (nth i lines "")); [deliver_at i|].
    destruct (trim (nth i lines "") =? "]"); [deliver_at (i + 1)|].
    destruct (isEmpty (trim (nth i lines "")) || startsWith (trim (nth i lines "")) "#");
      [deliver_by IHl|].
    destruct (startsWith (trim (nth i lines "")) "[" && endsWith (trim (nth i lines "")) "]");
      [deliver_by IHl|].
    destruct (trim (nth i lines "") =? "{"); [|deliver_by IHl].
    eapply delivers_bind; [apply IHb; lia|].
    intros v n Hn. deliver_by IHl.
Qed.

Lemma p1_parseLineAt_delivers (lines : list string) (i : nat) :
  i < List.length lines ->
  delivers (Parser1.parseLineAt lines i) (i + 1) (List.length lines).
Proof.
  intros Hi. unfold Parser1.parseLineAt, Parser1.parseBlock, Parser1.parseList.
  destruct (p1_loops_deliver lines (S (List.length lines))) as [Hb Hl].
  apply p1_parseLine_delivers; [exact Hi | apply Hb; lia | apply Hl; lia].
Qed.

Lemma p2_parseLine_delivers (lines : list string)
    (pb pl : nat -> result (Value * nat)) (i : nat) :
  i < List.length lines ->
  delivers (pb (i + 1)) (i + 1) (List.length lines) ->
  delivers (pl (i + 1)) (i + 1) (List.length lines) ->
  delivers (Parser2.parseLine lines pb pl i) (i + 1) (List.length lines).
Proof.
  intros Hi Hb Hl.
  unfold Parser2.parseLine.
  destruct (Parser2.splitKeyValue (nth i lines "")) as [keyPart valPart lo]; simpl.
  destruct (Parser2.parseKeyAndType keyPart) as [k ty].
  destruct (match ty with Some t => t =? "quoted" | None => false end);
    [deliver_at (i + 1)|].
  apply (delivers_bind _ _ (i + 1)); [|intros v n Hn; deliver_at n].
  unfold Parser2.parseValue.
  destruct (startsWith valPart "```").
  { unfold Parser2.parseMultiline.
    destruct (parseMultiline_bounds lines (i + 1) ty) as (v & n & E & Hn); [lia|].
    rewrite E. deliver_at n. }
  destruct (valPart =? "{"); [exact Hb|].
  destruct (valPart =? "["); [exact Hl|].
  destruct (startsWith valPart "[" && endsWith valPart "]"); [deliver_at (i + 1)|].
  destruct (startsWith valPart "{" && includes valPart "}"); deliver_at (i + 1).
Qed.

Lemma p2_loops_deliver (lines : list string) :
  forall fuel,
    (forall i block, i <= List.length lines -> List.length lines - i < fuel ->
       delivers (Parser2.blockLoop fuel lines i block) i (List.length lines))
    /\
    (forall i list, i <= List.length lines -> List.length lines - i < fuel ->
       delivers (Parser2.listLoop fuel lines i list) i (List.length lines)).
Proof.
  induction fuel as [|f [IHb IHl]]; split; intros i acc Hi Hf; try lia; simpl.
  - destruct (i <? List.length lines)%nat eqn:Elt; [|deliver_at i].
    apply Nat.ltb_lt in Elt.
    destruct (isEmpty (nth i lines "")); [deliver_at i|].
    destruct (trim (nth i lines "") =? "}"); [deliver_at (i + 1)|].
    destruct (isEmpty (trim (nth i lines "")) || startsWith (trim (nth i lines "")) "#");
      [deliver_by IHb|].
    eapply delivers_bind.
    + apply p2_parseLine_delivers; [exact Elt | apply IHb; lia | apply IHl; lia].
    + intros node n Hn. deliver_by IHb.
  - destruct (i <? List.length lines)%nat eqn:Elt; [|deliver_at i].
    apply Nat.ltb_lt in Elt.
    destruct (isEmpty (nth i lines "")); [deliver_at i|].
    destruct (trim (nth i lines "") =? "]"); [deliver_at (i + 1)|].
    destruct (isEmpty (trim (nth i lines "")) || startsWith (trim (nth i lines "")) "#");
      [deliver_by IHl|].
    destruct (startsWith (trim (nth i lines "")) "[" && endsWith (trim (nth i lines "")) "]");
      [deliver_by IHl|].
    destruct (trim (nth i lines "") =? "{"); [|deliver_by IHl].
    eapply delivers_bind; [apply IHb; lia|].
    intros v n Hn. deliver_by IHl.
Qed.

Lemma p2_parseLineAt_delivers (lines : list string) (i : nat) :
  i < List.length lines ->
  delivers (Parser2.parseLineAt lines i) (i + 1) (List.length lines).
Proof.
  intros Hi. unfold Parser2.parseLineAt, Parser2.parseBlock, Parser2.parseList.
  destruct (p2_loops_deliver lines (S (List.length lines))) as [Hb Hl].
  apply p2_parseLine_delivers; [exact Hi | apply Hb; lia | apply Hl; lia].
Qed.

(** ** Blocks and multiline values, line by line *)

(** A block never holds two entries for one key. *)
Lemma p1_blockLoop_NoDup (lines : list string) :
  forall fuel i block entries n,
    NoDup (ownKeys block) ->
    Parser1.blockLoop fuel lines i block = Ok (Block entries, n) ->
    NoDup (ownKeys entries).
Proof.
  induction fuel as [|f IH]; intros i block entries n Hb H; simpl in H;
    [discriminate|].
  destruct (i <? List.length lines)%nat; [|inversion H; subst; exact Hb].
  destruct (isEmpty (nth i lines "")); [inversion H; subst; exact Hb|].
  destruct (trim (nth i lines "") =? "}"); [inversion H; subst; exact Hb|].
  destruct (isEmpty (trim (nth i lines "")) || startsWith (trim (nth i lines "")) "#");
    [eapply IH; eassumption|].
  destruct (Parser1.parseLine lines _ _ i) as [[node next]| |]; simpl in H;
    try discriminate.
  eapply IH; [|exact H]. apply objSet_NoDup. exact Hb.
Qed.

(** [Parser1]: an empty line ends the block loop, with the cursor left on it. *)
Lemma p1_blockLoop_stops (fuel : nat) (lines : list string) (i : nat) (block : Entries) :
  i < List.length lines -> nth i lines "" = "" ->
  Parser1.blockLoop (S fuel) lines i block = Ok (Block block, i).
Proof.
  intros Hi He. simpl. apply Nat.ltb_lt in Hi. rewrite Hi, He. reflexivity.
Qed.

(** [Parser1]: the accumulation keeps the non-empty lines up to the first
    empty line and stops there without consuming it. *)
Lemma p1_multilineLoop_stops (pre post content : list string) :
  Forall (fun line => isEmpty line = false /\ notFence line) pre ->
  forall i,
    Parser1.multilineLoop (pre ++ "" :: post) i content =
      ((content ++ pre)%list, i + List.length pre).
Proof.
  intros Hpre. revert content.
  induction Hpre as [|line pre [Hne Hl] Hpre IH]; intros content i; simpl.
  - rewrite app_nil_r, Nat.add_0_r. reflexivity.
  - unfold notFence in Hl. rewrite Hne, Hl, IH, <- app_assoc. simpl.
    replace (i + 1 + List.length pre) with (i + S (List.length pre)) by lia.
    reflexivity.
Qed.

(** [UpParser]: every line before the closing fence is kept, empty or not,
    and the fence is consumed. *)
Lemma up_multilineLoop_keeps (pre post content : list string) (fence : string) :
  Forall notFence pre ->
  trim fence = "```" ->
  forall lineNum,
    UpParser.multilineLoop (pre ++ fence :: post) content lineNum =
      Ok ((content ++ pre)%list, lineNum + List.length pre + 1).
Proof.
  intros Hpre Hf. revert content.
  induction Hpre as [|line pre Hl Hpre IH]; intros content lineNum; simpl.
  - rewrite Hf. simpl. unfold UpParser.mbind, UpParser.advance, UpParser.ret.
    rewrite app_nil_r. replace (lineNum + 0 + 1) with (lineNum + 1) by lia.
    reflexivity.
  - unfold notFence in Hl. rewrite Hl.
    unfold UpParser.mbind, UpParser.advance. rewrite IH.
    rewrite <- app_assoc. simpl.
    replace (lineNum + 1 + List.length pre + 1)
      with (lineNum + S (List.length pre) + 1) by lia.
    reflexivity.
Qed.

(** [Parser1]: a line of white space only, which is not empty, is skipped
    by the block loop. *)
Lemma p1_blockLoop_skips (fuel : nat) (lines : list string) (i : nat) (block : Entries) :
  i < List.length lines ->
  isEmpty (nth i lines "") = false ->
  trim (nth i lines "") = "" ->
  Parser1.blockLoop (S fuel) lines i block = Parser1.blockLoop fuel lines (i + 1) block.
Proof.
  intros Hi Hne Ht. simpl. apply Nat.ltb_lt in Hi. rewrite Hi, Hne, Ht. reflexivity.
Qed.

(** [UpParser]: a line that trims to nothing, empty or not, is skipped by
    the loop of [parseNodes]. *)
Lemma up_nodesLoop_skips (fuel : nat) (lines : list string)
    (endDelimiter : option string) (nodes : list UpParser.UpNode) (lineNum : nat) :
  lineNum < List.length lines ->
  trim (nth lineNum lines "") = "" ->
  UpParser.nodesLoop lines (S fuel) endDelimiter nodes lineNum =
    UpParser.nodesLoop lines fuel endDelimiter nodes (lineNum + 1).
Proof.
  intros Hi Ht. simpl. unfold UpParser.mbind at 1, UpParser.getLineNum.
  apply Nat.ltb_lt in Hi. rewrite Hi, Ht.
  destruct endDelimiter as [[|c d]|]; reflexivity.
Qed.

(** ** The document driver of [Parser2] and its top-level lines *)

(** A [!use] line is handed to [parseUseDirective] and to nothing else. *)
Lemma p2_docStep_use (lines : list string) (i : nat) (nodes : list Parser2.Node) :
  isUseLine lines i ->
  Parser2.docStep lines i nodes =
    (let* node := Parser2.parseUseDirective (trim (nth i lines "")) in
     Ok (i + 1, (nodes ++ [node])%list)).
Proof.
  intros H. unfold Parser2.docStep.
  destruct (startsWith_use_shape _ H) as (He & Hc & _).
  rewrite (trim_empty_line _ He), He, Hc, H. reflexivity.
Qed.

(** What one iteration of the driver can do. *)
Lemma p2_docStep_cases (lines : list string) (i : nat) (nodes : list Parser2.Node) :
  i < List.length lines ->
  (exists i' nodes',
      Parser2.docStep lines i nodes = Ok (i', nodes') /\ i < i' <= List.length lines)
  \/ (Parser2.docStep lines i nodes = Throw Parser2.useMessage /\ badUseLine lines i)
  \/ (Parser2.docStep lines i nodes = Throw Parser2.lintMessage /\ ~ isUseLine lines i).
Proof.
  intros Hi.
  destruct (startsWith (trim (nth i lines "")) "!use") eqn:Huse.
  - rewrite (p2_docStep_use lines i nodes Huse).
    unfold Parser2.parseUseDirective. rewrite trim_idempotent.
    destruct (startsWith (trim (sliceFrom (trim (nth i lines "")) 4)) "[") eqn:Harg.
    + left. simpl. eexists (i + 1), _; split; [reflexivity | lia].
    + right; left. split; [reflexivity | split; [exact Huse | exact Harg]].
  - unfold Parser2.docStep. rewrite Huse.
    destruct (isEmpty (nth i lines "")).
    { left. exists (i + 1), nodes; split; [reflexivity | lia]. }
    destruct (isEmpty (trim (nth i lines "")) || startsWith (trim (nth i lines "")) "#").
    { left. exists (i + 1), nodes; split; [reflexivity | lia]. }
    destruct (startsWith (trim (nth i lines "")) "!lint").
    + unfold Parser2.parseLintDirective.
      destruct (trim (sliceFrom (trim (nth i lines "")) 5) =? "{").
      * left. unfold Parser2.parseBlock.
        destruct (p2_loops_deliver lines (S (List.length lines))) as [Hb _].
        destruct (Hb (i + 1) []) as (v & n & E & Hn); [lia | lia |].
        rewrite E. simpl. eexists n, _; split; [reflexivity | lia].
      * right; right. split; [reflexivity |].
        unfold isUseLine. rewrite Huse. discriminate.
    + left. destruct (p2_parseLineAt_delivers lines i Hi) as (node & n & E & Hn).
      rewrite E. simpl. eexists n, _; split; [reflexivity | lia].
Qed.

Lemma p2_docLoop_throw_inv (lines : list string) (msg : string) :
  forall fuel i nodes,
    Parser2.docLoop fuel lines i nodes = Throw msg ->
    exists j nodesj,
      steps lines i nodes j nodesj /\ j < List.length lines
      /\ Parser2.docStep lines j nodesj = Throw msg.
Proof.
  induction fuel as [|f IH]; intros i nodes H; simpl in H;
    destruct (i <? List.length lines)%nat eqn:Elt; try discriminate.
  apply Nat.ltb_lt in Elt.
  destruct (Parser2.docStep lines i nodes) as [[i' nodes'] | m |] eqn:Es;
    simpl in H; try discriminate.
  - destruct (IH _ _ H) as (j & nodesj & Hs & Hj & Ej).
    exists j, nodesj; split; [|split; assumption].
    eapply steps_cons; eassumption.
  - inversion H; subst. exists i, nodes; split; [apply steps_refl | split; assumption].
Qed.

Lemma p2_docLoop_throw (lines : list string) (msg : string) i nodes j nodesj :
  steps lines i nodes j nodesj ->
  j < List.length lines ->
  Parser2.docStep lines j nodesj = Throw msg ->
  forall fuel, List.length lines - i <= fuel ->
    Parser2.docLoop fuel lines i nodes = Throw msg.
Proof.
  induction 1 as [i nodes | i nodes i' nodes' j nodesj Hi E _ IH];
    intros Hj Ej fuel Hf.
  - destruct fuel as [|f]; [lia|]. simpl.
    apply Nat.ltb_lt in Hj. rewrite Hj, Ej. reflexivity.
  - destruct fuel as [|f]; [lia|]. simpl.
    pose proof Hi as Hlt. apply Nat.ltb_lt in Hlt. rewrite Hlt, E. simpl.
    apply IH; try assumption.
    destruct (p2_docStep_cases lines i nodes Hi)
      as [(a & b & Ea & Hab) | [[Ea _] | [Ea _]]]; rewrite E in Ea;
      try discriminate.
    inversion Ea; subst. lia.
Qed.

(** The fuel that [parseDocument] gives its loop is enough. *)
Lemma p2_docLoop_ends (lines : list string) :
  forall fuel i nodes,
    List.length lines - i <= fuel ->
    Parser2.docLoop fuel lines i nodes <> OutOfFuel.
Proof.
  induction fuel as [|f IH]; intros i nodes Hf; simpl;
    destruct (i <? List.length lines)%nat eqn:Elt; try discriminate.
  - apply Nat.ltb_lt in Elt; lia.
  - apply Nat.ltb_lt in Elt.
    destruct (p2_docStep_cases lines i nodes Elt)
      as [(a & b & Ea & Hab) | [[Ea _] | [Ea _]]]; rewrite Ea; simpl;
      try discriminate.
    apply IH. lia.
Qed.

Lemma p2_parse_ends (input : string) : Parser2.parse input <> OutOfFuel.
Proof.
  unfold Parser2.parse, Parser2.parseDocument. apply p2_docLoop_ends. lia.
Qed.

(** The [!use] error is raised exactly at a malformed top-level [!use] line. *)
Lemma use_error_iff (input : string) :
  Parser2.parse input = Throw Parser2.useMessage <->
  exists i, topLevel (split "010" input) i /\ badUseLine (split "010" input) i.
Proof.
  unfold Parser2.parse, Parser2.parseDocument.
  set (lines := split "010" input). split.
  - intros H. apply p2_docLoop_throw_inv in H.
    destruct H as (j & nodesj & Hs & Hj & Ej).
    exists j. split; [split; [exact Hj | exists nodesj; exact Hs]|].
    destruct (p2_docStep_cases lines j nodesj Hj)
      as [(a & b & Ea & _) | [[Ea Hbad] | [Ea _]]]; rewrite Ej in Ea;
      try discriminate. exact Hbad.
  - intros (i & [Hi [nodes Hs]] & Hbad).
    eapply p2_docLoop_throw; [exact Hs | exact Hi | | lia].
    rewrite (p2_docStep_use lines i nodes (proj1 Hbad)).
    unfold Parser2.parseUseDirective. rewrite trim_idempotent.
    destruct Hbad as [_ Harg]. unfold useArgument in Harg. rewrite Harg.
    reflexivity.
Qed.

(** ** Headers of type [quoted] *)

(** For every remainder but the lone double quote, the test of the
    [!quoted] branch is the test for a surrounding pair. *)
Lemma quoted_test_is_wrapped (v : string) :
  v <> DQ -> startsWith v DQ && endsWith v DQ = wrappedInQuotes v.
Proof.
  intros Hv. unfold wrappedInQuotes.
  destruct v as [|a [|b r]]; try reflexivity.
  unfold DQ at 1. rewrite startsWith_cons.
  destruct (Ascii.eqb_spec a "034") as [->|]; [|reflexivity].
  exfalso. apply Hv. reflexivity.
Qed.

(** A header whose type annotation is [quoted] gives a scalar of type
    [string]; unless the remainder is the lone double quote, the value is the
    remainder when it is wrapped in a pair of double quotes and the remainder
    between two added double quotes otherwise. *)
Lemma p2_parseLine_quoted (lines : list string)
    (pb pl : nat -> result (Value * nat)) (i : nat) (k : string) :
  let kv := Parser2.splitKeyValue (nth i lines "") in
  Parser2.parseKeyAndType (Parser2.keyPart kv) = (k, Some "quoted") ->
  Parser2.valPart kv <> DQ ->
  Parser2.parseLine lines pb pl i =
    Ok (Parser2.mkNode k (Some "string")
          (Scalar (if wrappedInQuotes (Parser2.valPart kv)
                   then Parser2.valPart kv
                   else DQ ++ Parser2.valPart kv ++ DQ)),
        i + 1).
Proof.
  intros kv Hk Hv. unfold Parser2.parseLine. fold kv. rewrite Hk. simpl.
  rewrite <- negb_andb, (quoted_test_is_wrapped _ Hv).
  destruct (wrappedInQuotes (Parser2.valPart kv)); reflexivity.
Qed.

(** ** Inline lists *)

(** The items of a bracketed text: the comma-separated pieces, trimmed; an
    all-blank content gives the empty list. *)
Lemma parseInlineList_bracketed (content : string) :
  Parser1.parseInlineList ("[" ++ content ++ "]") =
    if isEmpty (trim content) then List []
    else List (map (fun item => Scalar (trim item)) (split "," content)).
Proof.
  unfold Parser1.parseInlineList.
  change ("[" ++ content ++ "]") with (String "[" (content ++ String "]" "")).
  rewrite trim_between by reflexivity. rewrite slice_strip_ends. reflexivity.
Qed.

Lemma blank_join (xs ys : list string) :
  map trim xs = map trim ys ->
  isEmpty (trim (join "," xs)) = isEmpty (trim (join "," ys)).
Proof.
  intros H. destruct xs as [|x [|x' xs]], ys as [|y [|y' ys]]; try discriminate.
  - reflexivity.
  - simpl in *. congruence.
  - rewrite !join_cons, !isEmpty_trim, !existsChar_app. simpl.
    rewrite !orb_true_r. reflexivity.
Qed.

(** White space around the items of an inline list does not change it. *)
Lemma parseInlineList_whitespace (xs ys : list string) :
  Forall commaFree xs -> Forall commaFree ys ->
  map trim xs = map trim ys ->
  Parser1.parseInlineList ("[" ++ join "," xs ++ "]") =
  Parser1.parseInlineList ("[" ++ join "," ys ++ "]").
Proof.
  intros Hx Hy H. rewrite !parseInlineList_bracketed, (blank_join xs ys H).
  destruct (isEmpty (trim (join "," ys))); [reflexivity|].
  destruct xs as [|x xs], ys as [|y ys]; try discriminate; [reflexivity|].
  rewrite !split_join by (assumption || discriminate).
  rewrite <- !(map_map trim Scalar), H. reflexivity.
Qed.

(** [Parser1.parse] on the one line [key [content]]. *)
Lemma p1_parse_inline_list (key content : string) :
  plainKey key ->
  existsChar isLineTerminator content = false ->
  Parser1.parse (key ++ " [" ++ content ++ "]") =
    Ok [Parser1.mkNode key None (Parser1.parseInlineList ("[" ++ content ++ "]"))].
Proof.
  intros (Hne & Hsp & Hc & Hbang) Hlt.
  unfold Parser1.parse, Parser1.parseDocument.
  set (valPart := "[" ++ content ++ "]").
  change (key ++ " [" ++ content ++ "]") with (key ++ String " " valPart).
  set (line := key ++ String " " valPart).
  assert (Hlv : existsChar isLineTerminator valPart = false).
  { unfold valPart. change ("[" ++ content ++ "]") with (String "[" (content ++ "]")).
    simpl. rewrite existsChar_app, Hlt. reflexivity. }
  assert (Hsplit : split "010" line = [line]).
  { apply split_none. unfold line. rewrite existsChar_app.
    rewrite (existsChar_weaken _ isSpace key)
      by (exact Hsp || (intros c Hcc; apply lineTerminator_isSpace,
                        lineFeed_isLineTerminator, Hcc)).
    simpl. apply (existsChar_weaken _ isLineTerminator);
      [apply lineFeed_isLineTerminator | exact Hlv]. }
  rewrite Hsplit.
  assert (Hshape : exists a u, isSpace a = false /\ startsWith line "#" = false
                               /\ line = String a (u ++ String "]" "")).
  { unfold line, valPart. destruct key as [|a key]; [discriminate|].
    simpl in Hsp. apply orb_false_iff in Hsp as [Ha _].
    exists a, (key ++ String " " (String "[" content)). repeat split.
    - exact Ha.
    - exact Hc.
    - rewrite append_assoc. reflexivity. }
  destruct Hshape as (a & u & Ha & Hhash & Hline).
  assert (Htrim : trim line = line).
  { rewrite Hline. apply trim_between; [exact Ha | reflexivity]. }
  assert (Hkv : Parser1.splitKeyValue line = (key, valPart)).
  { unfold Parser1.splitKeyValue, line.
    rewrite matchHeader_token; [reflexivity | exact Hsp | exact Hne | exact Hlv]. }
  assert (Hkt : Parser1.parseKeyAndType key = (key, None)).
  { unfold Parser1.parseKeyAndType, indexOf. rewrite findIndex_none by exact Hbang.
    reflexivity. }
  assert (Hval : forall pb pl,
             Parser1.parseValue [line] pb pl 0 valPart None =
               Ok (Parser1.parseInlineList valPart, 1)).
  { intros pb pl. unfold Parser1.parseValue.
    assert (Hends : endsWith valPart "]" = true).
    { unfold valPart. change ("[" ++ content ++ "]") with (("[" ++ content) ++ "]").
      apply endsWith_app. }
    rewrite Hends. unfold valPart.
    change ("[" ++ content ++ "]") with (String "[" (content ++ "]")).
    destruct content; reflexivity. }
  assert (Hstep : Parser1.docStep [line] 0 [] =
                    Ok (1, [Parser1.mkNode key None (Parser1.parseInlineList valPart)])).
  { unfold Parser1.docStep. change (nth 0 [line] "") with line.
    assert (Hnonempty : isEmpty line = false) by (rewrite Hline; reflexivity).
    rewrite Htrim, Hhash, Hnonempty. simpl orb. cbv iota.
    unfold Parser1.parseLineAt, Parser1.parseLine.
    change (nth 0 [line] "") with line. rewrite Hkv, Hkt, Hval. reflexivity. }
  simpl. rewrite Hstep. reflexivity.
Qed.

(** [Parser2.parse] on the same line, for a key token that does not end in a
    colon. *)
Lemma p2_parse_inline_list (key content : string) :
  plainKey key ->
  endsWith key ":" = false ->
  existsChar isLineTerminator content = false ->
  Parser2.parse (key ++ " [" ++ content ++ "]") =
    Ok [Parser2.mkNode key None (Parser1.parseInlineList ("[" ++ content ++ "]"))].
Proof.
  intros (Hne & Hsp & Hc & Hbang) Hcolon Hlt.
  unfold Parser2.parse, Parser2.parseDocument.
  set (valPart := "[" ++ content ++ "]").
  change (key ++ " [" ++ content ++ "]") with (key ++ String " " valPart).
  set (line := key ++ String " " valPart).
  assert (Hlv : existsChar isLineTerminator valPart = false).
  { unfold valPart. change ("[" ++ content ++ "]") with (String "[" (content ++ "]")).
    simpl. rewrite existsChar_app, Hlt. reflexivity. }
  assert (Hsplit : split "010" line = [line]).
  { apply split_none. unfold line. rewrite existsChar_app.
    rewrite (existsChar_weaken _ isSpace key)
      by (exact Hsp || (intros c Hcc; apply lineTerminator_isSpace,
                        lineFeed_isLineTerminator, Hcc)).
    simpl. apply (existsChar_weaken _ isLineTerminator);
      [apply lineFeed_isLineTerminator | exact Hlv]. }
  rewrite Hsplit.
  assert (Hshape : exists a u, isSpace a = false
                               /\ startsWith line "#" = false
                               /\ startsWith line "!use" = false
                               /\ startsWith line "!lint" = false
                               /\ line = String a (u ++ String "]" "")).
  { unfold line, valPart. destruct key as [|a key]; [discriminate|].
    simpl in Hsp. apply orb_false_iff in Hsp as [Ha _].
    change (Ascii.eqb "!" a || existsChar (Ascii.eqb "!") key = false) in Hbang.
    apply orb_false_iff in Hbang as [Hb _].
    rewrite Ascii.eqb_sym in Hb.
    exists a, (key ++ String " " (String "[" content)). repeat split.
    - exact Ha.
    - exact Hc.
    - change (String a key ++ String " " ("[" ++ content ++ "]"))
        with (String a (key ++ String " " ("[" ++ content ++ "]"))).
      rewrite startsWith_cons, Hb. reflexivity.
    - change (String a key ++ String " " ("[" ++ content ++ "]"))
        with (String a (key ++ String " " ("[" ++ content ++ "]"))).
      rewrite startsWith_cons, Hb. reflexivity.
    - rewrite append_assoc. reflexivity. }
  destruct Hshape as (a & u & Ha & Hhash & Huse & Hlint & Hline).
  assert (Htrim : trim line = line).
  { rewrite Hline. apply trim_between; [exact Ha | reflexivity]. }
  assert (Hkv : Parser2.splitKeyValue line = Parser2.mkKeyValue key valPart false).
  { unfold Parser2.splitKeyValue, Parser2.matchHeader, line.
    rewrite matchHeader_token; [| exact Hsp | exact Hne | exact Hlv].
    change (dropWhile isSpace valPart) with valPart.
    rewrite Hcolon. simpl andb. cbv iota. f_equal.
    unfold Parser2.stripSurroundingQuotes, valPart.
    change ("[" ++ content ++ "]") with (String "[" (content ++ "]")).
    unfold DQ at 1. rewrite startsWith_cons.
    change (Ascii.eqb "[" "034") with false.
    rewrite andb_false_l, andb_false_r. reflexivity. }
  assert (Hkt : Parser2.parseKeyAndType key = (key, None)).
  { unfold Parser2.parseKeyAndType, Parser1.parseKeyAndType, indexOf.
    rewrite findIndex_none by exact Hbang. reflexivity. }
  assert (Hval : forall pb pl,
             Parser2.parseValue [line] pb pl 0 valPart None =
               Ok (Parser1.parseInlineList valPart, 1)).
  { intros pb pl. unfold Parser2.parseValue.
    assert (Hends : endsWith valPart "]" = true).
    { unfold valPart. change ("[" ++ content ++ "]") with (("[" ++ content) ++ "]").
      apply endsWith_app. }
    rewrite Hends. unfold valPart.
    change ("[" ++ content ++ "]") with (String "[" (content ++ "]")).
    destruct content; reflexivity. }
  assert (Hstep : Parser2.docStep [line] 0 [] =
                    Ok (1, [Parser2.mkNode key None (Parser1.parseInlineList valPart)])).
  { unfold Parser2.docStep. change (nth 0 [line] "") with line.
    assert (Hnonempty : isEmpty line = false) by (rewrite Hline; reflexivity).
    rewrite Htrim, Hhash, Huse, Hlint, Hnonempty. simpl orb. cbv iota.
    unfold Parser2.parseLineAt, Parser2.parseLine.
    change (nth 0 [line] "") with line. rewrite Hkv.
    simpl Parser2.keyPart. simpl Parser2.valPart. rewrite Hkt. cbv iota beta.
    rewrite Hval. reflexivity. }
  simpl. rewrite Hstep. reflexivity.
Qed.

Lemma listItems_join (xs : list string) :
  Forall listItem xs ->
  Forall commaFree xs /\ existsChar isLineTerminator (join "," xs) = false.
Proof.
  intros H. split.
  - eapply Forall_impl; [|exact H]. intros x [Hx _]. exact Hx.
  - apply existsChar_join; [reflexivity|].
    eapply Forall_impl; [|exact H]. intros x [_ Hx]. exact Hx.
Qed.

(** ** Line endings *)

(** [UpParser.parse] gives the same nodes for a document written with CRLF
    line endings and for the same lines written with LF endings. *)
Lemma up_parse_crlf (ls : list string) :
  Forall noLineTerminator ls ->
  UpParser.parse (join (CR ++ LF) ls) = UpParser.parse (join LF ls).
Proof.
  intros H. destruct ls as [|x ls]; [reflexivity|].
  unfold UpParser.parse.
  rewrite splitLines_join_crlf, splitLines_join_lf by (exact H || discriminate).
  reflexivity.
Qed.

(** * Further properties of the code *)

(** ** Further string facts *)

Lemma sliceFrom_suffix (u w : string) :
  sliceFrom (u ++ w) (Z.of_nat (String.length u)) = w.
Proof.
  unfold sliceFrom, slice, relIndex.
  destruct (Z.ltb_spec (Z.of_nat (String.length u)) 0); [lia|].
  destruct (Z.ltb_spec (Z.of_nat (String.length (u ++ w))) 0); [lia|].
  rewrite !Nat2Z.id, length_app, Nat.min_id, Nat.min_l by lia.
  replace (String.length u + String.length w - String.length u)
    with (String.length w) by lia.
  apply substring_suffix.
Qed.

Lemma length_snoc (u : string) (x : ascii) :
  String.length (u ++ String x "") = S (String.length u).
Proof. rewrite length_app. simpl. lia. Qed.

(** ** Keys and type annotations *)

Lemma parseKeyAndType_typed (name ty : string) :
  existsChar (Ascii.eqb "!") name = false ->
  Parser1.parseKeyAndType (name ++ String "!" ty) = (name, Some ty).
Proof.
  intros Hn. unfold Parser1.parseKeyAndType, indexOf.
  rewrite findIndex_app by (exact Hn || reflexivity).
  destruct (Z.eqb_spec (Z.of_nat (String.length name)) (-1)); [lia|].
  rewrite slice_prefix. f_equal. f_equal.
  rewrite append_snoc.
  replace (Z.of_nat (String.length name) + 1)%Z
    with (Z.of_nat (String.length (name ++ String "!" ""))).
  - apply sliceFrom_suffix.
  - rewrite length_snoc. lia.
Qed.

Lemma parseKeyAndType_plain (name : string) :
  existsChar (Ascii.eqb "!") name = false ->
  Parser1.parseKeyAndType name = (name, None).
Proof.
  intros Hn. unfold Parser1.parseKeyAndType, indexOf.
  rewrite findIndex_none by exact Hn. reflexivity.
Qed.

(** X1.  [parseKeyAndType] cuts a key token at its first exclamation mark:
    a name without one, followed by the mark and any text, gives back the
    name and that text as the type annotation (an empty text gives the empty
    annotation, which is not the absent one), and the name alone gives no
    annotation. *)
Theorem parseKeyAndType_first_bang (name ty : string) :
  existsChar (Ascii.eqb "!") name = false ->
  Parser1.parseKeyAndType (name ++ "!" ++ ty) = (name, Some ty)
  /\ Parser1.parseKeyAndType name = (name, None).
Proof.
  intros Hn. split.
  - apply parseKeyAndType_typed, Hn.
  - apply parseKeyAndType_plain, Hn.
Qed.

Lemma parseKeyAndType_first_bang_witness :
  Parser1.parseKeyAndType ("age" ++ "!" ++ "int") = ("age", Some "int")
  /\ Parser1.parseKeyAndType "age" = ("age", None).
Proof. apply (parseKeyAndType_first_bang "age" "int"). reflexivity. Defined.

(** ** Quotes *)

Lemma startsWith_app_prefix (p s : string) : startsWith (p ++ s) p = true.
Proof.
  induction p as [|c p IH]; [reflexivity|].
  change (String c p ++ s) with (String c (p ++ s)).
  rewrite startsWith_cons, Ascii.eqb_refl, IH. reflexivity.
Qed.

Lemma stripSurroundingQuotes_wrapped (s : string) :
  Parser2.stripSurroundingQuotes (DQ ++ s ++ DQ) = s.
Proof.
  unfold Parser2.stripSurroundingQuotes.
  rewrite startsWith_app_prefix.
  replace (DQ ++ s ++ DQ) with ((DQ ++ s) ++ DQ) at 2 by apply append_assoc.
  rewrite endsWith_app.
  change (DQ ++ s ++ DQ) with (String "034" (s ++ String "034" "")).
  rewrite slice_strip_ends.
  change (String.length (String "034" (s ++ String "034" "")))
    with (S (String.length (s ++ String "034" ""))).
  rewrite length_snoc. reflexivity.
Qed.

Lemma stripSurroundingQuotes_bare (s : string) :
  startsWith s DQ && endsWith s DQ = false ->
  Parser2.stripSurroundingQuotes s = s.
Proof.
  intros H. unfold Parser2.stripSurroundingQuotes.
  rewrite <- andb_assoc, H, andb_false_r. reflexivity.
Qed.

(** X2.  [stripSurroundingQuotes] removes exactly the outer pair: whatever
    text stands between two double quotes comes back unchanged, further
    quotes included. *)
Theorem stripSurroundingQuotes_unwraps (s : string) :
  Parser2.stripSurroundingQuotes (DQ ++ s ++ DQ) = s.
Proof. apply stripSurroundingQuotes_wrapped. Qed.

(** ** Scalar headers of [Parser1] *)

Lemma keyToken_parts (tok : string) :
  keyToken tok = true ->
  isEmpty tok = false /\ existsChar isSpace tok = false /\ startsWith tok "#" = false.
Proof.
  unfold keyToken. intros H.
  apply andb_true_iff in H as [H H3]. apply andb_true_iff in H as [H1 H2].
  apply negb_true_iff in H1, H2, H3. repeat split; assumption.
Qed.

Lemma headNonSpace_dropWhile (v : string) :
  headNonSpace v = true -> dropWhile isSpace v = v.
Proof.
  destruct v as [|c v]; simpl; [discriminate|].
  intros H. apply negb_true_iff in H. rewrite H. reflexivity.
Qed.

Lemma trim_head (a : ascii) (r : string) :
  isSpace a = false -> trim (String a r) = String a (trimEnd r).
Proof.
  intros Ha. unfold trim. rewrite trimStart_fixed by exact Ha.
  simpl. rewrite Ha. reflexivity.
Qed.

(** The trimmed text of a header line with a key token and a visible value:
    it starts with the first character of the token and goes on. *)
Lemma header_line_trim (tok rest : string) :
  keyToken tok = true -> headNonSpace rest = true ->
  exists a r,
    trim (tok ++ String " " rest) = String a r
    /\ isSpace a = false /\ Ascii.eqb a "#" = false /\ isEmpty r = false
    /\ (exists tok', tok = String a tok').
Proof.
  intros Ht Hr. destruct (keyToken_parts tok Ht) as (Hne & Hsp & Hc).
  destruct tok as [|a tok]; [discriminate|].
  simpl in Hsp. apply orb_false_iff in Hsp as [Ha _].
  rewrite startsWith_cons in Hc. apply andb_false_iff in Hc as [Hc|Hc]; [|discriminate].
  destruct rest as [|v0 rest]; [discriminate|].
  simpl in Hr. apply negb_true_iff in Hr.
  exists a, (tok ++ String " " (String v0 (trimEnd rest))). repeat split.
  - change (String a tok ++ String " " (String v0 rest))
      with (String a (tok ++ String " " (String v0 rest))).
    rewrite trim_head by exact Ha. f_equal.
    rewrite (append_snoc tok), trimEnd_app by exact Hr.
    rewrite <- append_snoc. reflexivity.
  - exact Ha.
  - exact Hc.
  - destruct tok; reflexivity.
  - exists tok. reflexivity.
Qed.

Lemma header_line_nonempty (tok rest : string) :
  keyToken tok = true -> isEmpty (tok ++ String " " rest) = false.
Proof.
  intros Ht. destruct (keyToken_parts tok Ht) as (Hne & _).
  destruct tok; [discriminate | reflexivity].
Qed.

Lemma p1_splitKeyValue_token (tok rest : string) :
  keyToken tok = true ->
  existsChar isLineTerminator (dropWhile isSpace rest) = false ->
  Parser1.splitKeyValue (tok ++ String " " rest) = (tok, dropWhile isSpace rest).
Proof.
  intros Ht Hr. destruct (keyToken_parts tok Ht) as (Hne & Hsp & _).
  unfold Parser1.splitKeyValue. rewrite matchHeader_token by assumption.
  reflexivity.
Qed.

Lemma scalarText_parts (v : string) :
  scalarText v = true ->
  headNonSpace v = true
  /\ existsChar isLineTerminator v = false
  /\ startsWith v "```" = false
  /\ (v =? "{") = false
  /\ (v =? "[") = false
  /\ startsWith v "[" && endsWith v "]" = false.
Proof.
  unfold scalarText. intros H.
  repeat (apply andb_true_iff in H as [H ?]).
  repeat match goal with X : negb _ = true |- _ => apply negb_true_iff in X end.
  repeat split; assumption.
Qed.

(** The generic line parser on a scalar header: one node, one line. *)
Lemma p1_parseLine_scalar (lines : list string)
    (pb pl : nat -> result (Value * nat)) (i : nat) (tok v : string) :
  nth i lines "" = tok ++ String " " v ->
  keyToken tok = true -> scalarText v = true ->
  Parser1.parseLine lines pb pl i = Ok (nodeOf tok (Scalar v), i + 1).
Proof.
  intros Hline Ht Hv.
  destruct (scalarText_parts v Hv) as (Hh & Hlt & Hf & Hb & Hl & Hi).
  unfold Parser1.parseLine, nodeOf. rewrite Hline.
  rewrite p1_splitKeyValue_token; rewrite ?headNonSpace_dropWhile; try assumption.
  destruct (Parser1.parseKeyAndType tok) as [k ty].
  unfold Parser1.parseValue. rewrite Hf, Hb, Hl, Hi. reflexivity.
Qed.

(** The driver on a header line: the generic line parser runs on it. *)
Lemma p1_docStep_header (lines : list string) (i : nat) (nodes : list Parser1.Node)
    (tok rest : string) :
  nth i lines "" = tok ++ String " " rest ->
  keyToken tok = true -> headNonSpace rest = true ->
  Parser1.docStep lines i nodes =
    (let* (node, nextIndex) := wrapLine (i + 1) (Parser1.parseLineAt lines i) in
     Ok (nextIndex, (nodes ++ [node])%list)).
Proof.
  intros Hline Ht Hr. unfold Parser1.docStep. rewrite Hline.
  rewrite header_line_nonempty by exact Ht.
  destruct (header_line_trim tok rest Ht Hr) as (a & r & -> & Ha & Hc & Hne & _).
  rewrite startsWith_cons, Hc. reflexivity.
Qed.

Lemma p1_docLoop_end (fuel : nat) (lines : list string) (i : nat)
    (nodes : list Parser1.Node) :
  List.length lines <= i -> Parser1.docLoop fuel lines i nodes = Ok nodes.
Proof.
  intros Hi. apply Nat.ltb_ge in Hi. destruct fuel; simpl; rewrite Hi; reflexivity.
Qed.

(** A document whose first iteration consumes every line. *)
Lemma p1_docLoop_single (lines : list string) (nodes : list Parser1.Node) :
  lines <> [] ->
  Parser1.docStep lines 0 [] = Ok (List.length lines, nodes) ->
  Parser1.docLoop (List.length lines) lines 0 [] = Ok nodes.
Proof.
  intros Hne Hs. destruct (List.length lines) as [|n] eqn:El.
  - destruct lines; [contradiction | discriminate].
  - simpl. rewrite El, Hs. simpl. apply p1_docLoop_end. lia.
Qed.

(** X3.  A one-line input made of a key token, a space and a scalar text
    parses to the single node of that key, with the type annotation of the
    token, whose value is the text as written: trailing white space, quotes
    and number signs are kept. *)
Theorem p1_parse_scalar_line (tok v : string) :
  keyToken tok = true -> scalarText v = true ->
  Parser1.parse (tok ++ " " ++ v) = Ok [nodeOf tok (Scalar v)].
Proof.
  intros Ht Hv.
  destruct (scalarText_parts v Hv) as (Hh & Hlt & _).
  destruct (keyToken_parts tok Ht) as (Hne & Hsp & _).
  change (tok ++ " " ++ v) with (tok ++ String " " v).
  unfold Parser1.parse, Parser1.parseDocument.
  assert (Hsplit : split "010" (tok ++ String " " v) = [tok ++ String " " v]).
  { apply split_none. rewrite existsChar_app.
    rewrite (existsChar_weaken _ isSpace tok)
      by (exact Hsp || (intros c Hcc; apply lineTerminator_isSpace,
                        lineFeed_isLineTerminator, Hcc)).
    simpl. apply (existsChar_weaken _ isLineTerminator);
      [apply lineFeed_isLineTerminator | exact Hlt]. }
  rewrite Hsplit. apply p1_docLoop_single; [discriminate|].
  rewrite (p1_docStep_header _ 0 [] tok v) by (reflexivity || assumption).
  unfold Parser1.parseLineAt.
  rewrite (p1_parseLine_scalar _ _ _ 0 tok v) by (reflexivity || assumption).
  reflexivity.
Qed.

Lemma p1_parse_scalar_line_witness :
  Parser1.parse ("color!hex" ++ " " ++ "#fff # not a comment ") =
    Ok [Parser1.mkNode "color" (Some "hex") (Scalar "#fff # not a comment ")].
Proof.
  apply (p1_parse_scalar_line "color!hex" "#fff # not a comment "); reflexivity.
Defined.

(** ** Blocks of [Parser1] *)

Lemma nth_after (pre : list string) (l : string) (rest : list string) :
  nth (List.length pre) (pre ++ l :: rest) "" = l.
Proof. rewrite app_nth2, Nat.sub_diag by lia. reflexivity. Qed.

Lemma eqb_cons (a b : ascii) (r s : string) :
  (String a r =? String b s) = Ascii.eqb a b && (r =? s).
Proof. reflexivity. Qed.

Lemma passedOver_parts (text mark : string) (c : ascii) :
  passedOver text = true -> Ascii.eqb c "#" = false ->
  isEmpty text = false
  /\ (isEmpty (trim text) || startsWith (trim text) "#") = true
  /\ (trim text =? String c "") = false.
Proof.
  unfold passedOver. intros H Hc. apply andb_true_iff in H as [H1 H2].
  apply negb_true_iff in H1. repeat split; try assumption.
  destruct (trim text) as [|a r]; [reflexivity|].
  simpl in H2. rewrite startsWith_cons in H2. apply andb_true_iff in H2 as [Ha _].
  apply Ascii.eqb_eq in Ha. subst a.
  rewrite eqb_cons, Ascii.eqb_sym, Hc. reflexivity.
Qed.

Lemma entry_line_parts (tok v : string) (c : ascii) :
  keyToken tok = true -> scalarText v = true ->
  isEmpty (tok ++ String " " v) = false
  /\ (isEmpty (trim (tok ++ String " " v))
      || startsWith (trim (tok ++ String " " v)) "#") = false
  /\ (trim (tok ++ String " " v) =? String c "") = false.
Proof.
  intros Ht Hv. destruct (scalarText_parts v Hv) as (Hh & _).
  split; [apply header_line_nonempty; exact Ht|].
  destruct (header_line_trim tok v Ht Hh) as (a & r & -> & Ha & Hc & Hne & _).
  rewrite startsWith_cons, Hc. split; [reflexivity|].
  rewrite eqb_cons. destruct r; [discriminate|]. apply andb_false_r.
Qed.

Lemma closes_nonempty (mark : ascii) (c : string) :
  trim c = String mark "" -> isEmpty c = false.
Proof. destruct c; [discriminate | reflexivity]. Qed.

Lemma indentedText_parts (mark text : string) :
  indentedText mark text = true ->
  (exists c r, text = String c r /\ isSpace c = true)
  /\ (isEmpty (trim text) || startsWith (trim text) "#") = false
  /\ (trim text =? mark) = false.
Proof.
  unfold indentedText. intros H.
  apply andb_true_iff in H as [H H3]. apply andb_true_iff in H as [H1 H2].
  apply negb_true_iff in H2, H3. repeat split; try assumption.
  destruct text as [|c r]; [discriminate|]. exists c, r. split; [reflexivity | exact H1].
Qed.

(** The generic line parser on an indented line: the header pattern does
    not match, so the whole trimmed line is the key token and the value is
    empty. *)
Lemma p1_parseLine_indented (lines : list string)
    (pb pl : nat -> result (Value * nat)) (i : nat) (c : ascii) (r : string) :
  nth i lines "" = String c r ->
  isSpace c = true ->
  Parser1.parseLine lines pb pl i =
    Ok (nodeOf (trim (String c r)) (Scalar ""), i + 1).
Proof.
  intros Hline Hc. unfold Parser1.parseLine, nodeOf. rewrite Hline.
  unfold Parser1.splitKeyValue, Parser1.matchHeader.
  simpl takeWhile. rewrite Hc. simpl.
  destruct (Parser1.parseKeyAndType (trim (String c r))) as [k ty]. reflexivity.
Qed.

(** The block loop over a body of entries and passed-over lines: it makes
    the assignments in order and stops after the closing line, or at the end
    of the lines. *)
Lemma p1_blockLoop_flat (body : list BlockLine) :
  forall (pre tail : list string) (acc : Entries) (fuel : nat),
    forallb blockLineOk body = true ->
    closes "}" tail ->
    List.length body < fuel ->
    Parser1.blockLoop fuel (pre ++ map renderBlockLine body ++ tail)
      (List.length pre) acc =
    Ok (Block (fold_left assignLine body acc),
        List.length pre + List.length body + closerWidth tail).
Proof.
  induction body as [|l body IH]; intros pre tail acc fuel Hok Hc Hf;
    (destruct fuel as [|f]; [lia|]); simpl map; simpl fold_left; simpl List.length.
  - simpl app. simpl Parser1.blockLoop. destruct tail as [|c post].
    + rewrite app_nil_r, Nat.ltb_irrefl. simpl. do 3 f_equal. lia.
    + simpl in Hc. rewrite List.length_app. simpl List.length.
      destruct (Nat.ltb_spec (List.length pre) (List.length pre + S (List.length post)));
        [|lia].
      rewrite nth_after, (closes_nonempty "}" c Hc), Hc. simpl. do 3 f_equal. lia.
  - simpl in Hok, Hf. apply andb_true_iff in Hok as [Hl Hok].
    simpl app. simpl Parser1.blockLoop.
    rewrite List.length_app. simpl List.length.
    destruct (Nat.ltb_spec (List.length pre)
                (List.length pre
                 + S (List.length (map renderBlockLine body ++ tail)))); [|lia].
    rewrite nth_after.
    assert (Hnext : forall acc',
      Parser1.blockLoop f (pre ++ renderBlockLine l :: map renderBlockLine body ++ tail)
        (List.length pre + 1) acc' =
      Ok (Block (fold_left assignLine body acc'),
          List.length pre + S (List.length body) + closerWidth tail)).
    { intros acc'.
      replace (pre ++ renderBlockLine l :: map renderBlockLine body ++ tail)%list
        with ((pre ++ [renderBlockLine l]) ++ map renderBlockLine body ++ tail)%list
        by (rewrite <- app_assoc; reflexivity).
      replace (List.length pre + 1) with (List.length (pre ++ [renderBlockLine l])%list)
        by (rewrite List.length_app; reflexivity).
      rewrite IH by (assumption || lia).
      rewrite List.length_app. simpl. do 3 f_equal. lia. }
    destruct l as [tok v | text | text]; simpl in Hl; simpl renderBlockLine in *.
    + apply andb_true_iff in Hl as [Ht Hv].
      destruct (entry_line_parts tok v "}" Ht Hv) as (H1 & H2 & H3).
      rewrite H1, H3, H2.
      rewrite (p1_parseLine_scalar _ _ _ _ tok v)
        by (assumption || apply nth_after).
      unfold nodeOf. simpl assignLine.
      destruct (Parser1.parseKeyAndType tok) as [k ty]. simpl.
      apply Hnext.
    + destruct (indentedText_parts "}" text Hl) as ((c & r & -> & Hsp) & H2 & H3).
      rewrite H3, H2. simpl isEmpty. cbv iota.
      rewrite (p1_parseLine_indented _ _ _ _ c r) by (assumption || apply nth_after).
      unfold nodeOf. simpl assignLine.
      destruct (Parser1.parseKeyAndType (trim (String c r))) as [k ty]. simpl.
      apply Hnext.
    + destruct (passedOver_parts text "" "}" Hl eq_refl) as (H1 & H2 & H3).
      rewrite H1, H3, H2. apply Hnext.
Qed.

(** The generic line parser on the three opening headers. *)
Lemma p1_parseLine_open (lines : list string)
    (pb pl : nat -> result (Value * nat)) (i : nat) (tok rest : string) :
  nth i lines "" = tok ++ String " " rest ->
  keyToken tok = true ->
  headNonSpace rest = true ->
  existsChar isLineTerminator rest = false ->
  Parser1.parseLine lines pb pl i =
    (let* (value, nextIndex) :=
       Parser1.parseValue lines pb pl i rest (snd (Parser1.parseKeyAndType tok)) in
     Ok (nodeOf tok value, nextIndex)).
Proof.
  intros Hline Ht Hh Hlt. unfold Parser1.parseLine, nodeOf. rewrite Hline.
  rewrite p1_splitKeyValue_token; rewrite ?headNonSpace_dropWhile; try assumption.
  destruct (Parser1.parseKeyAndType tok) as [k ty]. reflexivity.
Qed.

Lemma endOfInput_closes (mark : string) (tail : list string) :
  endOfInput mark tail ->
  closes mark tail /\ closerWidth tail = List.length tail.
Proof.
  intros [-> | (c & -> & Hc)]; split; simpl; trivial.
Qed.

(** X4.  A block of scalar entries: after the header [key {], the entries
    are assigned in order, as assignments to a plain object: a line that
    starts at the first column assigns its scalar under its key, an indented
    line assigns the empty scalar under the key read from its whole trimmed
    text; lines of white space and comment lines are passed over, and the
    block ends at the closing brace or, without error, at the end of the
    input. *)
Theorem p1_parse_flat_block (input tok : string) (body : list BlockLine)
    (tail : list string) :
  split "010" input = ((tok ++ " {")%string :: map renderBlockLine body ++ tail)%list ->
  keyToken tok = true ->
  forallb blockLineOk body = true ->
  endOfInput "}" tail ->
  Parser1.parse input =
    Ok [nodeOf tok (Block (fold_left assignLine body []))].
Proof.
  intros Hsplit Ht Hok Hend.
  destruct (endOfInput_closes _ _ Hend) as [Hc Hw].
  unfold Parser1.parse, Parser1.parseDocument. rewrite Hsplit.
  set (lines := ((tok ++ " {")%string :: map renderBlockLine body ++ tail)%list).
  assert (Hlen : List.length lines = 1 + List.length body + closerWidth tail).
  { unfold lines. simpl. rewrite List.length_app, length_map, Hw. reflexivity. }
  apply p1_docLoop_single; [discriminate|].
  rewrite (p1_docStep_header lines 0 [] tok "{") by (reflexivity || assumption).
  unfold Parser1.parseLineAt.
  rewrite (p1_parseLine_open lines _ _ 0 tok "{") by (reflexivity || assumption).
  unfold Parser1.parseValue, Parser1.parseBlock.
  change (startsWith "{" "```") with false. change ("{" =? "{") with true. cbv iota.
  rewrite Hlen.
  change (0 + 1) with (List.length [(tok ++ " {")%string]).
  change lines with ([(tok ++ " {")%string] ++ map renderBlockLine body ++ tail)%list.
  rewrite p1_blockLoop_flat by (assumption || lia).
  reflexivity.
Qed.

Lemma p1_parse_flat_block_witness :
  Parser1.parse
    ("server {" ++ LF ++ "host localhost" ++ LF ++ "  " ++ LF ++ "# port" ++ LF
     ++ "port!int 80" ++ LF ++ "host example.org" ++ LF ++ "  tls on" ++ LF
     ++ "  } ") =
    Ok [Parser1.mkNode "server" None
          (Block [("host", Scalar "example.org"); ("port", Scalar "80");
                  ("tls on", Scalar "")])].
Proof.
  apply (p1_parse_flat_block _ "server"
           [Entry "host" "localhost"; Ignored "  "; Ignored "# port";
            Entry "port!int" "80"; Entry "host" "example.org";
            Indented "  tls on"]
           ["  } "]).
  - reflexivity.
  - reflexivity.
  - reflexivity.
  - right. exists "  } ". split; reflexivity.
Defined.

(** ** Lists and multiline values of [Parser1] *)

Lemma trim_nonempty_line (text : string) :
  isEmpty (trim text) = false -> isEmpty text = false.
Proof. destruct text; [discriminate | reflexivity]. Qed.

Lemma p1_listLoop_flat (body : list ListLine) :
  forall (pre tail : list string) (acc : list Value) (fuel : nat),
    forallb listLineOk body = true ->
    closes "]" tail ->
    List.length body < fuel ->
    Parser1.listLoop fuel (pre ++ map renderListLine body ++ tail)
      (List.length pre) acc =
    Ok (List (acc ++ flat_map listLineValues body),
        List.length pre + List.length body + closerWidth tail).
Proof.
  induction body as [|l body IH]; intros pre tail acc fuel Hok Hc Hf;
    (destruct fuel as [|f]; [lia|]); simpl map; simpl flat_map; simpl List.length.
  - simpl app. simpl Parser1.listLoop. rewrite app_nil_r. destruct tail as [|c post].
    + rewrite app_nil_r, Nat.ltb_irrefl. simpl. do 3 f_equal. lia.
    + simpl in Hc. rewrite List.length_app. simpl List.length.
      destruct (Nat.ltb_spec (List.length pre) (List.length pre + S (List.length post)));
        [|lia].
      rewrite nth_after, (closes_nonempty "]" c Hc), Hc. simpl. do 3 f_equal. lia.
  - simpl in Hok, Hf. apply andb_true_iff in Hok as [Hl Hok].
    simpl app. simpl Parser1.listLoop.
    rewrite List.length_app. simpl List.length.
    destruct (Nat.ltb_spec (List.length pre)
                (List.length pre
                 + S (List.length (map renderListLine body ++ tail)))); [|lia].
    rewrite nth_after.
    assert (Hnext : forall acc',
      Parser1.listLoop f (pre ++ renderListLine l :: map renderListLine body ++ tail)
        (List.length pre + 1) acc' =
      Ok (List (acc' ++ flat_map listLineValues body),
          List.length pre + S (List.length body) + closerWidth tail)).
    { intros acc'.
      replace (pre ++ renderListLine l :: map renderListLine body ++ tail)%list
        with ((pre ++ [renderListLine l]) ++ map renderListLine body ++ tail)%list
        by (rewrite <- app_assoc; reflexivity).
      replace (List.length pre + 1) with (List.length (pre ++ [renderListLine l])%list)
        by (rewrite List.length_app; reflexivity).
      rewrite IH by (assumption || lia).
      rewrite List.length_app. simpl. do 3 f_equal. lia. }
    destruct l as [text | text | text]; simpl in Hl; simpl renderListLine;
      simpl listLineValues.
    + repeat (apply andb_true_iff in Hl as [Hl ?]).
      repeat match goal with X : negb _ = true |- _ => apply negb_true_iff in X end.
      rewrite (trim_nonempty_line text Hl).
      match goal with X : (trim text =? "]") = false |- _ => rewrite X end.
      match goal with X : startsWith (trim text) "#" = false |- _ => rewrite X end.
      match goal with X : startsWith (trim text) "[" && _ = false |- _ => rewrite X end.
      match goal with X : (trim text =? "{") = false |- _ => rewrite X end.
      rewrite Hl. simpl orb. cbv iota. rewrite Hnext, <- app_assoc. reflexivity.
    + pose proof Hl as Hrow. apply andb_true_iff in Hl as [Hs He].
      destruct (trim text) as [|a r] eqn:Et; [discriminate|].
      rewrite startsWith_cons in Hs. apply andb_true_iff in Hs as [Ha _].
      apply Ascii.eqb_eq in Ha. subst a.
      assert (Hne : isEmpty text = false) by (destruct text; [discriminate | reflexivity]).
      rewrite Hne, Hrow. rewrite eqb_cons, startsWith_cons. simpl.
      rewrite Hnext, <- app_assoc. reflexivity.
    + destruct (passedOver_parts text "" "]" Hl eq_refl) as (H1 & H2 & H3).
      rewrite H1, H3, H2. apply Hnext.
Qed.

(** X5.  A list of scalar items: after the header [key [], every item line
    adds its trimmed text as a scalar, as written otherwise (no quote is
    removed, no type annotation is split off), a bracketed line adds its
    inline list as one element, lines of white space and comment lines are
    passed over, and the list ends at the closing bracket or, without error,
    at the end of the input. *)
Theorem p1_parse_flat_list (input tok : string) (body : list ListLine)
    (tail : list string) :
  split "010" input = ((tok ++ " [")%string :: map renderListLine body ++ tail)%list ->
  keyToken tok = true ->
  forallb listLineOk body = true ->
  endOfInput "]" tail ->
  Parser1.parse input = Ok [nodeOf tok (List (flat_map listLineValues body))].
Proof.
  intros Hsplit Ht Hok Hend.
  destruct (endOfInput_closes _ _ Hend) as [Hc Hw].
  unfold Parser1.parse, Parser1.parseDocument. rewrite Hsplit.
  set (lines := ((tok ++ " [")%string :: map renderListLine body ++ tail)%list).
  assert (Hlen : List.length lines = 1 + List.length body + closerWidth tail).
  { unfold lines. simpl. rewrite List.length_app, length_map, Hw. reflexivity. }
  apply p1_docLoop_single; [discriminate|].
  rewrite (p1_docStep_header lines 0 [] tok "[") by (reflexivity || assumption).
  unfold Parser1.parseLineAt.
  rewrite (p1_parseLine_open lines _ _ 0 tok "[") by (reflexivity || assumption).
  unfold Parser1.parseValue, Parser1.parseList.
  change (startsWith "[" "```") with false. change ("[" =? "{") with false.
  change ("[" =? "[") with true. cbv iota.
  rewrite Hlen.
  change (0 + 1) with (List.length [(tok ++ " [")%string]).
  change lines with ([(tok ++ " [")%string] ++ map renderListLine body ++ tail)%list.
  rewrite p1_listLoop_flat by (assumption || lia).
  reflexivity.
Qed.

Lemma p1_parse_flat_list_witness :
  Parser1.parse
    ("fruits!list [" ++ LF ++ "  apple " ++ LF ++ "# comment" ++ LF
     ++ "[1, 2]" ++ LF ++ "name!x value" ++ LF ++ "]") =
    Ok [Parser1.mkNode "fruits" (Some "list")
          (List [Scalar "apple"; List [Scalar "1"; Scalar "2"];
                 Scalar "name!x value"])].
Proof.
  apply (p1_parse_flat_list _ "fruits!list"
           [Item "  apple "; Skipped "# comment"; Row "[1, 2]"; Item "name!x value"]
           ["]"]).
  - reflexivity.
  - reflexivity.
  - reflexivity.
  - right. exists "]". split; reflexivity.
Defined.

(** The accumulation of a multiline body up to the closing fence or the end
    of the lines. *)
Lemma p1_multilineLoop_body (body : list string) :
  forall (tail content : list string) (i : nat),
    forallb textLine body = true ->
    closes "```" tail ->
    Parser1.multilineLoop (body ++ tail) i content =
      ((content ++ body)%list, i + List.length body + closerWidth tail).
Proof.
  induction body as [|line body IH]; intros tail content i Hok Hc; simpl.
  - rewrite app_nil_r. destruct tail as [|c post]; simpl.
    + f_equal. lia.
    + simpl in Hc. assert (Hne : isEmpty c = false)
        by (destruct c; [discriminate | reflexivity]).
      rewrite Hne, Hc. simpl. f_equal. lia.
  - simpl in Hok. apply andb_true_iff in Hok as [Hl Hok].
    unfold textLine in Hl. apply andb_true_iff in Hl as [H1 H2].
    apply negb_true_iff in H1, H2. rewrite H1, H2, IH by assumption.
    rewrite <- app_assoc. simpl. f_equal. lia.
Qed.

(** X6.  A multiline value: after a header whose remainder starts with three
    backquotes (whatever follows them on the line), the body lines are kept
    as written and joined with line feeds, up to a line that trims to three
    backquotes or, without error, to the end of the input; a key without
    type annotation leaves the text as it is. *)
Theorem p1_parse_multiline (input key hint : string) (body tail : list string) :
  split "010" input = ((key ++ " ```" ++ hint)%string :: body ++ tail)%list ->
  plainKey key ->
  existsChar isLineTerminator hint = false ->
  forallb textLine body = true ->
  endOfInput "```" tail ->
  Parser1.parse input = Ok [Parser1.mkNode key None (Scalar (join LF body))].
Proof.
  intros Hsplit (Hne & Hsp & Hc0 & Hbang) Hhint Hok Hend.
  destruct (endOfInput_closes _ _ Hend) as [Hc Hw].
  assert (Ht : keyToken key = true).
  { unfold keyToken. rewrite Hne, Hsp, Hc0. reflexivity. }
  unfold Parser1.parse, Parser1.parseDocument. rewrite Hsplit.
  set (lines := ((key ++ " ```" ++ hint)%string :: body ++ tail)%list).
  assert (Hlen : List.length lines = 1 + List.length body + closerWidth tail).
  { unfold lines. simpl. rewrite List.length_app, Hw. reflexivity. }
  apply p1_docLoop_single; [discriminate|].
  change (key ++ " ```" ++ hint) with (key ++ String " " ("```" ++ hint)) in lines.
  rewrite (p1_docStep_header lines 0 [] key ("```" ++ hint))
    by (reflexivity || assumption).
  unfold Parser1.parseLineAt.
  rewrite (p1_parseLine_open lines _ _ 0 key ("```" ++ hint))
    by (reflexivity || assumption).
  unfold nodeOf, Parser1.parseKeyAndType, indexOf.
  rewrite findIndex_none by exact Hbang. simpl snd.
  unfold Parser1.parseValue. rewrite startsWith_app_prefix.
  unfold Parser1.parseMultiline. simpl skipn.
  rewrite p1_multilineLoop_body by assumption.
  rewrite Hlen. reflexivity.
Qed.

Lemma p1_parse_multiline_witness :
  Parser1.parse
    ("description ```text" ++ LF ++ "  Line 1" ++ LF ++ "# Line 2" ++ LF
     ++ "key value  " ++ LF ++ " ``` ") =
    Ok [Parser1.mkNode "description" None
          (Scalar ("  Line 1" ++ LF ++ "# Line 2" ++ LF ++ "key value  "))].
Proof.
  apply (p1_parse_multiline _ "description" "text"
           ["  Line 1"; "# Line 2"; "key value  "] [" ``` "]).
  - reflexivity.
  - repeat split.
  - reflexivity.
  - reflexivity.
  - right. exists " ``` ". split; reflexivity.
Defined.

(** ** The call stack of [Parser1] *)

(** A result on the bounded stack is the result on the unbounded one. *)
Lemma p1_parseLine_sound (lines : list string)
    (pbW plW pb pl : nat -> result (Value * nat)) (i : nat) :
  (forall j r, pbW j = Ok r -> pb j = Ok r) ->
  (forall j r, plW j = Ok r -> pl j = Ok r) ->
  forall x, Parser1.parseLine lines pbW plW i = Ok x ->
            Parser1.parseLine lines pb pl i = Ok x.
Proof.
  intros Hb Hl x. unfold Parser1.parseLine.
  destruct (Parser1.splitKeyValue (nth i lines "")) as [keyPart valPart].
  destruct (Parser1.parseKeyAndType keyPart) as [k ty].
  unfold Parser1.parseValue.
  destruct (startsWith valPart "```"); [trivial|].
  destruct (valPart =? "{").
  { destruct (pbW (i + 1)) as [r| |] eqn:E; simpl; try discriminate.
    rewrite (Hb _ _ E). trivial. }
  destruct (valPart =? "["); [|trivial].
  destruct (plW (i + 1)) as [r| |] eqn:E; simpl; try discriminate.
  rewrite (Hl _ _ E). trivial.
Qed.

Lemma p1_loopsWithin_sound (lines : list string) :
  forall fuel,
    (forall capacity i block r,
       Parser1.blockLoopWithin fuel capacity lines i block = Ok r ->
       Parser1.blockLoop fuel lines i block = Ok r)
    /\
    (forall capacity i list r,
       Parser1.listLoopWithin fuel capacity lines i list = Ok r ->
       Parser1.listLoop fuel lines i list = Ok r).
Proof.
  induction fuel as [|f [IHb IHl]]; split; intros capacity i acc r H;
    simpl in H; try discriminate; simpl.
  - destruct (i <? List.length lines)%nat; [|exact H].
    destruct (isEmpty (nth i lines "")); [exact H|].
    destruct (trim (nth i lines "") =? "}"); [exact H|].
    destruct (isEmpty (trim (nth i lines "")) || startsWith (trim (nth i lines "")) "#");
      [exact (IHb _ _ _ _ H)|].
    destruct (Parser1.parseLine lines _ _ i) as [[node next]| |] eqn:E in H;
      simpl in H; try discriminate.
    assert (E' : Parser1.parseLine lines
                   (fun j => Parser1.blockLoop f lines j [])
                   (fun j => Parser1.listLoop f lines j []) i = Ok (node, next)).
    { eapply p1_parseLine_sound; [| |exact E]; intros j x Hx;
        (destruct capacity; [discriminate|]).
      - exact (IHb _ _ _ _ Hx).
      - exact (IHl _ _ _ _ Hx). }
    rewrite E'. simpl. exact (IHb _ _ _ _ H).
  - destruct (i <? List.length lines)%nat; [|exact H].
    destruct (isEmpty (nth i lines "")); [exact H|].
    destruct (trim (nth i lines "") =? "]"); [exact H|].
    destruct (isEmpty (trim (nth i lines "")) || startsWith (trim (nth i lines "")) "#");
      [exact (IHl _ _ _ _ H)|].
    destruct (startsWith (trim (nth i lines "")) "[" && endsWith (trim (nth i lines "")) "]");
      [exact (IHl _ _ _ _ H)|].
    destruct (trim (nth i lines "") =? "{"); [|exact (IHl _ _ _ _ H)].
    destruct capacity as [|c]; [discriminate|].
    destruct (Parser1.blockLoopWithin f c lines (i + 1) []) as [[v next]| |] eqn:E;
      simpl in H; try discriminate.
    rewrite (IHb _ _ _ _ E). simpl. exact (IHl _ _ _ _ H).
Qed.

Lemma p1_docLoopWithin_sound (lines : list string) (capacity : nat) :
  forall fuel i nodes doc,
    Parser1.docLoopWithin fuel capacity lines i nodes = Ok doc ->
    Parser1.docLoop fuel lines i nodes = Ok doc.
Proof.
  induction fuel as [|f IH]; intros i nodes doc H; simpl in H; simpl;
    destruct (i <? List.length lines)%nat; try discriminate; try exact H.
  unfold Parser1.docStepWithin in H. unfold Parser1.docStep.
  destruct (isEmpty (nth i lines "")); [exact (IH _ _ _ H)|].
  destruct (isEmpty (trim (nth i lines "")) || startsWith (trim (nth i lines "")) "#");
    [exact (IH _ _ _ H)|].
  destruct (Parser1.parseLineWithin capacity lines i) as [[node next]| |] eqn:E;
    simpl in H; try discriminate.
  unfold Parser1.parseLineWithin in E. unfold Parser1.parseLineAt.
  destruct (p1_loopsWithin_sound lines (S (List.length lines))) as [Hb Hl].
  assert (E' : Parser1.parseLine lines
                 (Parser1.parseBlock (S (List.length lines)) lines)
                 (Parser1.parseList (S (List.length lines)) lines) i = Ok (node, next)).
  { eapply p1_parseLine_sound; [| |exact E]; intros j x Hx.
    - unfold Parser1.parseBlockWithin in Hx.
      destruct capacity; [discriminate|]. exact (Hb _ _ _ _ Hx).
    - unfold Parser1.parseListWithin in Hx.
      destruct capacity; [discriminate|]. exact (Hl _ _ _ _ Hx). }
  rewrite E'. simpl. exact (IH _ _ _ H).
Qed.

(** Whatever the bounded stack returns, the unbounded one returns. *)
Lemma p1_parseWithin_sound (capacity : nat) (input : string) (doc : Parser1.Document) :
  Parser1.parseWithin capacity input = Ok doc -> Parser1.parse input = Ok doc.
Proof. apply p1_docLoopWithin_sound. Qed.







(** *** Blocks nested deeper than the stack holds *)






(** *** Blocks left open on a bounded stack *)











(** ** Empty documents and the number of nodes *)

Lemma p1_docStep_skipped (lines : list string) (i : nat) (nodes : list Parser1.Node) :
  topSkipped (nth i lines "") = true ->
  Parser1.docStep lines i nodes = Ok (i + 1, nodes).
Proof.
  unfold topSkipped, Parser1.docStep. intros H. rewrite H.
  destruct (isEmpty (nth i lines "")); reflexivity.
Qed.

Lemma p1_docStep_node (lines : list string) (i : nat) (nodes : list Parser1.Node) :
  i < List.length lines ->
  topSkipped (nth i lines "") = false ->
  exists node next,
    Parser1.docStep lines i nodes = Ok (next, (nodes ++ [node])%list)
    /\ i < next <= List.length lines.
Proof.
  unfold topSkipped, Parser1.docStep. intros Hi H. rewrite H.
  assert (Hne : isEmpty (nth i lines "") = false).
  { destruct (nth i lines ""); [discriminate | reflexivity]. }
  rewrite Hne.
  destruct (p1_parseLineAt_delivers lines i Hi) as (node & n & E & Hn).
  rewrite E. simpl. exists node, n. split; [reflexivity | lia].
Qed.

(** The nodes returned extend the nodes collected so far, by at most one per
    remaining line, and by none only if every remaining line is passed over. *)
Lemma p1_docLoop_grows (lines : list string) :
  forall fuel i nodes doc,
    Parser1.docLoop fuel lines i nodes = Ok doc ->
    exists more,
      doc = (nodes ++ more)%list
      /\ List.length more <= List.length lines - i
      /\ (more = [] ->
          forall j, i <= j < List.length lines -> topSkipped (nth j lines "") = true).
Proof.
  induction fuel as [|f IH]; intros i nodes doc H; simpl in H;
    destruct (Nat.ltb_spec i (List.length lines)) as [Hi|Hi];
    try discriminate;
    try (inversion H; subst; exists []; rewrite app_nil_r;
         repeat split; [simpl; lia | intros _ j Hj; lia]).
  destruct (topSkipped (nth i lines "")) eqn:Es.
  - rewrite (p1_docStep_skipped _ _ _ Es) in H. simpl in H.
    destruct (IH _ _ _ H) as (more & -> & Hlen & Hall).
    exists more. repeat split; [lia|].
    intros Hm j Hj. destruct (Nat.eq_dec j i) as [->|Hne]; [exact Es|].
    apply Hall; [exact Hm | lia].
  - destruct (p1_docStep_node lines i nodes Hi Es) as (node & next & E & Hn).
    rewrite E in H. simpl in H.
    destruct (IH _ _ _ H) as (more & -> & Hlen & _).
    exists (node :: more). rewrite <- app_assoc. repeat split.
    + simpl. lia.
    + discriminate.
Qed.

Lemma p1_docLoop_all_skipped (lines : list string) :
  forallb topSkipped lines = true ->
  forall fuel i nodes,
    List.length lines - i <= fuel ->
    Parser1.docLoop fuel lines i nodes = Ok nodes.
Proof.
  intros Hall. induction fuel as [|f IH]; intros i nodes Hf; simpl;
    destruct (Nat.ltb_spec i (List.length lines)) as [Hi|Hi];
    try reflexivity; try lia.
  rewrite p1_docStep_skipped.
  - simpl. apply IH. lia.
  - rewrite forallb_forall in Hall. apply Hall, nth_In, Hi.
Qed.

Lemma p1_docLoopWithin_all_skipped (lines : list string) :
  forallb topSkipped lines = true ->
  forall fuel capacity i nodes,
    List.length lines - i <= fuel ->
    Parser1.docLoopWithin fuel capacity lines i nodes = Ok nodes.
Proof.
  intros Hall. induction fuel as [|f IH]; intros capacity i nodes Hf; simpl;
    destruct (Nat.ltb_spec i (List.length lines)) as [Hi|Hi];
    try reflexivity; try lia.
  assert (Hs : topSkipped (nth i lines "") = true).
  { rewrite forallb_forall in Hall. apply Hall, nth_In, Hi. }
  unfold Parser1.docStepWithin. unfold topSkipped in Hs. rewrite Hs.
  destruct (isEmpty (nth i lines "")); simpl; apply IH; lia.
Qed.

(** X7.  Whenever [parse] returns a document, the document is empty exactly
    when every line of the input is blank or a comment; and an input of such
    lines gives the empty document on every call stack, since no line of it
    is parsed. *)
Theorem p1_document_empty_iff (input : string) :
  (forall capacity doc,
      Parser1.parseWithin capacity input = Ok doc ->
      (documentIsEmpty doc = true <->
       forallb topSkipped (split "010" input) = true))
  /\ (forallb topSkipped (split "010" input) = true ->
      forall capacity, Parser1.parseWithin capacity input = Ok []).
Proof.
  split.
  - intros capacity doc Hdoc. apply p1_parseWithin_sound in Hdoc.
    unfold Parser1.parse, Parser1.parseDocument in Hdoc. split.
    + intros He.
      destruct (p1_docLoop_grows _ _ _ _ _ Hdoc) as (more & -> & _ & Hall).
      simpl in He. destruct more; [|discriminate].
      apply forallb_forall. intros line Hin.
      destruct (In_nth _ _ "" Hin) as (j & Hj & <-).
      apply Hall; [reflexivity | lia].
    + intros Hall.
      rewrite (p1_docLoop_all_skipped _ Hall) in Hdoc by lia.
      inversion Hdoc. reflexivity.
  - intros Hall capacity. unfold Parser1.parseWithin.
    apply p1_docLoopWithin_all_skipped; [exact Hall | lia].
Qed.

(** The instance of X7 for a comment, an empty line and a line of spaces,
    on a stack that holds no nested activation. *)
Lemma p1_document_empty_iff_witness :
  Parser1.parseWithin 0 ("# note" ++ LF ++ LF ++ "   ") = Ok [].
Proof.
  apply (proj2 (p1_document_empty_iff ("# note" ++ LF ++ LF ++ "   "))).
  reflexivity.
Defined.

(** X8.  The document never has more nodes than the input has lines. *)
Theorem p1_document_size (input : string) (doc : Parser1.Document) :
  Parser1.parse input = Ok doc ->
  List.length doc <= List.length (split "010" input).
Proof.
  unfold Parser1.parse, Parser1.parseDocument. intros H.
  destruct (p1_docLoop_grows _ _ _ _ _ H) as (more & -> & Hlen & _).
  simpl. lia.
Qed.

Lemma p1_document_size_witness :
  List.length [Parser1.mkNode "a" None (Block [("b", Scalar "c")])]
  <= List.length (split "010" ("a {" ++ LF ++ "b c")).
Proof.
  apply (p1_document_size ("a {" ++ LF ++ "b c")). reflexivity.
Defined.

(** ** Scalar headers of [Parser2] *)

Lemma traditionalToken_parts (tok : string) :
  traditionalToken tok = true ->
  keyToken tok = true /\ startsWith tok "!" = false /\ lineOrientedToken tok = false.
Proof.
  unfold traditionalToken. intros H.
  apply andb_true_iff in H as [H H3]. apply andb_true_iff in H as [H1 H2].
  apply negb_true_iff in H2, H3. repeat split; assumption.
Qed.

Lemma p2_splitKeyValue_traditional (tok rest : string) :
  traditionalToken tok = true ->
  headNonSpace rest = true ->
  existsChar isLineTerminator rest = false ->
  Parser2.splitKeyValue (tok ++ String " " rest) =
    Parser2.mkKeyValue tok (Parser2.stripSurroundingQuotes rest) false.
Proof.
  intros Ht Hh Hlt. destruct (traditionalToken_parts tok Ht) as (Hk & _ & Hlo).
  destruct (keyToken_parts tok Hk) as (Hne & Hsp & _).
  unfold Parser2.splitKeyValue, Parser2.matchHeader.
  rewrite matchHeader_token; rewrite ?headNonSpace_dropWhile; try assumption.
  unfold lineOrientedToken in Hlo. rewrite Hlo. reflexivity.
Qed.

Lemma startsWith_longer (s : string) (c : ascii) (p : string) :
  startsWith s (String c "") = false -> startsWith s (String c p) = false.
Proof.
  destruct s as [|a s]; [reflexivity|]. rewrite !startsWith_cons.
  intros H. apply andb_false_iff in H as [H|H]; [|discriminate].
  rewrite H. reflexivity.
Qed.

(** The driver of [Parser2] on a header line whose token does not start
    with an exclamation mark: the generic line parser runs on it. *)
Lemma p2_docStep_header (lines : list string) (i : nat) (nodes : list Parser2.Node)
    (tok rest : string) :
  nth i lines "" = tok ++ String " " rest ->
  keyToken tok = true -> startsWith tok "!" = false -> headNonSpace rest = true ->
  Parser2.docStep lines i nodes =
    (let* (node, nextIndex) := wrapLine (i + 1) (Parser2.parseLineAt lines i) in
     Ok (nextIndex, (nodes ++ [node])%list)).
Proof.
  intros Hline Ht Hb Hr. unfold Parser2.docStep. rewrite Hline.
  rewrite header_line_nonempty by exact Ht.
  destruct (header_line_trim tok rest Ht Hr)
    as (a & r & -> & Ha & Hc & Hne & tok' & ->).
  rewrite startsWith_cons in Hb. apply andb_false_iff in Hb as [Hb|Hb]; [|discriminate].
  rewrite !startsWith_cons, Hc, Hb. reflexivity.
Qed.

Lemma p2_docLoop_end (fuel : nat) (lines : list string) (i : nat)
    (nodes : list Parser2.Node) :
  List.length lines <= i -> Parser2.docLoop fuel lines i nodes = Ok nodes.
Proof.
  intros Hi. apply Nat.ltb_ge in Hi. destruct fuel; simpl; rewrite Hi; reflexivity.
Qed.

Lemma p2_docLoop_single (lines : list string) (nodes : list Parser2.Node) :
  lines <> [] ->
  Parser2.docStep lines 0 [] = Ok (List.length lines, nodes) ->
  Parser2.docLoop (List.length lines) lines 0 [] = Ok nodes.
Proof.
  intros Hne Hs. destruct (List.length lines) as [|n] eqn:El.
  - destruct lines; [contradiction | discriminate].
  - simpl. rewrite El, Hs. simpl. apply p2_docLoop_end. lia.
Qed.

Lemma scalarValue_parts (w : string) :
  scalarValue w = true ->
  startsWith w "```" = false
  /\ (w =? "{") = false
  /\ (w =? "[") = false
  /\ startsWith w "[" && endsWith w "]" = false
  /\ startsWith w "{" && includes w "}" = false.
Proof.
  unfold scalarValue. intros H.
  repeat (apply andb_true_iff in H as [H ?]).
  repeat match goal with X : negb _ = true |- _ => apply negb_true_iff in X end.
  repeat split; assumption.
Qed.

Lemma one_line_split (tok rest : string) :
  existsChar isSpace tok = false ->
  existsChar isLineTerminator rest = false ->
  split "010" (tok ++ String " " rest) = [tok ++ String " " rest].
Proof.
  intros Hsp Hlt. apply split_none. rewrite existsChar_app.
  rewrite (existsChar_weaken _ isSpace tok)
    by (exact Hsp || (intros c Hcc; apply lineTerminator_isSpace,
                      lineFeed_isLineTerminator, Hcc)).
  simpl. apply (existsChar_weaken _ isLineTerminator);
    [apply lineFeed_isLineTerminator | exact Hlt].
Qed.

(** X10.  In the traditional form of [Parser2] the remainder of a scalar
    header loses one surrounding pair of double quotes and nothing else: a
    number sign in it is kept, inside quotes or not. *)
Theorem p2_parse_traditional_scalar (tok v : string) :
  traditionalToken tok = true ->
  isQuotedType (snd (Parser2.parseKeyAndType tok)) = false ->
  headNonSpace v = true ->
  existsChar isLineTerminator v = false ->
  scalarValue (Parser2.stripSurroundingQuotes v) = true ->
  Parser2.parse (tok ++ " " ++ v) =
    Ok [nodeOf2 tok (Scalar (Parser2.stripSurroundingQuotes v))].
Proof.
  intros Ht Hq Hh Hlt Hv.
  destruct (traditionalToken_parts tok Ht) as (Hk & Hb & Hlo).
  destruct (keyToken_parts tok Hk) as (Hne & Hsp & _).
  destruct (scalarValue_parts _ Hv) as (H1 & H2 & H3 & H4 & H5).
  change (tok ++ " " ++ v) with (tok ++ String " " v).
  unfold Parser2.parse, Parser2.parseDocument.
  rewrite one_line_split by assumption.
  apply p2_docLoop_single; [discriminate|].
  rewrite (p2_docStep_header _ 0 [] tok v) by (reflexivity || assumption).
  unfold Parser2.parseLineAt, Parser2.parseLine, nodeOf2.
  change (nth 0 [tok ++ String " " v] "") with (tok ++ String " " v).
  rewrite p2_splitKeyValue_traditional by assumption.
  simpl Parser2.keyPart. simpl Parser2.valPart.
  destruct (Parser2.parseKeyAndType tok) as [k ty]. simpl in Hq.
  unfold isQuotedType in Hq. rewrite Hq.
  unfold Parser2.parseValue. rewrite H1, H2, H3, H4, H5. reflexivity.
Qed.

Lemma p2_parse_traditional_scalar_witness :
  Parser2.parse ("title" ++ " " ++ (DQ ++ "My # Config" ++ DQ)) =
    Ok [Parser2.mkNode "title" None (Scalar "My # Config")].
Proof.
  apply (p2_parse_traditional_scalar "title" (DQ ++ "My # Config" ++ DQ));
    reflexivity.
Defined.

(** ** Errors of [Parser2] *)

Lemma startsWith_lint_shape (t : string) :
  startsWith t "!lint" = true ->
  isEmpty t = false /\ startsWith t "#" = false.
Proof.
  destruct t as [|a t]; [discriminate|]. rewrite startsWith_cons.
  destruct (Ascii.eqb_spec a "!") as [->|]; [|discriminate].
  intros _. split; reflexivity.
Qed.

(** A malformed [!lint] line makes the driver throw the [!lint] message. *)
Lemma p2_docStep_lint (lines : list string) (i : nat) (nodes : list Parser2.Node) :
  badLintLine lines i ->
  Parser2.docStep lines i nodes = Throw Parser2.lintMessage.
Proof.
  intros (Huse & Hlint & Harg). unfold Parser2.docStep.
  destruct (startsWith_lint_shape _ Hlint) as (He & Hc).
  rewrite (trim_empty_line _ He), He, Hc, Huse, Hlint.
  unfold Parser2.parseLintDirective. rewrite Harg. reflexivity.
Qed.

Lemma p2_docStep_lint_inv (lines : list string) (i : nat) (nodes : list Parser2.Node) :
  i < List.length lines ->
  Parser2.docStep lines i nodes = Throw Parser2.lintMessage ->
  badLintLine lines i.
Proof.
  intros Hi. unfold badLintLine.
  destruct (startsWith (trim (nth i lines "")) "!use") eqn:Huse.
  { rewrite (p2_docStep_use lines i nodes Huse).
    unfold Parser2.parseUseDirective.
    destruct (startsWith _ "["); simpl; discriminate. }
  unfold Parser2.docStep. rewrite Huse.
  destruct (isEmpty (nth i lines "")); [discriminate|].
  destruct (isEmpty (trim (nth i lines "")) || startsWith (trim (nth i lines "")) "#");
    [discriminate|].
  destruct (startsWith (trim (nth i lines "")) "!lint").
  - unfold Parser2.parseLintDirective.
    destruct (trim (sliceFrom (trim (nth i lines "")) 5) =? "{").
    + unfold Parser2.parseBlock.
      destruct (p2_loops_deliver lines (S (List.length lines))) as [Hb _].
      destruct (Hb (i + 1) []) as (v & n & E & Hn); [lia | lia |].
      rewrite E. discriminate.
    + intros _. repeat split.
  - destruct (p2_parseLineAt_delivers lines i Hi) as (node & n & E & Hn).
    rewrite E. discriminate.
Qed.

(** X12.  [Parser2.parse] throws the [!lint] message exactly when the
    driver reaches, at top level, a line whose trimmed text starts with
    [!lint] (and not with [!use]) and whose text after these five
    characters is not, once trimmed, the lone opening brace. *)
Theorem p2_lint_error_iff (input : string) :
  Parser2.parse input = Throw Parser2.lintMessage <->
  exists i, topLevel (split "010" input) i /\ badLintLine (split "010" input) i.
Proof.
  unfold Parser2.parse, Parser2.parseDocument.
  set (lines := split "010" input). split.
  - intros H. apply p2_docLoop_throw_inv in H.
    destruct H as (j & nodesj & Hs & Hj & Ej).
    exists j. split; [split; [exact Hj | exists nodesj; exact Hs]|].
    exact (p2_docStep_lint_inv lines j nodesj Hj Ej).
  - intros (i & [Hi [nodes Hs]] & Hbad).
    eapply p2_docLoop_throw; [exact Hs | exact Hi | | lia].
    apply p2_docStep_lint, Hbad.
Qed.

(** ** The [!use] directive *)

Lemma toStringJS_scalars (items : list string) :
  map Parser2.toStringJS (map Scalar items) = items.
Proof.
  induction items as [|x xs IH]; simpl; [reflexivity | rewrite IH; reflexivity].
Qed.

Lemma parseUseDirective_bracketed (content : string) :
  Parser2.parseUseDirective ("!use [" ++ content ++ "]") =
    Ok (Parser2.mkNode "_use" (Some "directive")
          (UseDirective (namespacesOf content))).
Proof.
  unfold Parser2.parseUseDirective.
  change ("!use [" ++ content ++ "]")
    with (String "!" (("use [" ++ content) ++ String "]" "")).
  rewrite trim_between by reflexivity.
  change (sliceFrom (String "!" (("use [" ++ content) ++ String "]" "")) 4)
    with (sliceFrom ("!use" ++ (String " " (String "[" (content ++ "]")))) 
            (Z.of_nat (String.length "!use"))).
  rewrite sliceFrom_suffix.
  change (String " " (String "[" (content ++ "]")))
    with (" " ++ String "[" (content ++ String "]" "")).
  assert (Ht : trim (" " ++ String "[" (content ++ String "]" ""))
               = String "[" (content ++ String "]" "")).
  { change (trim (" " ++ String "[" (content ++ String "]" "")))
      with (trim (String "[" (content ++ String "]" ""))).
    apply trim_between; reflexivity. }
  rewrite Ht. rewrite startsWith_cons. simpl andb. cbv iota.
  unfold Parser2.parseInlineList.
  change (String "[" (content ++ String "]" "")) with ("[" ++ content ++ "]").
  rewrite parseInlineList_bracketed. unfold namespacesOf.
  destruct (isEmpty (trim content)); [reflexivity|].
  rewrite <- (map_map trim Scalar), toStringJS_scalars. reflexivity.
Qed.

(** X13.  A one-line input [!use [content]] parses to the single node
    [_use] of type [directive] whose namespaces are the comma-separated
    pieces of the content, each trimmed; a blank content gives none. *)
Theorem p2_parse_use_line (content : string) :
  existsChar isLineTerminator content = false ->
  Parser2.parse ("!use [" ++ content ++ "]") =
    Ok [Parser2.mkNode "_use" (Some "directive")
          (UseDirective (namespacesOf content))].
Proof.
  intros Hlt. unfold Parser2.parse, Parser2.parseDocument.
  set (line := "!use [" ++ content ++ "]").
  assert (Hsplit : split "010" line = [line]).
  { apply split_none. unfold line.
    change ("!use [" ++ content ++ "]")
      with (String "!" (String "u" (String "s" (String "e"
             (String " " (String "[" (content ++ "]"))))))).
    cbn [existsChar]. rewrite existsChar_app.
    rewrite (existsChar_weaken _ isLineTerminator content)
      by (exact Hlt || apply lineFeed_isLineTerminator).
    reflexivity. }
  rewrite Hsplit. apply p2_docLoop_single; [discriminate|].
  assert (Htrim : trim line = line).
  { unfold line.
    change ("!use [" ++ content ++ "]")
      with (String "!" (("use [" ++ content) ++ String "]" "")).
    apply trim_between; reflexivity. }
  assert (Huse : isUseLine [line] 0).
  { unfold isUseLine. change (nth 0 [line] "") with line. rewrite Htrim.
    reflexivity. }
  rewrite (p2_docStep_use [line] 0 [] Huse).
  change (nth 0 [line] "") with line. rewrite Htrim. unfold line.
  rewrite parseUseDirective_bracketed. reflexivity.
Qed.

Lemma p2_parse_use_line_witness :
  Parser2.parse ("!use [" ++ " core ,net" ++ "]") =
    Ok [Parser2.mkNode "_use" (Some "directive") (UseDirective ["core"; "net"])].
Proof. apply (p2_parse_use_line " core ,net"). reflexivity. Defined.

(** ** Headers of type [quoted], on a whole line *)

Lemma keyToken_quoted (key : string) :
  plainKey key -> keyToken (key ++ "!quoted") = true.
Proof.
  intros (Hne & Hsp & Hc & _). unfold keyToken.
  destruct key as [|a key]; [discriminate|].
  change (String a key ++ "!quoted") with (String a (key ++ "!quoted")).
  rewrite startsWith_cons in Hc.
  apply andb_false_iff in Hc as [Hc|Hc]; [|discriminate].
  rewrite startsWith_cons, Hc.
  change (String a (key ++ "!quoted")) with (String a key ++ "!quoted").
  rewrite existsChar_app, Hsp. reflexivity.
Qed.

Lemma traditionalToken_quoted (key : string) :
  plainKey key -> traditionalToken (key ++ "!quoted") = true.
Proof.
  intros Hk. unfold traditionalToken. rewrite (keyToken_quoted key Hk).
  destruct Hk as (Hne & Hsp & Hc & Hb).
  assert (H1 : startsWith (key ++ "!quoted") "!" = false).
  { destruct key as [|a key]; [discriminate|].
    change (String a key ++ "!quoted") with (String a (key ++ "!quoted")).
    change (Ascii.eqb "!" a || existsChar (Ascii.eqb "!") key = false) in Hb.
    apply orb_false_iff in Hb as [Hb _]. rewrite Ascii.eqb_sym in Hb.
    rewrite startsWith_cons, Hb. reflexivity. }
  assert (H2 : endsWith (key ++ "!quoted") ":" = false).
  { change "!quoted" with ("!quote" ++ String "d" "").
    rewrite <- append_assoc.
    set (u := key ++ "!quote"). unfold endsWith.
    rewrite length_snoc. simpl String.length.
    replace (S (String.length u) - 1) with (String.length u + 0) by lia.
    change (1 <=? S (String.length u))%nat with true.
    rewrite Nat.add_0_r.
    replace (substring (String.length u) 1 (u ++ String "d" "")) with (String "d" "").
    - reflexivity.
    - clear. induction u as [|c u IH]; [reflexivity | exact IH]. }
  rewrite H1. unfold lineOrientedToken. rewrite H2. reflexivity.
Qed.

(** The generic line parser of [Parser2] on a one-line document. *)
Lemma p2_parse_one_line (tok rest : string) (node : Parser2.Node) :
  traditionalToken tok = true ->
  headNonSpace rest = true ->
  existsChar isLineTerminator rest = false ->
  (forall pb pl,
      Parser2.parseLine [tok ++ String " " rest] pb pl 0 = Ok (node, 1)) ->
  Parser2.parse (tok ++ String " " rest) = Ok [node].
Proof.
  intros Ht Hh Hlt Hline.
  destruct (traditionalToken_parts tok Ht) as (Hk & Hb & Hlo).
  destruct (keyToken_parts tok Hk) as (Hne & Hsp & _).
  unfold Parser2.parse, Parser2.parseDocument.
  rewrite one_line_split by assumption.
  apply p2_docLoop_single; [discriminate|].
  rewrite (p2_docStep_header _ 0 [] tok rest) by (reflexivity || assumption).
  unfold Parser2.parseLineAt. rewrite Hline. reflexivity.
Qed.

Lemma p2_parseLine_quoted_value (lines : list string)
    (pb pl : nat -> result (Value * nat)) (i : nat) (key rest v : string) :
  nth i lines "" = (key ++ "!quoted") ++ String " " rest ->
  plainKey key ->
  headNonSpace rest = true ->
  existsChar isLineTerminator rest = false ->
  Parser2.stripSurroundingQuotes rest = v ->
  startsWith v DQ && endsWith v DQ = false ->
  Parser2.parseLine lines pb pl i =
    Ok (Parser2.mkNode key (Some "string") (Scalar (DQ ++ v ++ DQ)), i + 1).
Proof.
  intros Hline Hk Hh Hlt Hs Hv. unfold Parser2.parseLine. rewrite Hline.
  rewrite p2_splitKeyValue_traditional
    by (assumption || apply traditionalToken_quoted, Hk).
  simpl Parser2.keyPart. simpl Parser2.valPart.
  unfold Parser2.parseKeyAndType.
  change (key ++ "!quoted") with (key ++ String "!" "quoted").
  rewrite parseKeyAndType_typed by apply Hk.
  change ("quoted" =? "quoted") with true. cbv iota. rewrite Hs.
  rewrite <- negb_andb, Hv. reflexivity.
Qed.

(** X14.  A header of type [quoted] gives a scalar of type [string] that
    carries exactly one pair of double quotes around the text: the same node
    whether the text is written bare or already between double quotes. *)
Theorem p2_parse_quoted_line (key v : string) :
  plainKey key ->
  headNonSpace v = true ->
  existsChar isLineTerminator v = false ->
  startsWith v DQ && endsWith v DQ = false ->
  Parser2.parse (key ++ "!quoted " ++ v) =
    Ok [Parser2.mkNode key (Some "string") (Scalar (DQ ++ v ++ DQ))]
  /\ Parser2.parse (key ++ "!quoted " ++ DQ ++ v ++ DQ) =
    Ok [Parser2.mkNode key (Some "string") (Scalar (DQ ++ v ++ DQ))].
Proof.
  intros Hk Hh Hlt Hv.
  assert (Hre : forall w, key ++ "!quoted " ++ w = (key ++ "!quoted") ++ String " " w).
  { intros w. rewrite append_assoc. reflexivity. }
  split; rewrite Hre.
  - apply p2_parse_one_line; try assumption; [apply traditionalToken_quoted, Hk|].
    intros pb pl.
    apply (p2_parseLine_quoted_value _ pb pl 0 key v v);
      try assumption; [reflexivity|].
    apply stripSurroundingQuotes_bare, Hv.
  - assert (Hlt' : existsChar isLineTerminator (DQ ++ v ++ DQ) = false).
    { rewrite !existsChar_app, Hlt. reflexivity. }
    apply p2_parse_one_line; try assumption;
      [apply traditionalToken_quoted, Hk | reflexivity |].
    intros pb pl.
    apply (p2_parseLine_quoted_value _ pb pl 0 key (DQ ++ v ++ DQ) v);
      try assumption; [reflexivity | reflexivity |].
    apply stripSurroundingQuotes_wrapped.
Qed.

Lemma p2_parse_quoted_line_witness :
  Parser2.parse ("name" ++ "!quoted " ++ "John Doe") =
    Ok [Parser2.mkNode "name" (Some "string") (Scalar (DQ ++ "John Doe" ++ DQ))]
  /\ Parser2.parse ("name" ++ "!quoted " ++ DQ ++ "John Doe" ++ DQ) =
    Ok [Parser2.mkNode "name" (Some "string") (Scalar (DQ ++ "John Doe" ++ DQ))].
Proof.
  apply (p2_parse_quoted_line "name" "John Doe");
    repeat split; reflexivity.
Defined.

(** ** Pieces of a split *)

Lemma split_pieces (c : ascii) (s : string) :
  Forall (fun p => existsChar (Ascii.eqb c) p = false) (split c s).
Proof.
  induction s as [|a r IH]; simpl; [repeat constructor|].
  destruct (Ascii.eqb a c) eqn:E; [constructor; [reflexivity | exact IH]|].
  destruct (split c r) as [|h t]; [repeat constructor; simpl|].
  - rewrite Ascii.eqb_sym, E. reflexivity.
  - inversion IH; subst. constructor; [|assumption].
    simpl. rewrite Ascii.eqb_sym, E. assumption.
Qed.

Lemma existsChar_trimEnd (p : ascii -> bool) (s : string) :
  existsChar p s = false -> existsChar p (trimEnd s) = false.
Proof.
  induction s as [|c s IH]; simpl; [trivial|].
  intros H. apply orb_false_iff in H as [Hc H].
  destruct (isSpace c && isEmpty (trimEnd s)); simpl; [reflexivity|].
  rewrite Hc, (IH H). reflexivity.
Qed.

Lemma existsChar_trim (p : ascii -> bool) (s : string) :
  existsChar p s = false -> existsChar p (trim s) = false.
Proof.
  intros H. unfold trim, trimStart.
  apply existsChar_trimEnd, existsChar_dropWhile, H.
Qed.

(** X16.  Whatever text [parseInlineList] is given, it returns a list of
    scalars, each free of surrounding white space and of commas. *)
Theorem parseInlineList_items (s : string) :
  exists items,
    Parser1.parseInlineList s = List (map Scalar items)
    /\ Forall trimmedItem items.
Proof.
  unfold Parser1.parseInlineList.
  destruct (isEmpty (trim (slice (trim s) 1 (-1)))).
  - exists []. split; [reflexivity | constructor].
  - exists (map trim (split "," (slice (trim s) 1 (-1)))). split.
    + rewrite map_map. reflexivity.
    + apply Forall_map.
      eapply Forall_impl; [|apply (split_pieces "," (slice (trim s) 1 (-1)))].
      intros piece Hp. split; [apply trim_idempotent|].
      apply existsChar_trim, Hp.
Qed.

(** ** Dedenting *)

Lemma dropChars_substring (n : nat) :
  forall s, n <= String.length s ->
    substring n (String.length s - n) s = dropChars n s.
Proof.
  induction n as [|n IH]; intros s Hn.
  - rewrite Nat.sub_0_r. simpl. apply substring_whole.
  - destruct s as [|c s]; simpl in *; [lia|]. apply IH. lia.
Qed.

Lemma dedentLine_slice (amount : Z) (line : string) :
  (if (amount <=? Z.of_nat (String.length line))%Z
   then sliceFrom line amount else line) = dedentLine amount line.
Proof.
  unfold dedentLine, sliceFrom, slice, relIndex.
  set (len := String.length line).
  destruct (Z.ltb_spec (Z.of_nat len) 0); [lia|].
  rewrite Nat2Z.id, Nat.min_id.
  destruct (Z.ltb_spec amount 0) as [Hneg|Hpos].
  - destruct (Z.leb_spec amount (Z.of_nat len)); [|lia].
    replace (Z.to_nat (Z.max (Z.of_nat len + amount) 0))
      with (len - Z.to_nat (- amount)) by lia.
    apply dropChars_substring. lia.
  - destruct (Z.leb_spec amount (Z.of_nat len)) as [Hle|Hgt];
      destruct (Nat.leb_spec (Z.to_nat amount) len); try lia; [|reflexivity].
    rewrite Nat.min_l by lia. apply dropChars_substring. assumption.
Qed.

Lemma dedent_lines (body : list string) (amount : Z) :
  Forall (fun l => existsChar (Ascii.eqb "010") l = false) body ->
  Parser1.dedent (join LF body) amount = join LF (map (dedentLine amount) body).
Proof.
  intros Hb. unfold Parser1.dedent. destruct body as [|l body].
  - change ((if (amount <=? Z.of_nat (String.length ""))%Z
             then sliceFrom "" amount else "") = "").
    rewrite dedentLine_slice. unfold dedentLine. simpl String.length.
    destruct (amount <? 0)%Z; [reflexivity|].
    destruct (Z.to_nat amount <=? 0)%nat eqn:E; [|reflexivity].
    apply Nat.leb_le in E. replace (Z.to_nat amount) with 0 by lia. reflexivity.
  - unfold LF at 2. rewrite split_join by (assumption || discriminate).
    f_equal. apply map_ext. intros line. apply dedentLine_slice.
Qed.

(** X17.  A multiline value under a key whose type annotation reads as a
    number is dedented line by line: each body line at least that long loses
    that many leading characters (white space or not), shorter lines are
    kept, and a negative number keeps only the last characters of each
    line. *)
Theorem p1_parse_multiline_dedent (input key ty hint : string)
    (body tail : list string) (amount : Z) :
  split "010" input =
    ((key ++ "!" ++ ty ++ " ```" ++ hint)%string :: body ++ tail)%list ->
  plainKey key ->
  existsChar isSpace ty = false ->
  parseInt ty = Some amount ->
  existsChar isLineTerminator hint = false ->
  forallb textLine body = true ->
  endOfInput "```" tail ->
  Parser1.parse input =
    Ok [Parser1.mkNode key (Some ty)
          (Scalar (join LF (map (dedentLine amount) body)))].
Proof.
  intros Hsplit (Hne & Hsp & Hc0 & Hbang) Hty Hint Hhint Hok Hend.
  destruct (endOfInput_closes _ _ Hend) as [Hc Hw].
  assert (Hbody : Forall (fun l => existsChar (Ascii.eqb "010") l = false) body).
  { pose proof (split_pieces "010" input) as Hp. rewrite Hsplit in Hp.
    inversion Hp; subst. apply Forall_app in H2. apply H2. }
  set (tok := key ++ String "!" ty).
  assert (Ht : keyToken tok = true).
  { unfold keyToken, tok. rewrite existsChar_app, Hsp. simpl existsChar.
    rewrite Hty. destruct key as [|a key]; [discriminate|].
    change (String a key ++ String "!" ty) with (String a (key ++ String "!" ty)).
    rewrite startsWith_cons in Hc0.
    apply andb_false_iff in Hc0 as [Hc0|Hc0]; [|discriminate].
    rewrite startsWith_cons, Hc0. reflexivity. }
  assert (Hnty : isEmpty ty = false).
  { destruct ty; [discriminate | reflexivity]. }
  unfold Parser1.parse, Parser1.parseDocument. rewrite Hsplit.
  replace (key ++ "!" ++ ty ++ " ```" ++ hint)
    with (tok ++ String " " ("```" ++ hint))
    by (unfold tok; rewrite append_assoc; reflexivity).
  set (lines := ((tok ++ String " " ("```" ++ hint))%string :: body ++ tail)%list).
  assert (Hlen : List.length lines = 1 + List.length body + closerWidth tail).
  { unfold lines. simpl. rewrite List.length_app, Hw. reflexivity. }
  apply p1_docLoop_single; [discriminate|].
  rewrite (p1_docStep_header lines 0 [] tok ("```" ++ hint))
    by (reflexivity || assumption).
  unfold Parser1.parseLineAt.
  rewrite (p1_parseLine_open lines _ _ 0 tok ("```" ++ hint))
    by (reflexivity || assumption).
  unfold nodeOf, tok. rewrite parseKeyAndType_typed by exact Hbang. simpl snd.
  unfold Parser1.parseValue. rewrite startsWith_app_prefix.
  unfold Parser1.parseMultiline. simpl skipn.
  rewrite p1_multilineLoop_body by assumption.
  rewrite Hnty, Hint, dedent_lines by exact Hbody.
  rewrite Hlen. reflexivity.
Qed.

Lemma p1_parse_multiline_dedent_witness :
  Parser1.parse
    ("code!2 ```py" ++ LF ++ "  def f():" ++ LF ++ "x" ++ LF ++ "ab  return 1"
     ++ LF ++ "```") =
    Ok [Parser1.mkNode "code" (Some "2")
          (Scalar ("def f():" ++ LF ++ "x" ++ LF ++ "  return 1"))].
Proof.
  apply (p1_parse_multiline_dedent _ "code" "2" "py"
           ["  def f():"; "x"; "ab  return 1"] ["```"] 2).
  - reflexivity.
  - repeat split.
  - reflexivity.
  - reflexivity.
  - reflexivity.
  - reflexivity.
  - right. exists "```". split; reflexivity.
Defined.

(** ** [substring] on a concatenation *)

Lemma substringJS_prefix (u w : string) :
  substringJS (u ++ w) 0 (Z.of_nat (String.length u)) = u.
Proof.
  unfold substringJS. rewrite length_app.
  replace (Nat.min (Z.to_nat (Z.max 0 0)) (String.length u + String.length w))
    with 0 by lia.
  replace (Nat.min (Z.to_nat (Z.max (Z.of_nat (String.length u)) 0))
             (String.length u + String.length w))
    with (String.length u) by lia.
  rewrite Nat.min_0_l, Nat.max_0_l, Nat.sub_0_r. apply substring_prefix.
Qed.

Lemma substringFrom_suffix (u w : string) :
  substringFrom (u ++ w) (Z.of_nat (String.length u)) = w.
Proof.
  unfold substringFrom, substringJS. rewrite length_app.
  replace (Nat.min (Z.to_nat (Z.max (Z.of_nat (String.length u)) 0))
             (String.length u + String.length w))
    with (String.length u) by lia.
  replace (Nat.min (Z.to_nat (Z.max (Z.of_nat (String.length u + String.length w)) 0))
             (String.length u + String.length w))
    with (String.length u + String.length w) by lia.
  rewrite Nat.min_l, Nat.max_r by lia.
  replace (String.length u + String.length w - String.length u)
    with (String.length w) by lia.
  apply substring_suffix.
Qed.

(** ** Header lines of [UpParser] *)

Lemma trimStart_indent (indent s : string) :
  allSpace indent = true -> trimStart (indent ++ s) = trimStart s.
Proof.
  unfold allSpace, trimStart. intros H. apply negb_true_iff in H.
  induction indent as [|c indent IH]; [reflexivity|].
  simpl in H. apply orb_false_iff in H as [Hc H]. apply negb_false_iff in Hc.
  simpl. rewrite Hc. exact (IH H).
Qed.

Lemma trimEnd_visible (v : string) :
  headNonSpace v = true -> trimEnd v = trim v.
Proof.
  intros H. unfold trim. rewrite trimStart_fixed; [reflexivity|].
  destruct v as [|c v]; [exact I|]. simpl in H. apply negb_true_iff in H. exact H.
Qed.

Lemma trim_indent (indent s : string) :
  allSpace indent = true -> trim (indent ++ s) = trim s.
Proof. intros H. unfold trim. rewrite trimStart_indent by exact H. reflexivity. Qed.

Lemma header_trim (indent tok gap v : string) :
  allSpace indent = true -> keyToken tok = true -> headNonSpace v = true ->
  trim (indent ++ tok ++ String " " (gap ++ v))
  = tok ++ String " " (gap ++ trim v).
Proof.
  intros Hi Ht Hv. rewrite trim_indent by exact Hi. unfold trim at 1.
  destruct (keyToken_parts tok Ht) as (Hne & Hsp & _).
  destruct tok as [|a tok]; [discriminate|].
  simpl in Hsp. apply orb_false_iff in Hsp as [Ha _].
  rewrite trimStart_fixed by exact Ha.
  destruct v as [|v0 v]; [discriminate|].
  pose proof Hv as Hv0. simpl in Hv0. apply negb_true_iff in Hv0.
  rewrite <- (trimEnd_visible (String v0 v)) by exact Hv.
  replace (String a tok ++ String " " (gap ++ String v0 v))
    with ((String a tok ++ String " " gap) ++ String v0 v)
    by (rewrite append_assoc; reflexivity).
  rewrite trimEnd_app by exact Hv0.
  rewrite append_assoc. simpl trimEnd at 2. rewrite Hv0. reflexivity.
Qed.

Lemma plainName_parts (name : string) :
  plainName name = true ->
  keyToken name = true /\ existsChar (Ascii.eqb "!") name = false.
Proof.
  unfold plainName. intros H. apply andb_true_iff in H as [H1 H2].
  apply negb_true_iff in H2. split; assumption.
Qed.

Lemma upHeader_keyToken (name : string) (ty : option string) :
  plainName name = true -> typeText ty = true -> keyToken (upHeader name ty) = true.
Proof.
  intros Hn Ht. destruct (plainName_parts name Hn) as [Hk _].
  destruct ty as [t|]; [|exact Hk].
  destruct (keyToken_parts name Hk) as (Hne & Hsp & Hc).
  unfold typeText in Ht. simpl in Ht. apply negb_true_iff in Ht.
  unfold keyToken, upHeader. rewrite existsChar_app, Hsp. simpl existsChar.
  rewrite Ht. destruct name as [|a name]; [discriminate|].
  change (String a name ++ String "!" t) with (String a (name ++ String "!" t)).
  rewrite startsWith_cons in Hc.
  apply andb_false_iff in Hc as [Hc|Hc]; [|discriminate].
  rewrite startsWith_cons, Hc. reflexivity.
Qed.

(** The key and the type [UpParser.parseLine] reads from a key token. *)
Lemma up_key_and_type (name : string) (ty : option string) :
  plainName name = true ->
  (let keyPart := upHeader name ty in
   let bangIndex := indexOf keyPart "!" in
   if negb (bangIndex =? -1)%Z
   then (substringJS keyPart 0 bangIndex, substringFrom keyPart (bangIndex + 1))
   else (keyPart, "")) = (name, upType ty).
Proof.
  intros Hn. destruct (plainName_parts name Hn) as [_ Hb].
  destruct ty as [t|]; simpl upHeader; simpl upType; cbv zeta.
  - unfold indexOf. rewrite findIndex_app by (exact Hb || reflexivity).
    destruct (Z.eqb_spec (Z.of_nat (String.length name)) (-1)); [lia|].
    simpl negb. cbv iota. rewrite substringJS_prefix. f_equal.
    rewrite append_snoc.
    replace (Z.of_nat (String.length name) + 1)%Z
      with (Z.of_nat (String.length (name ++ String "!" "")))
      by (rewrite length_snoc; lia).
    apply substringFrom_suffix.
  - unfold indexOf. rewrite findIndex_none by exact Hb. reflexivity.
Qed.

(** [UpParser.parseLine] on an entry line: the cursor moves on, and the
    value is read from the trimmed remainder under the type of the token. *)
Lemma up_parseLine_header (lines : list string) (pb pl : UpParser.M Value)
    (fuel : nat) (indent name : string) (ty : option string) (gap v : string)
    (lineNum : nat) :
  allSpace indent = true -> plainName name = true -> typeText ty = true ->
  allSpace gap = true -> headNonSpace v = true ->
  UpParser.parseLine lines pb pl fuel
    (indent ++ upHeader name ty ++ String " " (gap ++ v)) lineNum =
  match UpParser.parseValue lines pb pl fuel (trim v) (upType ty) (lineNum + 1) with
  | Ok (value, n) => Ok (UpParser.mkUpNode name (upType ty) value, n)
  | Throw msg => Throw msg
  | OutOfFuel => OutOfFuel
  end.
Proof.
  intros Hi Hn Hty Hg Hv.
  pose proof (upHeader_keyToken name ty Hn Hty) as Hk.
  destruct (keyToken_parts _ Hk) as (Hne & Hsp & _).
  unfold UpParser.parseLine. rewrite header_trim by assumption.
  rewrite findIndex_app by (exact Hsp || reflexivity).
  destruct (Z.eqb_spec (Z.of_nat (String.length (upHeader name ty))) (-1)); [lia|].
  rewrite substringJS_prefix, substringFrom_suffix.
  assert (Hval : trim (String " " (gap ++ trim v)) = trim v).
  { change (String " " (gap ++ trim v)) with (String " " gap ++ trim v).
    rewrite trim_indent; [apply trim_idempotent|].
    unfold allSpace in *. simpl. apply negb_true_iff in Hg. rewrite Hg.
    reflexivity. }
  rewrite Hval.
  pose proof (up_key_and_type name ty Hn) as Hkt. cbv zeta in Hkt. rewrite Hkt.
  unfold UpParser.mbind, UpParser.advance, UpParser.ret.
  destruct (UpParser.parseValue lines pb pl fuel (trim v) (upType ty) (lineNum + 1))
    as [[value n']| |]; reflexivity.
Qed.

Lemma up_parseValue_scalar (lines : list string) (pb pl : UpParser.M Value)
    (fuel : nat) (w ty : string) (lineNum : nat) :
  upScalarValue ty w = true ->
  UpParser.parseValue lines pb pl fuel w ty lineNum = Ok (Scalar w, lineNum).
Proof.
  unfold upScalarValue. intros H.
  repeat (apply andb_true_iff in H as [H ?]).
  repeat match goal with X : negb _ = true |- _ => apply negb_true_iff in X end.
  unfold UpParser.parseValue.
  repeat match goal with X : _ = false |- _ => rewrite X; clear X end.
  reflexivity.
Qed.

(** ** The loop of [parseNodes] over flat lines *)

Lemma up_nodesLoop_unfold (lines : list string) (f : nat)
    (endDelimiter : option string) (nodes : list UpParser.UpNode) (lineNum : nat) :
  UpParser.nodesLoop lines (S f) endDelimiter nodes lineNum =
    if (lineNum <? List.length lines)%nat then
      let line := nth lineNum lines "" in
      let trimmed := trim line in
      if match endDelimiter with
         | Some d => negb (isEmpty d) && (trimmed =? d)
         | None => false
         end
      then Ok (nodes, lineNum + 1)
      else if (trimmed =? "") || startsWith trimmed "#" then
        UpParser.nodesLoop lines f endDelimiter nodes (lineNum + 1)
      else
        match
          UpParser.parseLine lines
            (UpParser.mbind (UpParser.nodesLoop lines f (Some "}") [])
               (fun ns => UpParser.ret (UpParser.blockOfNodes ns)))
            (UpParser.listLoop lines f []) f line lineNum
        with
        | Ok (node, n) =>
            UpParser.nodesLoop lines f endDelimiter (nodes ++ [node])%list n
        | Throw msg => Throw msg
        | OutOfFuel => OutOfFuel
        end
    else Ok (nodes, lineNum).
Proof.
  simpl. unfold UpParser.mbind at 1, UpParser.getLineNum.
  destruct (lineNum <? List.length lines)%nat; [|reflexivity].
  cbv zeta.
  destruct (match endDelimiter with Some d => _ | None => false end); [reflexivity|].
  destruct ((trim (nth lineNum lines "") =? "")
            || startsWith (trim (nth lineNum lines "")) "#"); reflexivity.
Qed.

Lemma up_nodesLoop_end (lines : list string) (fuel : nat)
    (endDelimiter : option string) (nodes : list UpParser.UpNode) (lineNum : nat) :
  List.length lines <= lineNum ->
  UpParser.nodesLoop lines (S fuel) endDelimiter nodes lineNum = Ok (nodes, lineNum).
Proof.
  intros H. rewrite up_nodesLoop_unfold.
  apply Nat.ltb_ge in H. rewrite H. reflexivity.
Qed.

Lemma up_nodesLoop_closer (lines : list string) (fuel : nat)
    (nodes : list UpParser.UpNode) (lineNum : nat) :
  lineNum < List.length lines ->
  trim (nth lineNum lines "") = "}" ->
  UpParser.nodesLoop lines (S fuel) (Some "}") nodes lineNum =
    Ok (nodes, lineNum + 1).
Proof.
  intros Hi Ht. rewrite up_nodesLoop_unfold.
  apply Nat.ltb_lt in Hi. rewrite Hi. cbv zeta. rewrite Ht. reflexivity.
Qed.

Lemma up_nodesLoop_blank (lines : list string) (fuel : nat) (inBlock : bool)
    (nodes : list UpParser.UpNode) (lineNum : nat) :
  lineNum < List.length lines ->
  (trim (nth lineNum lines "") =? "") || startsWith (trim (nth lineNum lines "")) "#"
    = true ->
  UpParser.nodesLoop lines (S fuel) (delimiterOf inBlock) nodes lineNum =
    UpParser.nodesLoop lines fuel (delimiterOf inBlock) nodes (lineNum + 1).
Proof.
  intros Hi Hb. rewrite up_nodesLoop_unfold.
  apply Nat.ltb_lt in Hi. rewrite Hi. cbv zeta. rewrite Hb.
  assert (Hd : match delimiterOf inBlock with
               | Some d => negb (isEmpty d) && (trim (nth lineNum lines "") =? d)
               | None => false
               end = false).
  { destruct inBlock; [|reflexivity]. simpl.
    destruct (trim (nth lineNum lines "")) as [|a r]; [reflexivity|].
    simpl in Hb. rewrite startsWith_cons in Hb.
    apply andb_true_iff in Hb as [Ha _]. apply Ascii.eqb_eq in Ha. subst a.
    reflexivity. }
  rewrite Hd. reflexivity.
Qed.

Lemma up_nodesLoop_entry (lines : list string) (fuel : nat) (inBlock : bool)
    (nodes : list UpParser.UpNode) (lineNum : nat)
    (indent name : string) (ty : option string) (gap v : string) :
  lineNum < List.length lines ->
  nth lineNum lines "" = indent ++ upHeader name ty ++ String " " (gap ++ v) ->
  allSpace indent = true -> plainName name = true -> typeText ty = true ->
  allSpace gap = true -> headNonSpace v = true ->
  UpParser.nodesLoop lines (S fuel) (delimiterOf inBlock) nodes lineNum =
    match
      UpParser.parseValue lines
        (UpParser.mbind (UpParser.nodesLoop lines fuel (Some "}") [])
           (fun ns => UpParser.ret (UpParser.blockOfNodes ns)))
        (UpParser.listLoop lines fuel []) fuel (trim v) (upType ty) (lineNum + 1)
    with
    | Ok (value, n) =>
        UpParser.nodesLoop lines fuel (delimiterOf inBlock)
          (nodes ++ [UpParser.mkUpNode name (upType ty) value])%list n
    | Throw msg => Throw msg
    | OutOfFuel => OutOfFuel
    end.
Proof.
  intros Hi Hline Hind Hn Hty Hg Hv.
  pose proof (upHeader_keyToken name ty Hn Hty) as Hk.
  destruct (keyToken_parts _ Hk) as (Hne & Hsp & Hc).
  rewrite up_nodesLoop_unfold.
  apply Nat.ltb_lt in Hi. rewrite Hi. cbv zeta. rewrite Hline.
  rewrite up_parseLine_header by assumption.
  rewrite header_trim by assumption.
  destruct (upHeader name ty) as [|a tok] eqn:Etok; [discriminate|].
  rewrite startsWith_cons in Hc.
  apply andb_false_iff in Hc as [Hc|Hc]; [|discriminate].
  change (String a tok ++ String " " (gap ++ trim v))
    with (String a (tok ++ String " " (gap ++ trim v))).
  rewrite startsWith_cons, Hc.
  assert (Hd : match delimiterOf inBlock with
               | Some d => negb (isEmpty d)
                           && (String a (tok ++ String " " (gap ++ trim v)) =? d)
               | None => false
               end = false).
  { destruct inBlock; [|reflexivity]. unfold delimiterOf.
    change (negb (isEmpty "}")) with true.
    rewrite andb_true_l, eqb_cons.
    replace (tok ++ String " " (gap ++ trim v) =? "") with false
      by (destruct tok; reflexivity).
    apply andb_false_r. }
  rewrite Hd. simpl orb. cbv iota.
  destruct (UpParser.parseValue _ _ _ _ _ _ _) as [[value n]| |]; reflexivity.
Qed.

Lemma upLineOk_entry (indent name : string) (ty : option string) (gap v : string) :
  upLineOk (UpEntry indent name ty gap v) = true ->
  allSpace indent = true /\ plainName name = true /\ typeText ty = true
  /\ allSpace gap = true
  /\ headNonSpace v = true /\ upScalarValue (upType ty) (trim v) = true.
Proof.
  simpl. intros H. repeat (apply andb_true_iff in H as [H ?]).
  repeat split; assumption.
Qed.

(** The loop of [parseNodes] over entries and blank or comment lines: one
    node per entry, in order, up to the closing brace or the end of the
    lines. *)
Lemma up_nodesLoop_flat (body : list UpLine) :
  forall (pre tail : list string) (nodes : list UpParser.UpNode) (fuel : nat)
         (inBlock : bool),
    forallb upLineOk body = true ->
    upCloses inBlock tail ->
    List.length body < fuel ->
    UpParser.nodesLoop (pre ++ map renderUpLine body ++ tail) fuel
      (delimiterOf inBlock) nodes (List.length pre) =
    Ok ((nodes ++ flat_map upLineNodes body)%list,
        List.length pre + List.length body + closerWidth tail).
Proof.
  induction body as [|l body IH]; intros pre tail nodes fuel inBlock Hok Hc Hf;
    (destruct fuel as [|f]; [simpl in Hf; lia|]).
  - simpl map. simpl app. simpl flat_map. rewrite app_nil_r.
    destruct tail as [|c post].
    + rewrite app_nil_r, up_nodesLoop_end by lia. simpl. do 2 f_equal. lia.
    + destruct Hc as [-> Hc].
      rewrite up_nodesLoop_closer.
      * simpl. do 2 f_equal. lia.
      * rewrite List.length_app. simpl. lia.
      * rewrite nth_after. exact Hc.
  - simpl in Hok, Hf. apply andb_true_iff in Hok as [Hl Hok].
    simpl map. simpl app.
    assert (Hi : List.length pre
                 < List.length (pre ++ renderUpLine l :: map renderUpLine body ++ tail)).
    { rewrite List.length_app. simpl. lia. }
    assert (Hnext : forall nodes',
      UpParser.nodesLoop (pre ++ renderUpLine l :: map renderUpLine body ++ tail) f
        (delimiterOf inBlock) nodes' (List.length pre + 1) =
      Ok ((nodes' ++ flat_map upLineNodes body)%list,
          List.length pre + List.length (l :: body) + closerWidth tail)).
    { intros nodes'.
      replace (pre ++ renderUpLine l :: map renderUpLine body ++ tail)%list
        with ((pre ++ [renderUpLine l]) ++ map renderUpLine body ++ tail)%list
        by (rewrite <- app_assoc; reflexivity).
      replace (List.length pre + 1) with (List.length (pre ++ [renderUpLine l])%list)
        by (rewrite List.length_app; reflexivity).
      rewrite IH by (assumption || lia).
      rewrite List.length_app. simpl. do 2 f_equal. lia. }
    destruct l as [indent name ty gap v | text].
    + destruct (upLineOk_entry _ _ _ _ _ Hl) as (H1 & H2 & H3 & Hg & H4 & H5).
      rewrite (up_nodesLoop_entry _ f inBlock nodes _ indent name ty gap v)
        by (assumption || apply nth_after).
      rewrite up_parseValue_scalar by exact H5.
      rewrite Hnext. simpl flat_map. rewrite <- app_assoc. reflexivity.
    + simpl in Hl. rewrite up_nodesLoop_blank;
        [| exact Hi | rewrite nth_after; exact Hl].
      rewrite Hnext. reflexivity.
Qed.

(** X18.  [UpParser.parse] on a flat document: every entry line, however
    indented, gives one node with its key, its type (the empty string when
    there is no annotation) and the trimmed remainder as a scalar; lines that
    trim to nothing or to a comment give none; the nodes come in the order of
    the lines. *)
Theorem up_parse_flat_document (input : string) (body : list UpLine) :
  splitLines input = map renderUpLine body ->
  forallb upLineOk body = true ->
  UpParser.parse input = Ok (flat_map upLineNodes body).
Proof.
  intros Hsplit Hok. unfold UpParser.parse, UpParser.parseNodes. rewrite Hsplit.
  pose proof (up_nodesLoop_flat body [] [] [] (S (List.length (map renderUpLine body)))
                false Hok I) as H.
  rewrite app_nil_r in H. simpl app in H. simpl List.length in H.
  unfold delimiterOf in H.
  rewrite H by (rewrite length_map; lia). reflexivity.
Qed.

Lemma up_parse_flat_document_witness :
  UpParser.parse
    ("# settings" ++ LF ++ "name   John Doe " ++ CR ++ LF ++ "" ++ LF
     ++ "  age!int 30") =
    Ok [UpParser.mkUpNode "name" "" (Scalar "John Doe");
        UpParser.mkUpNode "age" "int" (Scalar "30")].
Proof.
  apply (up_parse_flat_document _
           [UpBlank "# settings"; UpEntry "" "name" None "  " "John Doe ";
            UpBlank ""; UpEntry "  " "age" (Some "int") "" "30"]);
    reflexivity.
Defined.

(** ** Blocks of [UpParser] *)

Lemma endOfInput_upCloses (tail : list string) :
  endOfInput "}" tail -> upCloses true tail /\ closerWidth tail = List.length tail.
Proof.
  intros [-> | (c & -> & Hc)]; split; simpl; auto.
Qed.

(** X19.  [UpParser.parse] on a block of scalar entries: blank lines (empty
    ones included) and comments inside the block are skipped, the entries
    are assigned in order, and the block ends at the closing brace or,
    without error, at the end of the input.  The type annotation of the
    header does not matter: under [name!table {] the lines are read as a block
    as well, since the lone brace is tested first. *)
Theorem up_parse_flat_block (input name : string) (ty : option string)
    (body : list UpLine) (tail : list string) :
  splitLines input =
    ((upHeader name ty ++ " {")%string :: map renderUpLine body ++ tail)%list ->
  plainName name = true ->
  typeText ty = true ->
  forallb upLineOk body = true ->
  endOfInput "}" tail ->
  UpParser.parse input =
    Ok [UpParser.mkUpNode name (upType ty)
          (UpParser.blockOfNodes (flat_map upLineNodes body))].
Proof.
  intros Hsplit Hn Hty Hok Hend.
  destruct (endOfInput_upCloses tail Hend) as [Hc Hw].
  unfold UpParser.parse, UpParser.parseNodes. rewrite Hsplit.
  set (header := upHeader name ty ++ " {").
  set (lines := (header :: map renderUpLine body ++ tail)%list).
  assert (Hlen : List.length lines = 1 + List.length body + closerWidth tail).
  { unfold lines. simpl. rewrite List.length_app, length_map, Hw. reflexivity. }
  change None with (delimiterOf false).
  rewrite (up_nodesLoop_entry lines _ false [] 0 "" name ty "" "{");
    try assumption; try reflexivity; [|rewrite Hlen; lia].
  unfold UpParser.parseValue.
  change (startsWith (trim "{") "```") with false.
  change (trim "{" =? "{") with true. cbv iota.
  unfold UpParser.mbind at 1.
  pose proof (up_nodesLoop_flat body [header] tail [] (List.length lines) true
                Hok Hc) as H.
  change ([header] ++ map renderUpLine body ++ tail)%list with lines in H.
  change (delimiterOf true) with (Some "}") in H.
  change (List.length [header]) with (0 + 1) in H.
  rewrite H by (rewrite Hlen; lia).
  unfold UpParser.ret.
  replace (0 + 1 + List.length body + closerWidth tail) with (List.length lines)
    by lia.
  destruct (List.length lines) as [|f] eqn:El; [simpl in Hlen; lia|].
  rewrite up_nodesLoop_end by lia. reflexivity.
Qed.

Lemma up_parse_flat_block_witness :
  UpParser.parse
    ("users!table {" ++ LF ++ "  host localhost" ++ LF ++ "" ++ LF
     ++ "  # port" ++ LF ++ "  port!int   8080" ++ LF ++ "  host example.org"
     ++ LF ++ "}") =
    Ok [UpParser.mkUpNode "users" "table"
          (Block [("host", Scalar "example.org"); ("port", Scalar "8080")])].
Proof.
  apply (up_parse_flat_block _ "users" (Some "table")
           [UpEntry "  " "host" None "" "localhost"; UpBlank "";
            UpBlank "  # port"; UpEntry "  " "port" (Some "int") "  " "8080";
            UpEntry "  " "host" None "" "example.org"] ["}"]);
    try reflexivity.
  right. exists "}". split; reflexivity.
Defined.

(** ** Multiline values of [UpParser] *)

Lemma up_multilineLoop_body (lines body : list string) :
  forall (tail content : list string) (lineNum : nat),
    forallb upTextLine body = true ->
    closes "```" tail ->
    UpParser.multilineLoop (body ++ tail) content lineNum =
      Ok ((content ++ body)%list, lineNum + List.length body + closerWidth tail).
Proof.
  induction body as [|line body IH]; intros tail content lineNum Hok Hc; simpl.
  - rewrite app_nil_r. destruct tail as [|c post]; simpl.
    + unfold UpParser.ret. do 2 f_equal. lia.
    + simpl in Hc. rewrite Hc. simpl.
      unfold UpParser.mbind, UpParser.advance, UpParser.ret. do 2 f_equal. lia.
  - simpl in Hok. apply andb_true_iff in Hok as [Hl Hok].
    unfold upTextLine in Hl. apply negb_true_iff in Hl. rewrite Hl.
    unfold UpParser.mbind at 1, UpParser.advance. rewrite IH by assumption.
    rewrite <- app_assoc. simpl. do 2 f_equal. lia.
Qed.

Lemma trim_fence (hint : string) :
  startsWith (trim ("```" ++ hint)) "```" = true.
Proof.
  unfold trim. rewrite trimStart_fixed by reflexivity.
  change ("```" ++ hint) with ("``" ++ String "`" hint).
  rewrite trimEnd_app by reflexivity. reflexivity.
Qed.

(** X20.  A multiline value of [UpParser] under a type that is not a run of
    digits: every line up to the closing fence is kept as written, empty
    lines included, and the lines are joined with line feeds; without a
    closing fence the value runs to the end of the input. *)
Theorem up_parse_multiline (input name : string) (ty : option string)
    (hint : string) (body tail : list string) :
  splitLines input =
    ((upHeader name ty ++ " ```" ++ hint)%string :: body ++ tail)%list ->
  plainName name = true ->
  typeText ty = true ->
  UpParser.allDigits (upType ty) = false ->
  forallb upTextLine body = true ->
  endOfInput "```" tail ->
  UpParser.parse input =
    Ok [UpParser.mkUpNode name (upType ty) (Scalar (join LF body))].
Proof.
  intros Hsplit Hn Hty Hdig Hok Hend.
  destruct (endOfInput_closes _ _ Hend) as [Hc Hw].
  unfold UpParser.parse, UpParser.parseNodes. rewrite Hsplit.
  set (header := upHeader name ty ++ " ```" ++ hint).
  set (lines := (header :: body ++ tail)%list).
  assert (Hlen : List.length lines = 1 + List.length body + closerWidth tail).
  { unfold lines. simpl. rewrite List.length_app, Hw. reflexivity. }
  change None with (delimiterOf false).
  rewrite (up_nodesLoop_entry lines _ false [] 0 "" name ty "" ("```" ++ hint));
    try assumption; try reflexivity; [|rewrite Hlen; lia].
  unfold UpParser.parseValue. rewrite trim_fence.
  unfold UpParser.parseMultiline.
  unfold UpParser.mbind at 1, UpParser.getLineNum.
  change (skipn (0 + 1) lines) with (body ++ tail)%list.
  unfold UpParser.mbind at 1.
  rewrite (up_multilineLoop_body lines body) by assumption.
  rewrite Hdig, andb_false_r. unfold UpParser.ret. simpl app.
  replace (0 + 1 + List.length body + closerWidth tail) with (List.length lines)
    by lia.
  destruct (List.length lines) as [|f] eqn:El; [simpl in Hlen; lia|].
  rewrite up_nodesLoop_end by lia. reflexivity.
Qed.

Lemma up_parse_multiline_witness :
  UpParser.parse
    ("text!md ```" ++ LF ++ "first" ++ LF ++ "" ++ LF ++ "  third" ++ LF
     ++ " ``` ") =
    Ok [UpParser.mkUpNode "text" "md"
          (Scalar ("first" ++ LF ++ "" ++ LF ++ "  third"))].
Proof.
  apply (up_parse_multiline _ "text" (Some "md") "" ["first"; ""; "  third"]
           [" ``` "]); try reflexivity.
  right. exists " ``` ". split; reflexivity.
Defined.

(** ** Tables of [UpParser] *)

Lemma up_tableLoop_stuck (lines : list string) (lineNum : nat) :
  lineNum < List.length lines ->
  stuckTableLine (nth lineNum lines "") = true ->
  forall fuel columns rows,
    UpParser.tableLoop lines fuel columns rows lineNum = OutOfFuel.
Proof.
  intros Hi Hs. unfold stuckTableLine in Hs. cbv zeta in Hs.
  repeat (apply andb_true_iff in Hs as [Hs ?]).
  repeat match goal with X : negb _ = true |- _ => apply negb_true_iff in X end.
  apply Nat.ltb_lt in Hi.
  induction fuel as [|f IH]; intros columns rows; [reflexivity|].
  simpl. unfold UpParser.mbind at 1, UpParser.getLineNum.
  rewrite Hi.
  repeat match goal with X : _ = false |- _ => rewrite X end.
  apply IH.
Qed.

Lemma up_blockOfListsLoop_stuck (lines : list string) (lineNum : nat) :
  lineNum < List.length lines ->
  stuckRowLine (nth lineNum lines "") = true ->
  forall fuel rows,
    UpParser.blockOfListsLoop lines fuel rows lineNum = OutOfFuel.
Proof.
  intros Hi Hs. unfold stuckRowLine in Hs. cbv zeta in Hs.
  repeat (apply andb_true_iff in Hs as [Hs ?]).
  repeat match goal with X : negb _ = true |- _ => apply negb_true_iff in X end.
  apply Nat.ltb_lt in Hi.
  induction fuel as [|f IH]; intros rows; [reflexivity|].
  simpl. unfold UpParser.mbind at 1, UpParser.getLineNum.
  rewrite Hi.
  repeat match goal with X : _ = false |- _ => rewrite X end.
  apply IH.
Qed.

Lemma up_tableLoop_rows (lines : list string) (lineNum : nat) (f : nat)
    (columns : option (list string)) (rows : option (list (list string))) :
  lineNum < List.length lines ->
  rowsLine (nth lineNum lines "") = true ->
  UpParser.tableLoop lines (S f) columns rows lineNum =
    match UpParser.parseBlockOfLists lines f (lineNum + 1) with
    | Ok (rows', n) => UpParser.tableLoop lines f columns (Some rows') n
    | Throw msg => Throw msg
    | OutOfFuel => OutOfFuel
    end.
Proof.
  intros Hi Hr. unfold rowsLine in Hr. cbv zeta in Hr.
  repeat (apply andb_true_iff in Hr as [Hr ?]).
  repeat match goal with X : negb _ = true |- _ => apply negb_true_iff in X end.
  apply Nat.ltb_lt in Hi.
  simpl. unfold UpParser.mbind at 1, UpParser.getLineNum. rewrite Hi.
  repeat match goal with X : _ = false |- _ => rewrite X end.
  match goal with X : startsWith _ "rows" = true |- _ => rewrite X end.
  unfold UpParser.mbind at 1, UpParser.advance.
  unfold UpParser.mbind at 1.
  destruct (UpParser.parseBlockOfLists lines f (lineNum + 1)) as [[r n]| |];
    reflexivity.
Qed.

Lemma tableOpener_parts (v : string) :
  tableOpener v = true ->
  headNonSpace v = true
  /\ startsWith (trim v) "```" = false
  /\ (trim v =? "{") = false
  /\ (trim v =? "[") = false
  /\ startsWith (trim v) "{" = true.
Proof.
  unfold tableOpener. intros H.
  apply andb_true_iff in H as [H H3]. apply andb_true_iff in H as [H1 H2].
  apply negb_true_iff in H3. repeat split; try assumption.
  - destruct (trim v) as [|c r]; [reflexivity|].
    rewrite startsWith_cons in H2. apply andb_true_iff in H2 as [Hc _].
    apply Ascii.eqb_eq in Hc. subst c. reflexivity.
  - destruct (trim v) as [|c r]; [reflexivity|].
    rewrite startsWith_cons in H2. apply andb_true_iff in H2 as [Hc _].
    apply Ascii.eqb_eq in Hc. subst c. reflexivity.
Qed.

(** The loop of [parseNodes] on a header that opens a table. *)
Lemma up_nodesLoop_table (lines : list string) (f : nat) (name v : string)
    (rest : list string) :
  lines = ((upHeader name (Some "table") ++ String " " v)%string :: rest)%list ->
  plainName name = true ->
  tableOpener v = true ->
  UpParser.nodesLoop lines (S f) None [] 0 =
    match UpParser.parseTable lines f 1 with
    | Ok (value, n) =>
        UpParser.nodesLoop lines f None [UpParser.mkUpNode name "table" value] n
    | Throw msg => Throw msg
    | OutOfFuel => OutOfFuel
    end.
Proof.
  intros Hlines Hn Hv.
  destruct (tableOpener_parts v Hv) as (Hh & H1 & H2 & H3 & H4).
  change None with (delimiterOf false).
  rewrite (up_nodesLoop_entry lines f false [] 0 "" name (Some "table") "" v);
    try assumption; try reflexivity;
    [| rewrite Hlines; simpl; lia | rewrite Hlines; reflexivity].
  unfold UpParser.parseValue. rewrite H1, H2, H3, H4. reflexivity.
Qed.

(** X21.  A table whose body holds a line that is neither the closing brace,
    blank, a comment, a [columns] line nor a [rows] line: the loop of
    [parseTable] never moves past that line, so the parser does not return,
    whatever budget of iterations it is given. *)
Theorem up_table_line_never_passed (input name v stuck : string)
    (tail : list string) :
  splitLines input =
    ((upHeader name (Some "table") ++ String " " v)%string :: stuck :: tail)%list ->
  plainName name = true ->
  tableOpener v = true ->
  stuckTableLine stuck = true ->
  UpParser.parse input = OutOfFuel
  /\ forall fuel, UpParser.parseNodes (splitLines input) fuel None 0 = OutOfFuel.
Proof.
  intros Hsplit Hn Hv Hs.
  assert (H : forall fuel,
             UpParser.parseNodes (splitLines input) fuel None 0 = OutOfFuel).
  { intros [|f]; [reflexivity|]. unfold UpParser.parseNodes.
    rewrite (up_nodesLoop_table _ f name v (stuck :: tail) Hsplit Hn Hv).
    unfold UpParser.parseTable. rewrite up_tableLoop_stuck; [reflexivity | |].
    - rewrite Hsplit. simpl. lia.
    - rewrite Hsplit. exact Hs. }
  split; [|exact H]. unfold UpParser.parse. rewrite H. reflexivity.
Qed.

Lemma up_table_line_never_passed_witness :
  UpParser.parse ("users!table {}" ++ LF ++ "id name") = OutOfFuel
  /\ forall fuel,
       UpParser.parseNodes (splitLines ("users!table {}" ++ LF ++ "id name"))
         fuel None 0 = OutOfFuel.
Proof.
  apply (up_table_line_never_passed _ "users" "{}" "id name" []); reflexivity.
Defined.

(** X22.  The rows of a table: a row line that is not bracketed (nor the
    closing brace, blank or a comment) is never passed by the loop of
    [parseBlockOfLists], so the parser does not return, whatever budget of
    iterations it is given. *)
Theorem up_row_line_never_passed (input name v rows stuck : string)
    (tail : list string) :
  splitLines input =
    ((upHeader name (Some "table") ++ String " " v)%string
       :: rows :: stuck :: tail)%list ->
  plainName name = true ->
  tableOpener v = true ->
  rowsLine rows = true ->
  stuckRowLine stuck = true ->
  UpParser.parse input = OutOfFuel
  /\ forall fuel, UpParser.parseNodes (splitLines input) fuel None 0 = OutOfFuel.
Proof.
  intros Hsplit Hn Hv Hr Hs.
  assert (H : forall fuel,
             UpParser.parseNodes (splitLines input) fuel None 0 = OutOfFuel).
  { intros [|f]; [reflexivity|]. unfold UpParser.parseNodes.
    rewrite (up_nodesLoop_table _ f name v (rows :: stuck :: tail) Hsplit Hn Hv).
    unfold UpParser.parseTable. destruct f as [|f]; [reflexivity|].
    rewrite up_tableLoop_rows;
      [| rewrite Hsplit; simpl; lia | rewrite Hsplit; exact Hr].
    unfold UpParser.parseBlockOfLists.
    rewrite up_blockOfListsLoop_stuck; [reflexivity | |].
    - rewrite Hsplit. simpl. lia.
    - rewrite Hsplit. exact Hs. }
  split; [|exact H]. unfold UpParser.parse. rewrite H. reflexivity.
Qed.

Lemma up_row_line_never_passed_witness :
  UpParser.parse ("users!table {}" ++ LF ++ "rows {" ++ LF ++ "1, Alice") = OutOfFuel
  /\ forall fuel,
       UpParser.parseNodes
         (splitLines ("users!table {}" ++ LF ++ "rows {" ++ LF ++ "1, Alice"))
         fuel None 0 = OutOfFuel.
Proof.
  apply (up_row_line_never_passed _ "users" "{}" "rows {" "1, Alice" []);
    reflexivity.
Defined.

(** ** Inline lists of [UpParser] *)

Lemma lastIndexOf_none (s : string) (c : ascii) :
  existsChar (Ascii.eqb c) s = false -> lastIndexOf s c = (-1)%Z.
Proof.
  induction s as [|a s IH]; simpl; [reflexivity|].
  intros H. apply orb_false_iff in H as [Ha H]. rewrite (IH H).
  rewrite Ascii.eqb_sym, Ha. reflexivity.
Qed.

Lemma lastIndexOf_last (u : string) (c : ascii) :
  lastIndexOf (u ++ String c "") c = Z.of_nat (String.length u).
Proof.
  induction u as [|a u IH].
  - simpl. rewrite Ascii.eqb_refl. reflexivity.
  - change (lastIndexOf (String a u ++ String c "") c)
      with (let k := lastIndexOf (u ++ String c "") c in
            if (0 <=? k)%Z then (k + 1)%Z
            else if Ascii.eqb a c then 0%Z else (-1)%Z).
    rewrite IH. cbv zeta.
    destruct (Z.leb_spec 0 (Z.of_nat (String.length u))); [|lia].
    change (String.length (String a u)) with (S (String.length u)). lia.
Qed.

(** X23.  An inline list of [UpParser] without closing bracket: whatever
    follows the opening bracket, the list holds the single item [[]. *)
Theorem up_parseInlineList_unclosed (rest : string) :
  existsChar (Ascii.eqb "]") rest = false ->
  UpParser.parseInlineList ("[" ++ rest) = ["["].
Proof.
  intros H. unfold UpParser.parseInlineList.
  change ("[" ++ rest) with (String "[" rest).
  assert (Hl : lastIndexOf (String "[" rest) "]" = (-1)%Z).
  { apply lastIndexOf_none. simpl. exact H. }
  rewrite Hl. unfold substringJS.
  change (String.length (String "[" rest)) with (S (String.length rest)).
  replace (Nat.min (Z.to_nat (Z.max 1 0)) (S (String.length rest))) with 1 by lia.
  replace (Nat.min (Z.to_nat (Z.max (-1) 0)) (S (String.length rest))) with 0 by lia.
  simpl. destruct rest; reflexivity.
Qed.

Lemma up_parseInlineList_unclosed_witness :
  UpParser.parseInlineList ("[" ++ "a, b, c") = ["["].
Proof. apply (up_parseInlineList_unclosed "a, b, c"). reflexivity. Defined.

(** ** Splitting a trimmed text *)

Lemma split_nonempty (c : ascii) (s : string) :
  exists h t, split c s = h :: t.
Proof.
  destruct s as [|a r]; simpl; [eexists _, _; reflexivity|].
  destruct (Ascii.eqb a c); [eexists _, _; reflexivity|].
  destruct (split c r); eexists _, _; reflexivity.
Qed.

Lemma split_single (c : ascii) (s h : string) : split c s = [h] -> h = s.
Proof.
  revert h. induction s as [|a r IH]; intros h; simpl.
  - intros H. inversion H. reflexivity.
  - destruct (Ascii.eqb a c).
    + destruct (split_nonempty c r) as (x & t & E). rewrite E. discriminate.
    + destruct (split c r) as [|x t] eqn:E.
      * intros H. inversion H.
        destruct (split_nonempty c r) as (y & u & E'). congruence.
      * intros H. inversion H; subst. f_equal. apply IH. reflexivity.
Qed.

Lemma trim_leading_space (a : ascii) (h : string) :
  isSpace a = true -> trim (String a h) = trim h.
Proof. intros Ha. unfold trim, trimStart. simpl. rewrite Ha. reflexivity. Qed.

Lemma split_trimStart (c : ascii) (s : string) :
  isSpace c = false ->
  map trim (split c (trimStart s)) = map trim (split c s).
Proof.
  intros Hc. induction s as [|a r IH]; [reflexivity|].
  unfold trimStart in *. simpl dropWhile.
  destruct (isSpace a) eqn:Ha; [|reflexivity].
  rewrite IH. simpl split.
  destruct (Ascii.eqb_spec a c) as [->|_]; [congruence|].
  destruct (split_nonempty c r) as (h & t & E). rewrite E. simpl.
  rewrite trim_leading_space by exact Ha. reflexivity.
Qed.

Lemma mapLast_cons (f : string -> string) (x y : string) (r : list string) :
  mapLast f (x :: y :: r) = x :: mapLast f (y :: r).
Proof. reflexivity. Qed.

Lemma split_trimEnd (c : ascii) (s : string) :
  isSpace c = false ->
  split c (trimEnd s) = mapLast trimEnd (split c s).
Proof.
  intros Hc. induction s as [|a r IH]; [reflexivity|].
  simpl trimEnd. simpl split.
  destruct (split_nonempty c r) as (h & t & E). rewrite E in *.
  destruct (isSpace a && isEmpty (trimEnd r)) eqn:Hcase.
  - apply andb_true_iff in Hcase as [Ha He].
    destruct (Ascii.eqb_spec a c) as [->|_]; [congruence|].
    destruct (trimEnd r) as [|x y] eqn:Er; [|discriminate].
    change (split c "") with [""] in IH. destruct t as [|h' t].
    + change (mapLast trimEnd [h]) with [trimEnd h] in IH.
      inversion IH as [Hh]. simpl. rewrite <- Hh, Ha. reflexivity.
    + rewrite mapLast_cons in IH. inversion IH as [[Hh Hm]].
      destruct t; discriminate.
  - simpl split. destruct (Ascii.eqb a c) eqn:Eac.
    + rewrite IH. destruct t; reflexivity.
    + rewrite IH. destruct t as [|h' t].
      * simpl. pose proof (split_single c r h E) as ->.
        rewrite Hcase. reflexivity.
      * rewrite !mapLast_cons. reflexivity.
Qed.

Lemma trimStart_trimEnd (s : string) : trimStart (trimEnd s) = trimEnd (trimStart s).
Proof.
  unfold trimStart. induction s as [|a r IH]; [reflexivity|].
  simpl. destruct (isSpace a) eqn:Ha; simpl.
  - destruct (isEmpty (trimEnd r)) eqn:He.
    + rewrite <- IH. destruct (trimEnd r); [reflexivity | discriminate].
    + simpl. rewrite Ha. exact IH.
  - repeat (simpl; rewrite ?Ha). reflexivity.
Qed.

Lemma trim_trimEnd (s : string) : trim (trimEnd s) = trim s.
Proof.
  unfold trim. rewrite trimStart_trimEnd. apply trimEnd_idempotent.
Qed.

Lemma map_trim_mapLast (l : list string) :
  map trim (mapLast trimEnd l) = map trim l.
Proof.
  induction l as [|x [|y r] IH]; [reflexivity | |].
  - simpl. rewrite trim_trimEnd. reflexivity.
  - rewrite mapLast_cons.
    change (trim x :: map trim (mapLast trimEnd (y :: r))
            = trim x :: map trim (y :: r)).
    rewrite IH. reflexivity.
Qed.

Lemma split_trim (c : ascii) (s : string) :
  isSpace c = false -> map trim (split c (trim s)) = map trim (split c s).
Proof.
  intros Hc. unfold trim.
  rewrite split_trimEnd, map_trim_mapLast by exact Hc.
  apply split_trimStart, Hc.
Qed.

(** X24.  On a bracketed text the two inline-list parsers agree: the items
    [UpParser.parseInlineList] returns are the scalars of
    [Parser1.parseInlineList]. *)
Theorem inline_lists_agree (content : string) :
  UpParser.scalars (UpParser.parseInlineList ("[" ++ content ++ "]"))
  = Parser1.parseInlineList ("[" ++ content ++ "]").
Proof.
  rewrite parseInlineList_bracketed.
  unfold UpParser.scalars, UpParser.parseInlineList.
  change ("[" ++ content ++ "]") with (("[" ++ content) ++ String "]" "").
  rewrite lastIndexOf_last.
  change (("[" ++ content) ++ String "]" "") with (String "[" (content ++ "]")).
  assert (Hsub : substringJS (String "[" (content ++ "]")) 1
                   (Z.of_nat (String.length ("[" ++ content))) = content).
  { unfold substringJS.
    change (String.length (String "[" (content ++ "]")))
      with (S (String.length (content ++ "]"))).
    change (String.length ("[" ++ content)) with (S (String.length content)).
    rewrite length_app. simpl String.length.
    replace (Nat.min (Z.to_nat (Z.max 1 0)) (S (String.length content + 1)))
      with 1 by lia.
    replace (Nat.min (Z.to_nat (Z.max (Z.of_nat (S (String.length content))) 0))
               (S (String.length content + 1)))
      with (S (String.length content)) by lia.
    replace (Nat.min 1 (S (String.length content))) with 1 by lia.
    replace (Nat.max 1 (S (String.length content))) with (S (String.length content))
      by lia.
    simpl. rewrite Nat.sub_0_r. apply substring_prefix. }
  rewrite Hsub.
  destruct (trim content) as [|a r] eqn:Et; [reflexivity|].
  simpl isEmpty. change (String a r =? "") with false. cbv iota.
  rewrite <- Et, split_trim by reflexivity.
  rewrite map_map. reflexivity.
Qed.

(** ** Line endings, mixed *)

Lemma splitLines_renderLines (rest : list (bool * string)) :
  forall first,
    noLineTerminator first ->
    Forall (fun e => noLineTerminator (snd e)) rest ->
    splitLines (renderLines first rest) = first :: map snd rest.
Proof.
  induction rest as [|[crlf line] rest IH]; intros first Hf Hr;
    cbn [renderLines map snd].
  - apply splitLines_none, Hf.
  - inversion Hr; subst. simpl in *. destruct crlf.
    + change (splitLines (first ++ String "013" (String "010" (renderLines line rest)))
              = first :: line :: map snd rest).
      rewrite splitLines_app_crlf by exact Hf. f_equal. apply IH; assumption.
    + change (splitLines (first ++ String "010" (renderLines line rest))
              = first :: line :: map snd rest).
      rewrite splitLines_app_lf by exact Hf. f_equal. apply IH; assumption.
Qed.

(** X25.  [UpParser.parse] does not depend on the line endings: a document
    whose lines are separated by LF or CR LF, in any mixture, gives the
    nodes of the same lines joined with LF. *)
Theorem up_parse_line_endings (first : string) (rest : list (bool * string)) :
  noLineTerminator first ->
  Forall (fun e => noLineTerminator (snd e)) rest ->
  UpParser.parse (renderLines first rest)
  = UpParser.parse (join LF (first :: map snd rest)).
Proof.
  intros Hf Hr. unfold UpParser.parse.
  rewrite splitLines_renderLines by assumption.
  rewrite splitLines_join_lf; [reflexivity | | discriminate].
  constructor; [exact Hf|]. apply Forall_map. exact Hr.
Qed.

Lemma up_parse_line_endings_witness :
  UpParser.parse (renderLines "a {" [(true, "b c"); (false, "}"); (true, "d e")])
  = UpParser.parse (join LF ["a {"; "b c"; "}"; "d e"]).
Proof.
  apply (up_parse_line_endings "a {" [(true, "b c"); (false, "}"); (true, "d e")]).
  - reflexivity.
  - repeat constructor.
Defined.

(** ** Flat documents of [Parser1] *)

Lemma p1_docLoop_flat (body : list BlockLine) :
  forall (pre : list string) (nodes : list Parser1.Node) (fuel : nat),
    forallb topLineOk body = true ->
    List.length body <= fuel ->
    Parser1.docLoop fuel (pre ++ map renderBlockLine body) (List.length pre) nodes =
      Ok (nodes ++ flat_map topLineNodes body)%list.
Proof.
  induction body as [|l body IH]; intros pre nodes fuel Hok Hf.
  - simpl. rewrite !app_nil_r. apply p1_docLoop_end. lia.
  - simpl in Hok, Hf. apply andb_true_iff in Hok as [Hl Hok].
    destruct fuel as [|f]; [lia|].
    simpl map. simpl Parser1.docLoop. rewrite List.length_app. simpl List.length.
    destruct (Nat.ltb_spec (List.length pre)
                (List.length pre + S (List.length (map renderBlockLine body))));
      [|lia].
    assert (Hnext : forall nodes',
      Parser1.docLoop f (pre ++ renderBlockLine l :: map renderBlockLine body)
        (List.length pre + 1) nodes' =
      Ok (nodes' ++ flat_map topLineNodes body)%list).
    { intros nodes'.
      replace (pre ++ renderBlockLine l :: map renderBlockLine body)%list
        with ((pre ++ [renderBlockLine l]) ++ map renderBlockLine body)%list
        by (rewrite <- app_assoc; reflexivity).
      replace (List.length pre + 1) with (List.length (pre ++ [renderBlockLine l])%list)
        by (rewrite List.length_app; reflexivity).
      apply IH; [assumption | lia]. }
    destruct l as [tok v | text | text]; simpl in Hl; simpl renderBlockLine in *.
    + apply andb_true_iff in Hl as [Ht Hv].
      destruct (scalarText_parts v Hv) as (Hh & _).
      rewrite (p1_docStep_header _ _ _ tok v) by (assumption || apply nth_after).
      unfold Parser1.parseLineAt.
      rewrite (p1_parseLine_scalar _ _ _ _ tok v) by (assumption || apply nth_after).
      simpl. rewrite Hnext, <- app_assoc. reflexivity.
    + destruct (indentedText_parts "" text Hl) as ((c & r & -> & Hsp) & H2 & _).
      unfold Parser1.docStep. rewrite nth_after, H2. simpl isEmpty. cbv iota.
      unfold Parser1.parseLineAt.
      rewrite (p1_parseLine_indented _ _ _ _ c r) by (assumption || apply nth_after).
      simpl. rewrite Hnext, <- app_assoc. reflexivity.
    + rewrite p1_docStep_skipped by (rewrite nth_after; exact Hl).
      simpl. rewrite Hnext. reflexivity.
Qed.

(** X26.  [Parser1.parse] on a flat document: lines that trim to nothing
    (empty lines included) or to a comment give no node; an entry written at
    the first column gives the node of its key token with its scalar text
    as written; an indented line gives a node whose key is read from the
    whole trimmed line and whose value is empty.  The nodes come in the
    order of the lines. *)
Theorem p1_parse_flat_document (input : string) (body : list BlockLine) :
  split "010" input = map renderBlockLine body ->
  forallb topLineOk body = true ->
  Parser1.parse input = Ok (flat_map topLineNodes body).
Proof.
  intros Hsplit Hok. unfold Parser1.parse, Parser1.parseDocument. rewrite Hsplit.
  apply (p1_docLoop_flat body [] []); [exact Hok | rewrite length_map; lia].
Qed.

Lemma p1_parse_flat_document_witness :
  Parser1.parse
    ("" ++ LF ++ "# This is a comment" ++ LF ++ "name John" ++ LF
     ++ "  age!int 30" ++ LF ++ "" ) =
    Ok [Parser1.mkNode "name" None (Scalar "John");
        Parser1.mkNode "age" (Some "int 30") (Scalar "")].
Proof.
  apply (p1_parse_flat_document _
           [Ignored ""; Ignored "# This is a comment"; Entry "name" "John";
            Indented "  age!int 30"; Ignored ""]);
    reflexivity.
Defined.

(** ** Inline blocks of [Parser2] *)

Lemma p2_splitKeyValue_token (tok rest : string) :
  keyToken tok = true -> lineOrientedToken tok = false ->
  headNonSpace rest = true ->
  existsChar isLineTerminator rest = false ->
  Parser2.splitKeyValue (tok ++ String " " rest) =
    Parser2.mkKeyValue tok (Parser2.stripSurroundingQuotes rest) false.
Proof.
  intros Hk Hlo Hh Hlt.
  destruct (keyToken_parts tok Hk) as (Hne & Hsp & _).
  unfold Parser2.splitKeyValue, Parser2.matchHeader.
  rewrite matchHeader_token; rewrite ?headNonSpace_dropWhile; try assumption.
  unfold lineOrientedToken in Hlo. rewrite Hlo. reflexivity.
Qed.

Lemma headNonSpace_trim (v : string) :
  headNonSpace v = true -> headNonSpace (trim v) = true.
Proof.
  intros H. rewrite <- trimEnd_visible by exact H.
  destruct v as [|c v]; [discriminate|]. simpl in *.
  apply negb_true_iff in H. rewrite H. simpl. rewrite H. reflexivity.
Qed.

(** The loop of [parseInlineBlock] sees its parts trimmed only. *)
Lemma inlineBlockLoop_trimmed (parts parts' : list string) :
  map trim parts = map trim parts' ->
  forall block,
    Parser2.inlineBlockLoop parts block = Parser2.inlineBlockLoop parts' block.
Proof.
  revert parts'. induction parts as [|p parts IH]; intros [|p' parts'] H block;
    try discriminate; [reflexivity|].
  simpl in H. inversion H as [[Hp Hr]]. simpl. rewrite Hp.
  destruct (isEmpty (trim p')); [apply IH, Hr|].
  destruct (Parser2.parseKeyAndType _) as [k ty]. apply IH, Hr.
Qed.

Lemma inlineEntryOk_parts (e : InlineEntry) :
  inlineEntryOk e = true ->
  allSpace (lead e) = true /\ keyToken (token e) = true
  /\ lineOrientedToken (token e) = false /\ headNonSpace (text e) = true
  /\ existsChar isLineTerminator (text e) = false
  /\ existsChar (Ascii.eqb ",") (renderInlineEntry e) = false.
Proof.
  unfold inlineEntryOk. intros H.
  repeat (apply andb_true_iff in H as [H ?]).
  repeat match goal with X : negb _ = true |- _ => apply negb_true_iff in X end.
  repeat split; assumption.
Qed.

Lemma inlineBlockLoop_entries (entries : list InlineEntry) :
  forallb inlineEntryOk entries = true ->
  forall block,
    Parser2.inlineBlockLoop (map renderInlineEntry entries) block =
      fold_left assignInline entries block.
Proof.
  induction entries as [|e entries IH]; intros Hok block; [reflexivity|].
  simpl in Hok. apply andb_true_iff in Hok as [He Hok].
  destruct (inlineEntryOk_parts e He) as (H1 & H2 & H3 & H4 & H5 & H6).
  simpl map. simpl fold_left. simpl Parser2.inlineBlockLoop.
  change (renderInlineEntry e) with (lead e ++ token e ++ String " " (text e)).
  pose proof (header_trim (lead e) (token e) "" (text e) H1 H2 H4) as Ht.
  simpl append in Ht. rewrite Ht.
  destruct (keyToken_parts _ H2) as (Hne & _).
  assert (Hnonempty : isEmpty (token e ++ String " " (trim (text e))) = false).
  { destruct (token e); [discriminate | reflexivity]. }
  rewrite Hnonempty.
  rewrite p2_splitKeyValue_token;
    [| assumption | assumption | apply headNonSpace_trim; assumption
     | apply existsChar_trim; assumption].
  simpl Parser2.keyPart. simpl Parser2.valPart. unfold assignInline.
  destruct (Parser2.parseKeyAndType (token e)) as [k ty]. simpl fst.
  apply IH, Hok.
Qed.

(** X27.  An inline block [{ k1 v1, k2 v2, ... }]: the comma-separated
    entries are assigned in order, as assignments to a plain object, each
    of its trimmed text as a scalar (without one surrounding pair of double
    quotes) under its key; the type annotation of an entry is dropped. *)
Theorem p2_parseInlineBlock_entries (entries : list InlineEntry) :
  forallb inlineEntryOk entries = true ->
  Parser2.parseInlineBlock
    ("{" ++ join "," (map renderInlineEntry entries) ++ "}") =
    Block (fold_left assignInline entries []).
Proof.
  intros Hok. unfold Parser2.parseInlineBlock.
  set (content := join "," (map renderInlineEntry entries)).
  change ("{" ++ content ++ "}") with (String "{" (content ++ String "}" "")).
  rewrite trim_between by reflexivity. rewrite slice_strip_ends.
  destruct entries as [|e entries]; [reflexivity|].
  assert (Hfree : Forall (fun x => existsChar (Ascii.eqb ",") x = false)
                    (map renderInlineEntry (e :: entries))).
  { apply Forall_map, Forall_forall. intros x Hx.
    apply (proj1 (forallb_forall _ _) Hok) in Hx.
    apply (inlineEntryOk_parts x Hx). }
  assert (Hnb : isEmpty (trim content) = false).
  { rewrite isEmpty_trim. apply negb_false_iff.
    simpl in Hok. apply andb_true_iff in Hok as [He _].
    destruct (inlineEntryOk_parts e He) as (_ & H2 & _).
    destruct (keyToken_parts _ H2) as (Hne & Hsp & _).
    assert (Hvis : existsChar (fun c => negb (isSpace c)) (renderInlineEntry e) = true).
    { unfold renderInlineEntry. rewrite !existsChar_app.
      destruct (token e) as [|a t]; [discriminate|].
      simpl in Hsp. apply orb_false_iff in Hsp as [Ha _].
      simpl. rewrite Ha. simpl. apply orb_true_r. }
    unfold content. simpl map. destruct (map renderInlineEntry entries).
    - exact Hvis.
    - rewrite join_cons, existsChar_app, Hvis. reflexivity. }
  rewrite Hnb.
  rewrite (inlineBlockLoop_trimmed _ (split "," content))
    by (apply split_trim; reflexivity).
  unfold content.
  rewrite split_join by (exact Hfree || discriminate).
  rewrite inlineBlockLoop_entries by exact Hok. reflexivity.
Qed.

Lemma p2_parseInlineBlock_entries_witness :
  Parser2.parseInlineBlock
    ("{" ++ join ","
              (map renderInlineEntry
                 [mkInlineEntry " " "x!int" "1"; mkInlineEntry " " "y" "two words";
                  mkInlineEntry "  " "x" "3 "]) ++ "}") =
    Block [("x", Scalar "3"); ("y", Scalar "two words")].
Proof.
  apply (p2_parseInlineBlock_entries
           [mkInlineEntry " " "x!int" "1"; mkInlineEntry " " "y" "two words";
            mkInlineEntry "  " "x" "3 "]).
  reflexivity.
Defined.

(** ** Blocks of [Parser2] *)

Lemma p2_parseLine_scalar (lines : list string)
    (pb pl : nat -> result (Value * nat)) (i : nat) (tok v : string) :
  nth i lines "" = tok ++ String " " v ->
  keyToken tok = true -> lineOrientedToken tok = false ->
  isQuotedType (snd (Parser2.parseKeyAndType tok)) = false ->
  headNonSpace v = true ->
  existsChar isLineTerminator v = false ->
  scalarValue (Parser2.stripSurroundingQuotes v) = true ->
  Parser2.parseLine lines pb pl i =
    Ok (nodeOf2 tok (Scalar (Parser2.stripSurroundingQuotes v)), i + 1).
Proof.
  intros Hline Hk Hlo Hq Hh Hlt Hv.
  destruct (scalarValue_parts _ Hv) as (H1 & H2 & H3 & H4 & H5).
  unfold Parser2.parseLine, nodeOf2. rewrite Hline.
  rewrite p2_splitKeyValue_token by assumption.
  simpl Parser2.keyPart. simpl Parser2.valPart.
  destruct (Parser2.parseKeyAndType tok) as [k ty]. simpl in Hq.
  unfold isQuotedType in Hq. rewrite Hq.
  unfold Parser2.parseValue. rewrite H1, H2, H3, H4, H5. reflexivity.
Qed.

Lemma p2_parseLine_indented (lines : list string)
    (pb pl : nat -> result (Value * nat)) (i : nat) (c : ascii) (r : string) :
  nth i lines "" = String c r ->
  isSpace c = true ->
  isQuotedType (snd (Parser2.parseKeyAndType (trim (String c r)))) = false ->
  Parser2.parseLine lines pb pl i =
    Ok (nodeOf2 (trim (String c r)) (Scalar ""), i + 1).
Proof.
  intros Hline Hc Hq. unfold Parser2.parseLine, nodeOf2. rewrite Hline.
  unfold Parser2.splitKeyValue, Parser2.matchHeader, Parser1.matchHeader.
  simpl takeWhile. rewrite Hc. simpl isEmpty. simpl orb. cbv iota.
  simpl Parser2.keyPart. simpl Parser2.valPart.
  destruct (Parser2.parseKeyAndType (trim (String c r))) as [k ty]. simpl in Hq.
  unfold isQuotedType in Hq. rewrite Hq. reflexivity.
Qed.

Lemma blockLineOk2_entry (tok v : string) :
  blockLineOk2 (Entry tok v) = true ->
  keyToken tok = true /\ lineOrientedToken tok = false
  /\ isQuotedType (snd (Parser2.parseKeyAndType tok)) = false
  /\ headNonSpace v = true /\ existsChar isLineTerminator v = false
  /\ scalarValue (Parser2.stripSurroundingQuotes v) = true.
Proof.
  cbn [blockLineOk2]. intros H.
  apply andb_true_iff in H as [H H6]. apply andb_true_iff in H as [H H5].
  apply andb_true_iff in H as [H H4]. apply andb_true_iff in H as [H H3].
  apply andb_true_iff in H as [H1 H2].
  apply negb_true_iff in H2, H3, H5. repeat split; assumption.
Qed.

Lemma p2_blockLoop_flat (body : list BlockLine) :
  forall (pre tail : list string) (acc : Entries) (fuel : nat),
    forallb blockLineOk2 body = true ->
    closes "}" tail ->
    List.length body < fuel ->
    Parser2.blockLoop fuel (pre ++ map renderBlockLine body ++ tail)
      (List.length pre) acc =
    Ok (Block (fold_left assignLine2 body acc),
        List.length pre + List.length body + closerWidth tail).
Proof.
  induction body as [|l body IH]; intros pre tail acc fuel Hok Hc Hf;
    (destruct fuel as [|f]; [simpl in Hf; lia|]);
    simpl map; simpl fold_left; simpl List.length.
  - simpl app. simpl Parser2.blockLoop. destruct tail as [|c post].
    + rewrite app_nil_r, Nat.ltb_irrefl. simpl. do 3 f_equal. lia.
    + simpl in Hc. rewrite List.length_app. simpl List.length.
      destruct (Nat.ltb_spec (List.length pre) (List.length pre + S (List.length post)));
        [|lia].
      rewrite nth_after, (closes_nonempty "}" c Hc), Hc. simpl. do 3 f_equal. lia.
  - simpl in Hok, Hf. apply andb_true_iff in Hok as [Hl Hok].
    simpl app. simpl Parser2.blockLoop.
    rewrite List.length_app. simpl List.length.
    destruct (Nat.ltb_spec (List.length pre)
                (List.length pre
                 + S (List.length (map renderBlockLine body ++ tail)))); [|lia].
    rewrite nth_after.
    assert (Hnext : forall acc',
      Parser2.blockLoop f (pre ++ renderBlockLine l :: map renderBlockLine body ++ tail)
        (List.length pre + 1) acc' =
      Ok (Block (fold_left assignLine2 body acc'),
          List.length pre + S (List.length body) + closerWidth tail)).
    { intros acc'.
      replace (pre ++ renderBlockLine l :: map renderBlockLine body ++ tail)%list
        with ((pre ++ [renderBlockLine l]) ++ map renderBlockLine body ++ tail)%list
        by (rewrite <- app_assoc; reflexivity).
      replace (List.length pre + 1) with (List.length (pre ++ [renderBlockLine l])%list)
        by (rewrite List.length_app; reflexivity).
      rewrite IH by (assumption || lia).
      rewrite List.length_app. simpl. do 3 f_equal. lia. }
    destruct l as [tok v | text | text]; simpl renderBlockLine in *.
    + destruct (blockLineOk2_entry tok v Hl) as (E1 & E2 & E3 & E4 & E5 & E6).
      assert (Hline : isEmpty (tok ++ String " " v) = false
                      /\ (isEmpty (trim (tok ++ String " " v))
                          || startsWith (trim (tok ++ String " " v)) "#") = false
                      /\ (trim (tok ++ String " " v) =? "}") = false).
      { split; [apply header_line_nonempty; assumption|].
        destruct (header_line_trim tok v) as (a & r & -> & Ha & Hc' & Hne & _);
          try assumption.
        rewrite startsWith_cons, Hc'. split; [reflexivity|].
        rewrite eqb_cons. destruct r; [discriminate|]. apply andb_false_r. }
      destruct Hline as (L1 & L2 & L3). rewrite L1, L3, L2.
      rewrite (p2_parseLine_scalar _ _ _ _ tok v)
        by (assumption || apply nth_after).
      unfold nodeOf2. simpl assignLine2.
      destruct (Parser2.parseKeyAndType tok) as [k ty]. simpl.
      apply Hnext.
    + cbn [blockLineOk2] in Hl.
      apply andb_true_iff in Hl as [Hl Hq]. apply negb_true_iff in Hq.
      destruct (indentedText_parts "}" text Hl) as ((c & r & -> & Hsp) & H2 & H3).
      rewrite H3, H2. simpl isEmpty. cbv iota.
      rewrite (p2_parseLine_indented _ _ _ _ c r) by (assumption || apply nth_after).
      unfold nodeOf2. simpl assignLine2.
      destruct (Parser2.parseKeyAndType (trim (String c r))) as [k ty]. simpl.
      apply Hnext.
    + cbn [blockLineOk2] in Hl.
      destruct (passedOver_parts text "" "}" Hl eq_refl) as (H1 & H2 & H3).
      rewrite H1, H3, H2. apply Hnext.
Qed.

Lemma startsWith_lint_not_use (t : string) :
  startsWith t "!lint" = true -> startsWith t "!use" = false.
Proof.
  destruct t as [|a t]; [discriminate|]. rewrite !startsWith_cons.
  intros H. apply andb_true_iff in H as [_ H].
  destruct t as [|b t]; [discriminate|]. rewrite startsWith_cons in H.
  apply andb_true_iff in H as [Hb _]. apply Ascii.eqb_eq in Hb. subst b.
  rewrite startsWith_cons. apply andb_false_r.
Qed.

(** X28.  A [!lint] directive followed by a block: the node [_lint] of type
    [directive] holds the block read from the following lines, up to the
    closing brace or, without error, to the end of the input. *)
Theorem p2_parse_lint_block (input header : string) (body : list BlockLine)
    (tail : list string) :
  split "010" input = (header :: map renderBlockLine body ++ tail)%list ->
  lintHeader header = true ->
  forallb blockLineOk2 body = true ->
  endOfInput "}" tail ->
  Parser2.parse input =
    Ok [Parser2.mkNode "_lint" (Some "directive")
          (Block (fold_left assignLine2 body []))].
Proof.
  intros Hsplit Hh Hok Hend.
  destruct (endOfInput_closes _ _ Hend) as [Hc Hw].
  unfold lintHeader in Hh. apply andb_true_iff in Hh as [Hlint Harg].
  unfold Parser2.parse, Parser2.parseDocument. rewrite Hsplit.
  set (lines := (header :: map renderBlockLine body ++ tail)%list).
  assert (Hlen : List.length lines = 1 + List.length body + closerWidth tail).
  { unfold lines. simpl. rewrite List.length_app, length_map, Hw. reflexivity. }
  apply p2_docLoop_single; [discriminate|].
  unfold Parser2.docStep. change (nth 0 lines "") with header.
  destruct (startsWith_lint_shape _ Hlint) as (He & Hcm).
  rewrite (trim_empty_line _ He), He, Hcm, Hlint.
  pose proof (startsWith_lint_not_use _ Hlint) as Huse.
  rewrite Huse. simpl orb. cbv iota.
  unfold Parser2.parseLintDirective. change (nth 0 lines "") with header.
  rewrite Harg. unfold Parser2.parseBlock.
  change (0 + 1) with (List.length [header]).
  change lines with ([header] ++ map renderBlockLine body ++ tail)%list at 2.
  rewrite p2_blockLoop_flat by (assumption || lia).
  rewrite Hlen. reflexivity.
Qed.

Lemma p2_parse_lint_block_witness :
  Parser2.parse
    (" !lint  {" ++ LF ++ "max-depth 3" ++ LF ++ "name " ++ DQ ++ "strict" ++ DQ
     ++ LF ++ "}") =
    Ok [Parser2.mkNode "_lint" (Some "directive")
          (Block [("max-depth", Scalar "3"); ("name", Scalar "strict")])].
Proof.
  apply (p2_parse_lint_block _ " !lint  {"
           [Entry "max-depth" "3"; Entry "name" (DQ ++ "strict" ++ DQ)] ["}"]);
    try reflexivity.
  right. exists "}". split; reflexivity.
Defined.

(** X29.  A block of [Parser2] under a header in the traditional form: the
    entries are assigned in order, each value without one surrounding pair
    of double quotes; an indented line gives the empty scalar under the key
    read from its whole trimmed text; lines of white space and comments are
    passed over. *)
Theorem p2_parse_flat_block (input tok : string) (body : list BlockLine)
    (tail : list string) :
  split "010" input = ((tok ++ " {")%string :: map renderBlockLine body ++ tail)%list ->
  traditionalToken tok = true ->
  isQuotedType (snd (Parser2.parseKeyAndType tok)) = false ->
  forallb blockLineOk2 body = true ->
  endOfInput "}" tail ->
  Parser2.parse input =
    Ok [nodeOf2 tok (Block (fold_left assignLine2 body []))].
Proof.
  intros Hsplit Ht Hq Hok Hend.
  destruct (endOfInput_closes _ _ Hend) as [Hc Hw].
  destruct (traditionalToken_parts tok Ht) as (Hk & Hb & Hlo).
  unfold Parser2.parse, Parser2.parseDocument. rewrite Hsplit.
  set (lines := ((tok ++ " {")%string :: map renderBlockLine body ++ tail)%list).
  assert (Hlen : List.length lines = 1 + List.length body + closerWidth tail).
  { unfold lines. simpl. rewrite List.length_app, length_map, Hw. reflexivity. }
  apply p2_docLoop_single; [discriminate|].
  rewrite (p2_docStep_header lines 0 [] tok "{") by (reflexivity || assumption).
  unfold Parser2.parseLineAt, Parser2.parseLine.
  change (nth 0 lines "") with (tok ++ String " " "{").
  rewrite p2_splitKeyValue_token by (assumption || reflexivity).
  simpl Parser2.keyPart. simpl Parser2.valPart. unfold nodeOf2.
  destruct (Parser2.parseKeyAndType tok) as [k ty]. simpl in Hq.
  unfold isQuotedType in Hq. rewrite Hq.
  unfold Parser2.parseValue, Parser2.parseBlock.
  change (Parser2.stripSurroundingQuotes "{") with "{".
  change (startsWith "{" "```") with false. change ("{" =? "{") with true. cbv iota.
  rewrite Hlen.
  change (0 + 1) with (List.length [(tok ++ " {")%string]).
  change lines with ([(tok ++ " {")%string] ++ map renderBlockLine body ++ tail)%list.
  rewrite p2_blockLoop_flat by (assumption || lia).
  reflexivity.
Qed.

Lemma p2_parse_flat_block_witness :
  Parser2.parse
    ("server {" ++ LF ++ "host " ++ DQ ++ "local host" ++ DQ ++ LF ++ "# port" ++ LF
     ++ "port!int 80" ++ LF ++ "  tls on" ++ LF ++ "}") =
    Ok [Parser2.mkNode "server" None
          (Block [("host", Scalar "local host"); ("port", Scalar "80");
                  ("tls on", Scalar "")])].
Proof.
  apply (p2_parse_flat_block _ "server"
           [Entry "host" (DQ ++ "local host" ++ DQ); Ignored "# port";
            Entry "port!int" "80"; Indented "  tls on"] ["}"]);
    try reflexivity.
  right. exists "}". split; reflexivity.
Defined.

(** ** Lists of [UpParser] *)

Lemma up_listLoop_unfold (lines : list string) (f : nat) (list : list Value)
    (lineNum : nat) :
  UpParser.listLoop lines (S f) list lineNum =
    if (lineNum <? List.length lines)%nat then
      let trimmed := trim (nth lineNum lines "") in
      if trimmed =? "]" then Ok (List list, lineNum + 1)
      else if (trimmed =? "") || startsWith trimmed "#" then
        UpParser.listLoop lines f list (lineNum + 1)
      else if trimmed =? "{" then
        match UpParser.nodesLoop lines f (Some "}") [] (lineNum + 1) with
        | Ok (ns, n) =>
            UpParser.listLoop lines f (list ++ [UpParser.blockOfNodes ns])%list n
        | Throw msg => Throw msg
        | OutOfFuel => OutOfFuel
        end
      else if startsWith trimmed "[" then
        UpParser.listLoop lines f
          (list ++ [UpParser.scalars (UpParser.parseInlineList trimmed)])%list
          (lineNum + 1)
      else UpParser.listLoop lines f (list ++ [Scalar trimmed])%list (lineNum + 1)
    else Ok (List list, lineNum).
Proof.
  simpl. unfold UpParser.mbind at 1, UpParser.getLineNum.
  destruct (lineNum <? List.length lines)%nat; [|reflexivity].
  cbv zeta.
  destruct (trim (nth lineNum lines "") =? "]"); [reflexivity|].
  destruct ((trim (nth lineNum lines "") =? "")
            || startsWith (trim (nth lineNum lines "")) "#"); [reflexivity|].
  destruct (trim (nth lineNum lines "") =? "{"); [reflexivity|].
  destruct (startsWith (trim (nth lineNum lines "")) "["); reflexivity.
Qed.

Lemma upListLineOk_row (text : string) :
  startsWith (trim text) "[" = true ->
  (trim text =? "]") = false
  /\ ((trim text =? "") || startsWith (trim text) "#") = false
  /\ (trim text =? "{") = false.
Proof.
  destruct (trim text) as [|a r]; [discriminate|]. rewrite startsWith_cons.
  intros H. apply andb_true_iff in H as [Ha _]. apply Ascii.eqb_eq in Ha. subst a.
  repeat split; reflexivity.
Qed.

Lemma up_listLoop_flat (body : list ListLine) :
  forall (pre tail : list string) (acc : list Value) (fuel : nat),
    forallb upListLineOk body = true ->
    closes "]" tail ->
    List.length body < fuel ->
    UpParser.listLoop (pre ++ map renderListLine body ++ tail) fuel acc
      (List.length pre) =
    Ok (List (acc ++ flat_map upListLineValues body),
        List.length pre + List.length body + closerWidth tail).
Proof.
  induction body as [|l body IH]; intros pre tail acc fuel Hok Hc Hf;
    (destruct fuel as [|f]; [simpl in Hf; lia|]); rewrite up_listLoop_unfold.
  - simpl map. simpl app. simpl flat_map. rewrite app_nil_r.
    destruct tail as [|c post].
    + rewrite app_nil_r, Nat.ltb_irrefl. simpl. do 2 f_equal. lia.
    + simpl in Hc. rewrite List.length_app. simpl List.length.
      destruct (Nat.ltb_spec (List.length pre) (List.length pre + S (List.length post)));
        [|lia].
      cbv zeta. rewrite nth_after, Hc. simpl. do 2 f_equal. lia.
  - simpl in Hok, Hf. apply andb_true_iff in Hok as [Hl Hok].
    simpl map. simpl app. rewrite List.length_app. simpl List.length.
    destruct (Nat.ltb_spec (List.length pre)
                (List.length pre
                 + S (List.length (map renderListLine body ++ tail)))); [|lia].
    cbv zeta. rewrite nth_after.
    assert (Hnext : forall acc',
      UpParser.listLoop (pre ++ renderListLine l :: map renderListLine body ++ tail)
        f acc' (List.length pre + 1) =
      Ok (List (acc' ++ flat_map upListLineValues body),
          List.length pre + S (List.length body) + closerWidth tail)).
    { intros acc'.
      replace (pre ++ renderListLine l :: map renderListLine body ++ tail)%list
        with ((pre ++ [renderListLine l]) ++ map renderListLine body ++ tail)%list
        by (rewrite <- app_assoc; reflexivity).
      replace (List.length pre + 1) with (List.length (pre ++ [renderListLine l])%list)
        by (rewrite List.length_app; reflexivity).
      rewrite IH by (assumption || lia).
      rewrite List.length_app. simpl. do 2 f_equal. lia. }
    destruct l as [text | text | text]; cbn [upListLineOk] in Hl;
      simpl renderListLine in *; simpl flat_map.
    + cbv zeta in Hl.
      apply andb_true_iff in Hl as [Hl H4]. apply andb_true_iff in Hl as [Hl H3].
      apply andb_true_iff in Hl as [H1 H2].
      apply negb_true_iff in H1, H2, H3, H4.
      rewrite H1, H2, H3, H4, Hnext, <- app_assoc. reflexivity.
    + destruct (upListLineOk_row text Hl) as (H1 & H2 & H3).
      rewrite H1, H2, H3, Hl, Hnext, <- app_assoc. reflexivity.
    + rewrite Hl.
      assert (H1 : (trim text =? "]") = false).
      { destruct (trim text) as [|a r]; [reflexivity|].
        simpl in Hl. rewrite startsWith_cons in Hl.
        apply andb_true_iff in Hl as [Ha _]. apply Ascii.eqb_eq in Ha. subst a.
        reflexivity. }
      rewrite H1. apply Hnext.
Qed.

(** X30.  [UpParser.parse] on a list of scalars and rows: each item line
    gives its trimmed text, each line that starts with an opening bracket
    gives the list of its inline items, blank lines (empty ones included)
    and comments are skipped, and the list ends at the closing bracket or,
    without error, at the end of the input. *)
Theorem up_parse_flat_list (input name : string) (ty : option string)
    (body : list ListLine) (tail : list string) :
  splitLines input =
    ((upHeader name ty ++ " [")%string :: map renderListLine body ++ tail)%list ->
  plainName name = true ->
  typeText ty = true ->
  forallb upListLineOk body = true ->
  endOfInput "]" tail ->
  UpParser.parse input =
    Ok [UpParser.mkUpNode name (upType ty)
          (List (flat_map upListLineValues body))].
Proof.
  intros Hsplit Hn Hty Hok Hend.
  destruct (endOfInput_closes _ _ Hend) as [Hc Hw].
  unfold UpParser.parse, UpParser.parseNodes. rewrite Hsplit.
  set (header := upHeader name ty ++ " [").
  set (lines := (header :: map renderListLine body ++ tail)%list).
  assert (Hlen : List.length lines = 1 + List.length body + closerWidth tail).
  { unfold lines. simpl. rewrite List.length_app, length_map, Hw. reflexivity. }
  change None with (delimiterOf false).
  rewrite (up_nodesLoop_entry lines _ false [] 0 "" name ty "" "[");
    try assumption; try reflexivity; [|rewrite Hlen; lia].
  unfold UpParser.parseValue.
  change (startsWith (trim "[") "```") with false.
  change (trim "[" =? "{") with false.
  change (trim "[" =? "[") with true. cbv iota.
  pose proof (up_listLoop_flat body [header] tail [] (List.length lines)
                Hok Hc) as H.
  change ([header] ++ map renderListLine body ++ tail)%list with lines in H.
  change (List.length [header]) with (0 + 1) in H.
  rewrite H by (rewrite Hlen; lia). simpl app.
  replace (0 + 1 + List.length body + closerWidth tail) with (List.length lines)
    by lia.
  destruct (List.length lines) as [|f] eqn:El; [simpl in Hlen; lia|].
  rewrite up_nodesLoop_end by lia. reflexivity.
Qed.

Lemma up_parse_flat_list_witness :
  UpParser.parse
    ("points!list [" ++ LF ++ "  origin " ++ LF ++ "" ++ LF ++ "  [1, 2]" ++ LF
     ++ "  [3, 4" ++ LF ++ "]") =
    Ok [UpParser.mkUpNode "points" "list"
          (List [Scalar "origin"; List [Scalar "1"; Scalar "2"];
                 List [Scalar "["]])].
Proof.
  apply (up_parse_flat_list _ "points" (Some "list")
           [Item "  origin "; Skipped ""; Row "  [1, 2]"; Row "  [3, 4"] ["]"]);
    try reflexivity.
  right. exists "]". split; reflexivity.
Defined.

(** ** Lines the driver of [Parser2] reaches *)





(** ** The claims *)

(** C1 (code defect).  A blank line inside a block body should be skipped,
    so that [a {], [b c], an empty line, [d e], [}] gives the single node [a]
    with entries [b] and [d].  In class [Parser] (both revisions) the guard on
    an empty [lines[i]] leaves the block loop at the empty line: the block
    ends with [b] only, and [d e] and [}] become top-level nodes (in general:
    [p1_blockLoop_stops]; a line of white space only is skipped,
    [p1_blockLoop_skips]).  Class [UpParser] skips the line and returns the
    single node (in general: [up_nodesLoop_skips]). *)
Theorem C1_empty_line_ends_block :
  let input := "a {" ++ LF ++ "b c" ++ LF ++ LF ++ "d e" ++ LF ++ "}" in
  Parser1.parse input =
    Ok [Parser1.mkNode "a" None (Block [("b", Scalar "c")]);
        Parser1.mkNode "d" None (Scalar "e");
        Parser1.mkNode "}" None (Scalar "")]
  /\ Parser2.parse input = Parser1.parse input
  /\ UpParser.parse input =
       Ok [UpParser.mkUpNode "a" "" (Block [("b", Scalar "c"); ("d", Scalar "e")])].
Proof. cbv zeta. repeat split; vm_compute; reflexivity. Qed.

(** C2 (code defect).  Inside a multiline value a blank line should be kept
    and the accumulation should go on to the closing fence.  In class
    [Parser] (both revisions) an empty line ends the accumulation without
    being consumed: the value is [Line 1] only and the rest of the body is
    parsed as top-level nodes (in general: [p1_multilineLoop_stops]).  Class
    [UpParser] keeps the empty line and joins the three lines with line feeds
    (in general: [up_multilineLoop_keeps]). *)
Theorem C2_empty_line_ends_multiline :
  let input :=
    "x ```" ++ LF ++ "Line 1" ++ LF ++ LF ++ "Line 2" ++ LF ++ "```" in
  Parser1.parse input =
    Ok [Parser1.mkNode "x" None (Scalar "Line 1");
        Parser1.mkNode "Line" None (Scalar "2");
        Parser1.mkNode "```" None (Scalar "")]
  /\ Parser2.parse input = Parser1.parse input
  /\ UpParser.parse input =
       Ok [UpParser.mkUpNode "x" "" (Scalar ("Line 1" ++ LF ++ LF ++ "Line 2"))].
Proof. cbv zeta. repeat split; vm_compute; reflexivity. Qed.

(** C3 (code defect).  An input with CRLF line endings should parse to the
    document of the same input with LF endings.  Class [Parser] (both
    revisions) splits at LF only; the CR stays on the line, the header
    pattern no longer matches it, and the whole trimmed line becomes the key
    with an empty value (in general: [p1_splitKeyValue_terminator]).  Class
    [UpParser] splits at an optional CR followed
    by LF and returns the same nodes for both inputs (in general:
    [up_parse_crlf]). *)
Theorem C3_crlf_changes_document :
  let crlf := "name John" ++ CR ++ LF ++ "age!int 30" in
  let lf := "name John" ++ LF ++ "age!int 30" in
  Parser1.parse lf =
    Ok [Parser1.mkNode "name" None (Scalar "John");
        Parser1.mkNode "age" (Some "int") (Scalar "30")]
  /\ Parser1.parse crlf =
       Ok [Parser1.mkNode "name John" None (Scalar "");
           Parser1.mkNode "age" (Some "int") (Scalar "30")]
  /\ Parser2.parse lf = Parser1.parse lf
  /\ Parser2.parse crlf = Parser1.parse crlf
  /\ UpParser.parse crlf = UpParser.parse lf
  /\ UpParser.parse lf =
       Ok [UpParser.mkUpNode "name" "" (Scalar "John");
           UpParser.mkUpNode "age" "int" (Scalar "30")].
Proof. cbv zeta. repeat split; vm_compute; reflexivity. Qed.

(** C4, as stated, fails: the number sign inside the quoted remainder starts
    the comment, and the value is the opening quote followed by [a]. *)
Lemma C4_counterexample :
  let line := "title: " ++ DQ ++ "a # b" ++ DQ in
  Parser2.parse line = Ok [Parser2.mkNode "title" None (Scalar (DQ ++ "a"))]
  /\ Scalar (DQ ++ "a") <> Scalar "a # b"
  /\ Scalar (DQ ++ "a") <> Scalar (DQ ++ "a # b" ++ DQ).
Proof. cbv zeta. repeat split; try (vm_compute; reflexivity); discriminate. Qed.

(** C4 (amended).  In line-oriented mode the value remainder is cut at its
    first number sign, whether or not a double quote is open before it: for a
    key token [k:] without [://], a text [v] without number sign and any
    comment text [c], the line [k: v#c] splits into the key [k] and the value
    [v], trimmed and stripped of one surrounding pair of double quotes. *)
Theorem C4_truncates_at_first_hash (k v c : string) :
  existsChar isSpace k = false ->
  includes (k ++ ":") "://" = false ->
  existsChar (Ascii.eqb "#") v = false ->
  existsChar isLineTerminator (v ++ "#" ++ c) = false ->
  Parser2.splitKeyValue (k ++ ": " ++ v ++ "#" ++ c) =
    Parser2.mkKeyValue k (Parser2.stripSurroundingQuotes (trim v)) true.
Proof.
  intros Hk Hurl Hv Hlt.
  change (k ++ ": " ++ v ++ "#" ++ c)
    with (k ++ String ":" (String " " (v ++ String "#" c))).
  change (v ++ "#" ++ c) with (v ++ String "#" c) in Hlt.
  rewrite existsChar_app in Hlt. apply orb_false_iff in Hlt as [Hltv Hltc].
  rewrite append_snoc.
  unfold Parser2.splitKeyValue, Parser2.matchHeader.
  rewrite matchHeader_token.
  - rewrite endsWith_app, Hurl. simpl negb. simpl andb. cbv iota.
    rewrite slice_drop_last. f_equal.
    rewrite dropWhile_space_app by reflexivity.
    fold (trimStart v).
    assert (Ht : trim (trimStart v ++ String "#" c)
                 = trimStart v ++ String "#" (trimEnd c)).
    { unfold trim.
      change (trimStart (trimStart v ++ String "#" c))
        with (dropWhile isSpace (trimStart v ++ String "#" c)).
      rewrite dropWhile_space_app by reflexivity.
      fold (trimStart (trimStart v)). rewrite trimStart_idempotent.
      apply trimEnd_app. reflexivity. }
    rewrite Ht. unfold indexOf.
    rewrite findIndex_app;
      [| apply existsChar_dropWhile; exact Hv | reflexivity].
    destruct (Z.leb_spec 0 (Z.of_nat (String.length (trimStart v)))); [|lia].
    rewrite slice_prefix. unfold trim at 1. rewrite trimStart_idempotent.
    reflexivity.
  - rewrite existsChar_app, Hk. reflexivity.
  - apply isEmpty_snoc.
  - rewrite dropWhile_space_app by reflexivity.
    rewrite existsChar_app, (existsChar_dropWhile _ _ _ Hltv). exact Hltc.
Qed.

(** The instance of C4 for the line [title: "a # b"]. *)
Lemma C4_truncates_at_first_hash_witness :
  Parser2.splitKeyValue ("title" ++ ": " ++ (DQ ++ "a ") ++ "#" ++ (" b" ++ DQ)) =
    Parser2.mkKeyValue "title" (Parser2.stripSurroundingQuotes (trim (DQ ++ "a "))) true.
Proof.
  apply (C4_truncates_at_first_hash "title" (DQ ++ "a ") (" b" ++ DQ));
    reflexivity.
Defined.






(** C7 (code defect).  A key assigned more than once in a block should end
    with exactly one entry, holding the last value, where the key first
    appeared.  The block is a plain object, and an assignment to the key
    [__proto__] goes to the accessor of [Object.prototype] instead of
    creating a property: the key is assigned twice in the first input and the
    block has no entry for it.  A plain object also lists its array-index
    keys first: in the second input [5] is assigned twice, first appears
    after [b], and is enumerated before it.  ([b], assigned twice as well,
    keeps one entry with the last value where it first appeared; for every
    key but [__proto__] see [objSet_overwrites_in_place].) *)
Theorem C7_proto_key_has_no_entry :
  let input :=
    "a {" ++ LF ++ "b 1" ++ LF ++ "__proto__ x" ++ LF ++ "c 2" ++ LF
    ++ "__proto__ y" ++ LF ++ "b 3" ++ LF ++ "}" in
  let block := [("b", Scalar "3"); ("c", Scalar "2")] in
  let input' :=
    "a {" ++ LF ++ "b 1" ++ LF ++ "5 x" ++ LF ++ "5 y" ++ LF ++ "}" in
  let block' := [("b", Scalar "1"); ("5", Scalar "y")] in
  Parser1.parse input = Ok [Parser1.mkNode "a" None (Block block)]
  /\ Parser2.parse input = Ok [Parser2.mkNode "a" None (Block block)]
  /\ UpParser.parse input = Ok [UpParser.mkUpNode "a" "" (Block block)]
  /\ objGet block "__proto__" = None
  /\ Parser1.parse input' = Ok [Parser1.mkNode "a" None (Block block')]
  /\ Parser2.parse input' = Ok [Parser2.mkNode "a" None (Block block')]
  /\ enumerate block' = ["5"; "b"].
Proof. cbv zeta. repeat split; vm_compute; reflexivity. Qed.

(** C8 (code defect).  A [!quoted] header should keep a remainder that is
    already wrapped in a pair of double quotes and add one double quote at
    each end of any other.  The remainder made of one double quote is not
    wrapped in a pair, yet it both starts and ends with a double quote, so
    the branch leaves it as it is: the value is the one character instead of
    three.  (The type annotation is rewritten to [string] as claimed, and
    every other remainder is handled as claimed, see [p2_parseLine_quoted].) *)
Theorem C8_lone_quote_not_wrapped :
  let input := "k!quoted " ++ DQ in
  Parser2.parse input = Ok [Parser2.mkNode "k" (Some "string") (Scalar DQ)]
  /\ wrappedInQuotes DQ = false
  /\ Scalar DQ <> Scalar (DQ ++ DQ ++ DQ).
Proof. cbv zeta. repeat split; try (vm_compute; reflexivity). discriminate. Qed.

(** C9.  Inline list parsing does not see white space around the commas or
    next to the brackets: two one-line inputs [key [items]] whose items agree
    after trimming parse to the same document, in both revisions of class
    [Parser]; the document has the one node [key] whose value is the inline
    list of the items. *)
Theorem C9_inline_list_whitespace (key : string) (xs ys : list string) :
  plainKey key ->
  endsWith key ":" = false ->
  Forall listItem xs ->
  Forall listItem ys ->
  map trim xs = map trim ys ->
  let a := key ++ " [" ++ join "," xs ++ "]" in
  let b := key ++ " [" ++ join "," ys ++ "]" in
  Parser1.parse a = Parser1.parse b
  /\ Parser2.parse a = Parser2.parse b
  /\ Parser1.parse a =
       Ok [Parser1.mkNode key None (Parser1.parseInlineList ("[" ++ join "," xs ++ "]"))]
  /\ Parser2.parse a = Parser1.parse a.
Proof.
  intros Hkey Hcolon Hxs Hys Htrim a b.
  destruct (listItems_join xs Hxs) as [Hcx Hlx].
  destruct (listItems_join ys Hys) as [Hcy Hly].
  unfold a, b.
  rewrite !p1_parse_inline_list, !p2_parse_inline_list by assumption.
  rewrite (parseInlineList_whitespace xs ys Hcx Hcy Htrim).
  repeat split.
Qed.

(** The instance of C9 of the specification: [colors [red, green, blue]] and
    [colors [ red , green , blue ]] parse to the same document, whose one
    node holds the three scalars. *)
Lemma C9_inline_list_whitespace_witness :
  Parser1.parse "colors [red, green, blue]" =
    Parser1.parse "colors [ red , green , blue ]"
  /\ Parser2.parse "colors [red, green, blue]" =
       Parser2.parse "colors [ red , green , blue ]"
  /\ Parser1.parse "colors [red, green, blue]" =
       Ok [Parser1.mkNode "colors" None
             (List [Scalar "red"; Scalar "green"; Scalar "blue"])]
  /\ Parser2.parse "colors [red, green, blue]" =
       Parser1.parse "colors [red, green, blue]".
Proof.
  assert (Hkey : plainKey "colors") by (repeat split).
  assert (Hxs : Forall listItem ["red"; " green"; " blue"])
    by (repeat constructor).
  assert (Hys : Forall listItem [" red "; " green "; " blue "])
    by (repeat constructor).
  exact (C9_inline_list_whitespace "colors"
           ["red"; " green"; " blue"] [" red "; " green "; " blue "]
           Hkey eq_refl Hxs Hys eq_refl).
Defined.

(** C10.  A top-level line whose trimmed text starts with [!use] is handed
    to the use-directive parser, whatever follows the four characters: the
    iteration does what [parseUseDirective] does and the generic line parser
    is not called; a node it pushes is the [_use] directive pseudo-node.
    When the text after the prefix, once trimmed, does not start with an
    opening bracket, [parse] fails with the [ParseError] of the directive,
    whose message has no line-number prefix. *)
Theorem C10_use_prefix_routing (input : string) (i : nat) :
  topLevel (split "010" input) i ->
  isUseLine (split "010" input) i ->
  let lines := split "010" input in
  (forall nodes,
      Parser2.docStep lines i nodes =
        (let* node := Parser2.parseUseDirective (trim (nth i lines "")) in
         Ok (i + 1, (nodes ++ [node])%list)))
  /\ (forall node,
        Parser2.parseUseDirective (trim (nth i lines "")) = Ok node ->
        exists namespaces,
          node = Parser2.mkNode "_use" (Some "directive") (UseDirective namespaces))
  /\ (startsWith (useArgument (nth i lines "")) "[" = false ->
      Parser2.parse input = Throw Parser2.useMessage
      /\ startsWith Parser2.useMessage "line " = false).
Proof.
  intros Htop Huse lines. split; [|split].
  - intros nodes. apply p2_docStep_use. exact Huse.
  - intros node. unfold Parser2.parseUseDirective.
    destruct (startsWith _ "["); [|discriminate].
    intros H. inversion H. eexists; reflexivity.
  - intros Harg. split; [|reflexivity].
    apply (proj2 (use_error_iff input)).
    exists i. split; [exact Htop | split; [exact Huse | exact Harg]].
Qed.

(** The instance of C10 for the line [!useful things]. *)
Lemma C10_use_prefix_routing_witness :
  Parser2.parse "!useful things" = Throw Parser2.useMessage.
Proof.
  assert (Htop : topLevel (split "010" "!useful things") 0).
  { split; [simpl; lia | exists []; apply steps_refl]. }
  assert (Huse : isUseLine (split "010" "!useful things") 0).
  { reflexivity. }
  exact (proj1 (proj2 (proj2
           (C10_use_prefix_routing "!useful things" 0 Htop Huse)) eq_refl)).
Defined.
